(** * Chromeleon chat client: the source annotation logic of [static/script.js]

    A shallow embedding of the pure parts of the script ([extractKbDigits],
    [escapeHtml], the building of the sources block in [sendQuestion]), of
    the state changes of one [sendQuestion] turn, and of the objects that
    [extractKbDigits] and the building of the sources make.

    Conventions of the embedding.
    - A JavaScript string is a [string]: a sequence of code units, kept here
      to the units below 256.
    - A value received from the backend is a parsed JSON document ([value]).
    - [null] as the result of [extractKbDigits] is [None].
    - The built-ins the script calls ([String.prototype.match], [replace],
      [padStart], [trim], [encodeURIComponent], [Set]) are written out after
      ECMAScript, for the inputs the script can give them. *)

From Stdlib Require Import List String Ascii Bool Arith NArith ZArith Lia.
From Stdlib Require Import Floats.SpecFloat.
Import ListNotations.

Local Open Scope list_scope.
Local Open Scope string_scope.
Local Open Scope nat_scope.

(** ** Strings *)

Module Str.

Definition isEmpty (s : string) : bool :=
  match s with EmptyString => true | String _ _ => false end.

Fixpoint all (p : ascii -> bool) (s : string) : bool :=
  match s with
  | EmptyString => true
  | String c s' => p c && all p s'
  end.

Fixpoint any (p : ascii -> bool) (s : string) : bool :=
  match s with
  | EmptyString => false
  | String c s' => p c || any p s'
  end.

Fixpoint takeWhile (p : ascii -> bool) (s : string) : string :=
  match s with
  | EmptyString => EmptyString
  | String c s' => if p c then String c (takeWhile p s') else EmptyString
  end.

Fixpoint dropWhile (p : ascii -> bool) (s : string) : string :=
  match s with
  | EmptyString => EmptyString
  | String c s' => if p c then dropWhile p s' else s
  end.

Fixpoint replicate (n : nat) (c : ascii) : string :=
  match n with
  | 0 => EmptyString
  | S n' => String c (replicate n' c)
  end.

(** [flatMap f s]: every character replaced by the string [f] gives. *)
Fixpoint flatMap (f : ascii -> string) (s : string) : string :=
  match s with
  | EmptyString => EmptyString
  | String c s' => f c ++ flatMap f s'
  end.

Fixpoint rev (s : string) : string :=
  match s with
  | EmptyString => EmptyString
  | String c s' => rev s' ++ String c EmptyString
  end.

Definition endsWith (s suffix : string) : Prop :=
  exists pre, s = pre ++ suffix.

Definition isDigit (c : ascii) : bool :=
  let n := N_of_ascii c in ((48 <=? n) && (n <=? 57))%N.

End Str.

(** ** Built-in string operations *)

Module Builtin.

(** [String.prototype.padStart(maxLength, fillString)]: the filler is
    [fillString] repeated and cut to the missing length. *)
Fixpoint fill (fillString cur : string) (n : nat) : string :=
  match n with
  | 0 => EmptyString
  | S n' =>
      match cur with
      | String c cur' => String c (fill fillString cur' n')
      | EmptyString =>
          match fillString with
          | String c cur' => String c (fill fillString cur' n')
          | EmptyString => EmptyString
          end
      end
  end.

Definition padStart (maxLength : nat) (fillString s : string) : string :=
  if (maxLength <=? String.length s)%nat then s
  else if Str.isEmpty fillString then s
  else fill fillString fillString (maxLength - String.length s) ++ s.

(** White space and line terminators, among the code units below 256. *)
Definition isWhiteSpace (c : ascii) : bool :=
  let n := N_of_ascii c in
  (((9 <=? n) && (n <=? 13)) || (n =? 32) || (n =? 160))%N.

(** [String.prototype.trim]. *)
Definition trim (s : string) : string :=
  Str.rev (Str.dropWhile isWhiteSpace (Str.rev (Str.dropWhile isWhiteSpace s))).

(** [encodeURIComponent]: the unreserved characters are kept, every other
    code unit is written as the escaped octets of its UTF-8 encoding. *)
Definition isUnreserved (c : ascii) : bool :=
  let n := N_of_ascii c in
  (((65 <=? n) && (n <=? 90)) || ((97 <=? n) && (n <=? 122))
   || ((48 <=? n) && (n <=? 57))
   || existsb (N.eqb n) [45; 95; 46; 33; 126; 42; 39; 40; 41])%N.

Definition hexDigit (n : N) : ascii :=
  ascii_of_N (if (n <? 10)%N then 48 + n else 55 + n)%N.

Definition percent (octet : N) : string :=
  String "%" (String (hexDigit (octet / 16)) (String (hexDigit (octet mod 16)) EmptyString)).

Definition encodeUnit (c : ascii) : string :=
  let n := N_of_ascii c in
  if isUnreserved c then String c EmptyString
  else if (n <? 128)%N then percent n
  else percent (192 + n / 64) ++ percent (128 + n mod 64).

Definition encodeURIComponent (s : string) : string :=
  Str.flatMap encodeUnit s.

End Builtin.

(** ** Regular expressions

    The fragment of the pattern language the script uses: single-character
    atoms, sequence, the greedy quantifiers [?] and [{n,}] (so also [+]),
    a capturing group and the assertion [^]. Matching is the backtracking
    matcher of ECMAScript, written with continuations. *)

Module RegExp.

Inductive atom : Type :=
| AChar (c : ascii)            (* a pattern character *)
| AClass (cs : list ascii)     (* [...] *)
| ADigit.                      (* \d *)

Inductive regex : Type :=
| RAtom (a : atom)
| RSeq (r1 r2 : regex)
| ROpt (r : regex)                (* r?    *)
| RAtLeast (n : nat) (a : atom)   (* a{n,} *)
| RGroup (r : regex)              (* ( r ) *)
| RBegin.                         (* ^     *)

(** Canonicalize of a code unit without the [u] flag: its upper case, when
    that is one code unit and does not move a unit from above 127 to below
    128. *)
Definition canonicalize (c : ascii) : N :=
  let n := N_of_ascii c in
  (if (97 <=? n) && (n <=? 122) then n - 32
   else if (224 <=? n) && (n <=? 254) && negb (n =? 247) then n - 32
   else if n =? 181 then 924
   else if n =? 255 then 376
   else n)%N.

Definition sameChar (ignoreCase : bool) (p c : ascii) : bool :=
  if ignoreCase then (canonicalize p =? canonicalize c)%N
  else Ascii.eqb p c.

Definition atomSet (a : atom) : list ascii :=
  match a with
  | AChar c => [c]
  | AClass cs => cs
  | ADigit => ["0"; "1"; "2"; "3"; "4"; "5"; "6"; "7"; "8"; "9"]%char
  end.

Definition atomMatches (ignoreCase : bool) (a : atom) (c : ascii) : bool :=
  existsb (fun p => sameChar ignoreCase p c) (atomSet a).

Section Matcher.
Variable ignoreCase : bool.
Context {T : Type}.

(** A continuation receives the end index, the input left and the
    captures closed so far. *)
Definition cont : Type := nat -> string -> list string -> option T.

Fixpoint repeatK (a : atom) (n : nat) (i : nat) (s : string)
         (caps : list string) (k : cont) : option T :=
  match s with
  | String c s' =>
      if atomMatches ignoreCase a c then
        match repeatK a (pred n) (S i) s' caps k with
        | Some r => Some r
        | None => if (n =? 0)%nat then k i s caps else None
        end
      else if (n =? 0)%nat then k i s caps else None
  | EmptyString => if (n =? 0)%nat then k i s caps else None
  end.

Fixpoint matchK (r : regex) (i : nat) (s : string)
         (caps : list string) (k : cont) : option T :=
  match r with
  | RAtom a =>
      match s with
      | String c s' =>
          if atomMatches ignoreCase a c then k (S i) s' caps else None
      | EmptyString => None
      end
  | RSeq r1 r2 =>
      matchK r1 i s caps (fun j s' caps' => matchK r2 j s' caps' k)
  | ROpt r1 =>
      match matchK r1 i s caps k with
      | Some x => Some x
      | None => k i s caps
      end
  | RAtLeast n a => repeatK a n i s caps k
  | RGroup r1 =>
      matchK r1 i s caps
             (fun j s' caps' => k j s' (caps' ++ [substring 0 (j - i) s])%list)
  | RBegin => if (i =? 0)%nat then k i s caps else None
  end.
End Matcher.

Record matchResult : Type := {
  m_index : nat;             (* where the match starts *)
  m_end : nat;               (* where it ends *)
  m_text : string;           (* m[0] *)
  m_captures : list string;  (* m[1], m[2], ... *)
  m_rest : string            (* the input after the match *)
}.

(** A match that starts at index [i], where [s] is the input from [i] on. *)
Definition matchAt (ignoreCase : bool) (r : regex) (i : nat) (s : string)
  : option matchResult :=
  matchK ignoreCase r i s []
         (fun j s' caps =>
            Some {| m_index := i; m_end := j; m_text := substring 0 (j - i) s;
                    m_captures := caps; m_rest := s' |}).

(** The first index from [i] on at which the pattern matches. *)
Fixpoint searchFrom (ignoreCase : bool) (r : regex) (i : nat) (s : string)
  : option matchResult :=
  match matchAt ignoreCase r i s with
  | Some m => Some m
  | None =>
      match s with
      | String _ s' => searchFrom ignoreCase r (S i) s'
      | EmptyString => None
      end
  end.

(** [RegExp.prototype.exec] of a pattern without the [g] and [y] flags:
    the search starts at index 0, whatever [lastIndex] holds. *)
Definition exec (ignoreCase : bool) (r : regex) (s : string)
  : option matchResult :=
  searchFrom ignoreCase r 0 s.

(** [s.replace(r, replacement)] without the [g] flag: the first match is
    replaced. The replacements of the script hold no [$]. *)
Definition replaceFirst (ignoreCase : bool) (r : regex) (replacement s : string)
  : string :=
  match exec ignoreCase r s with
  | Some m => substring 0 (m_index m) s ++ replacement ++ m_rest m
  | None => s
  end.

(** [s.replace(r, replacement)] with the [g] flag: every match, from left
    to right, the search going on after each match ([skip] counts the
    characters of the current match still to pass); after an empty match
    the search moves one character on. *)
Fixpoint replaceGo (ignoreCase : bool) (r : regex) (replacement : string)
         (i skip : nat) (s : string) : string :=
  match skip with
  | S skip' =>
      match s with
      | String _ s' => replaceGo ignoreCase r replacement (S i) skip' s'
      | EmptyString => EmptyString
      end
  | 0 =>
      match matchAt ignoreCase r i s with
      | Some m =>
          replacement ++
          match s with
          | String c s' =>
              if (m_end m =? i)%nat
              then String c (replaceGo ignoreCase r replacement (S i) 0 s')
              else replaceGo ignoreCase r replacement (S i) (m_end m - i - 1) s'
          | EmptyString => EmptyString
          end
      | None =>
          match s with
          | String c s' => String c (replaceGo ignoreCase r replacement (S i) 0 s')
          | EmptyString => EmptyString
          end
      end
  end.

Definition replaceAll (ignoreCase : bool) (r : regex) (replacement s : string)
  : string :=
  replaceGo ignoreCase r replacement 0 0 s.

End RegExp.

(** ** Values *)

#[local] Set Warnings "-register-all".

Inductive value : Type :=
| JUndefined
| JNull
| JBool (b : bool)
| JNumber (x : spec_float)
| JString (s : string)
| JArray (items : list value)
| JObject (fields : list (string * value)).

(** ToBoolean. *)
Definition truthy (v : value) : bool :=
  match v with
  | JUndefined | JNull => false
  | JBool b => b
  | JNumber (S754_zero _) | JNumber S754_nan => false
  | JNumber _ => true
  | JString s => negb (Str.isEmpty s)
  | JArray _ | JObject _ => true
  end.

Definition typeof (v : value) : string :=
  match v with
  | JUndefined => "undefined"
  | JNull => "object"
  | JBool _ => "boolean"
  | JNumber _ => "number"
  | JString _ => "string"
  | JArray _ | JObject _ => "object"
  end.

(** ** extractKbDigits *)

Import RegExp.

(** [/KB[_\-]?(\d{3,})/i] *)
Definition kbPattern : regex :=
  RSeq (RAtom (AChar "K"))
       (RSeq (RAtom (AChar "B"))
             (RSeq (ROpt (RAtom (AClass ["_"; "-"]%char)))
                   (RGroup (RAtLeast 3 ADigit)))).

(** [/^0+/] *)
Definition leadingZeros : regex :=
  RSeq RBegin (RAtLeast 1 (AChar "0")).

Definition extractKbDigits (filename : value) : option string :=
  if negb (truthy filename) || negb (String.eqb (typeof filename) "string")
  then None
  else
    match filename with
    | JString name =>
        match exec true kbPattern name with
        | None => None
        | Some m =>
            let m1 := nth 0 (m_captures m) EmptyString in
            let stripped := replaceFirst false leadingZeros EmptyString m1 in
            let raw := if Str.isEmpty stripped then m1 else stripped in
            Some (Builtin.padStart 9 "0" raw)
        end
    | _ => None
    end.

(** ** escapeHtml *)

Definition dquote : ascii := "034"%char.
Definition apostrophe : ascii := "039"%char.

Definition escapeHtml (unsafe : value) : string :=
  match unsafe with
  | JString s =>
      replaceAll false (RAtom (AChar apostrophe)) "&#039;"
        (replaceAll false (RAtom (AChar dquote)) "&quot;"
           (replaceAll false (RAtom (AChar ">")) "&gt;"
              (replaceAll false (RAtom (AChar "<")) "&lt;"
                 (replaceAll false (RAtom (AChar "&")) "&amp;" s))))
  | _ => EmptyString
  end.

(** ** Exceptions *)

Inductive exn : Type :=
| TypeError (what : string)     (* a property read of undefined or null, or a
                                   value that has no primitive form *)
| Rejected (reason : string).   (* fetch, or the reading of its body, fails *)

Inductive result (A : Type) : Type :=
| Ok (a : A)
| Throw (e : exn).

Arguments Ok {A} a.
Arguments Throw {A} e.

Definition rbind {A B : Type} (m : result A) (f : A -> result B) : result B :=
  match m with
  | Ok a => f a
  | Throw e => Throw e
  end.

Declare Scope result_scope.
Delimit Scope result_scope with result.
Notation "x <- m ;; k" := (rbind m (fun x => k))
  (at level 100, m at next level, right associativity) : result_scope.

(** ** Property reads and the logical operators *)

(** The own properties of an object, as [JSON.parse] built it (one entry a
    key). *)
Fixpoint lookupField (key : string) (fields : list (string * value)) : value :=
  match fields with
  | [] => JUndefined
  | (k, v) :: rest => if String.eqb k key then v else lookupField key rest
  end.

(** [v.key] for the keys the script reads ([source], [title], [file],
    [filename], [error], [detail], [answer], [sources]): none of them is a
    property of the prototype of a boolean, number, string, array or plain
    object. *)
Definition getProp (v : value) (key : string) : result value :=
  match v with
  | JUndefined | JNull => Throw (TypeError key)
  | JObject fields => Ok (lookupField key fields)
  | JBool _ | JNumber _ | JString _ | JArray _ => Ok JUndefined
  end.

(** [a || b] and [a && b]: the right operand is evaluated only when the left
    one does not decide. *)
Definition jsOr (a b : result value) : result value :=
  (x <- a ;; if truthy x then Ok x else b)%result.

Definition jsAnd (a b : result value) : result value :=
  (x <- a ;; if truthy x then b else Ok x)%result.

(** ** The sources block of an answer *)

(** [(s && (s.source || s.title || s.file || s.filename)) || <empty string>] *)
Definition resolveName (s : value) : result value :=
  jsOr (jsAnd (Ok s)
              (jsOr (jsOr (jsOr (getProp s "source") (getProp s "title"))
                          (getProp s "file"))
                    (getProp s "filename")))
       (Ok (JString EmptyString)).

(** A number is its binary64 datum in canonical form. *)
Definition sameNumber (x y : spec_float) : bool :=
  match x, y with
  | S754_zero _, S754_zero _ => true
  | S754_nan, S754_nan => true
  | S754_infinity a, S754_infinity b => Bool.eqb a b
  | S754_finite a m e, S754_finite b m' e' =>
      Bool.eqb a b && Pos.eqb m m' && Z.eqb e e'
  | _, _ => false
  end.

(** SameValueZero, the equality of [Set], between two values that come from
    different places of one parsed document: two objects or arrays are then
    never the same reference. *)
Definition sameValueZero (x y : value) : bool :=
  match x, y with
  | JUndefined, JUndefined => true
  | JNull, JNull => true
  | JBool a, JBool b => Bool.eqb a b
  | JNumber a, JNumber b => sameNumber a b
  | JString a, JString b => String.eqb a b
  | _, _ => false
  end.

(** A [Set] keeps its elements in insertion order. *)
Definition setHas (seen : list value) (x : value) : bool :=
  existsb (sameValueZero x) seen.

Definition setAdd (seen : list value) (x : value) : list value :=
  if setHas seen x then seen else (seen ++ [x])%list.

(** The body of [data.sources.forEach], on the pair of [seen] and [names]. *)
Definition collectStep (acc : list value * list value) (s : value)
  : result (list value * list value) :=
  let (seen, names) := acc in
  (rawName <- resolveName s ;;
   if negb (setHas seen rawName)
   then Ok (setAdd seen rawName, (names ++ [rawName])%list)
   else Ok (seen, names))%result.

Fixpoint forEach {A S : Type} (body : S -> A -> result S) (items : list A) (acc : S)
  : result S :=
  match items with
  | [] => Ok acc
  | x :: rest => (acc' <- body acc x ;; forEach body rest acc')%result
  end.

Definition collectNames (sources : list value) : result (list value) :=
  (acc <- forEach collectStep sources ([], []) ;; Ok (snd acc))%result.

Definition viewBase : string :=
  "https://resource.digital.thermofisher.com/kb/article.aspx?n=".

Definition downloadBase : string := "/download_kb?kb=".

(** What the body of [names.forEach] binds for one name: [nm], [padded],
    [externalUrl] and [downloadUrl], the two links only in the branch taken
    when [padded] is truthy. *)
Record AnnotatedSource : Type := {
  displayName : value;
  kbId : option string;
  viewUrl : option string;
  downloadUrl : option string
}.

Definition optTruthy (o : option string) : bool :=
  match o with
  | Some s => negb (Str.isEmpty s)
  | None => false
  end.

Definition annotateName (nm : value) : AnnotatedSource :=
  let padded := extractKbDigits nm in
  match padded with
  | Some id =>
      if optTruthy padded then
        {| displayName := nm; kbId := padded;
           viewUrl := Some (viewBase ++ Builtin.encodeURIComponent id);
           downloadUrl := Some (downloadBase ++ Builtin.encodeURIComponent id) |}
      else {| displayName := nm; kbId := padded; viewUrl := None; downloadUrl := None |}
  | None => {| displayName := nm; kbId := None; viewUrl := None; downloadUrl := None |}
  end.

(** The sequence of annotated sources of an answer: the names collected from
    [data.sources], each with what the rendering loop derives from it. *)
Definition annotate (sources : list value) : result (list AnnotatedSource) :=
  (names <- collectNames sources ;; Ok (map annotateName names))%result.

Definition nl : string := String "010"%char EmptyString.
Definition dq : string := String dquote EmptyString.

Fixpoint spaces (n : nat) : string :=
  match n with
  | 0 => EmptyString
  | S n' => String " " (spaces n')
  end.

(** The text of the download link, a down arrow, written as the octets of
    its UTF-8 form. *)
Definition downloadIcon : string := "⬇️".

Definition linkAttrs : string :=
  " target=" ++ dq ++ "_blank" ++ dq ++ " rel=" ++ dq ++ "noopener noreferrer" ++ dq.

(** The markup of the branch taken for a name with a KB number. *)
Definition kbItemHtml (externalUrl downloadUrl : string) (safeText : value) : string :=
  "<div class='source-item'>" ++ nl ++ spaces 18
  ++ "- <a class=" ++ dq ++ "kb-link" ++ dq ++ " href=" ++ dq ++ externalUrl ++ dq
  ++ linkAttrs ++ ">" ++ escapeHtml safeText ++ "</a>" ++ nl ++ spaces 18
  ++ "&nbsp;" ++ nl ++ spaces 18
  ++ "<a class=" ++ dq ++ "kb-download" ++ dq ++ " href=" ++ dq ++ downloadUrl ++ dq
  ++ linkAttrs ++ " title=" ++ dq ++ "Download PDF" ++ dq
  ++ " aria-label=" ++ dq ++ "Download PDF" ++ dq ++ ">" ++ downloadIcon ++ "</a>"
  ++ nl ++ spaces 16 ++ "</div>".

(** The markup of the other branch. *)
Definition plainItemHtml (nm : value) : string :=
  "<div class='source-item'>- <em>"
  ++ escapeHtml (if truthy nm then nm else JString "unknown")
  ++ "</em></div>".

(** The body of [names.forEach]: what one name adds to [metaHtml]. *)
Definition renderName (nm : value) : string :=
  let padded := extractKbDigits nm in
  match padded with
  | Some id =>
      if optTruthy padded then
        let externalUrl := viewBase ++ Builtin.encodeURIComponent id in
        let downloadUrl := downloadBase ++ Builtin.encodeURIComponent id in
        let safeText := if truthy nm then nm else JString "KB Article" in
        kbItemHtml externalUrl downloadUrl safeText
      else plainItemHtml nm
  | None => plainItemHtml nm
  end.

(** The same markup, from the annotated source. *)
Definition itemHtml (a : AnnotatedSource) : string :=
  match viewUrl a, downloadUrl a with
  | Some externalUrl, Some downloadUrl =>
      kbItemHtml externalUrl downloadUrl
                 (if truthy (displayName a) then displayName a else JString "KB Article")
  | _, _ => plainItemHtml (displayName a)
  end.

Definition noSources : string := "<div class='small'>No sources returned.</div>".

(** [metaHtml], from [data]. *)
Definition sourcesHtml (data : value) : result string :=
  (sources <- getProp data "sources" ;;
   match sources with
   | JArray items =>
       if (0 <? List.length items)%nat then
         names <- collectNames items ;;
         if (0 <? List.length names)%nat then
           Ok ("<div class='sources'><strong>Sources:</strong><br/>"
               ++ String.concat EmptyString (map renderName names) ++ "</div>")
         else Ok EmptyString
       else Ok noSources
   | _ => Ok noSources
   end)%result.

(** ** Conversion to a string

    [ToString] of a value of a parsed document, as far as its completion
    goes. An object is converted by the first of its [toString] and
    [valueOf] (or [valueOf] and [toString], for the operand of [+]) that is
    a function and returns a primitive. [Object.prototype.valueOf] returns
    the object itself and a property of a parsed object is never a function:
    so an object with an own [toString] has no primitive form and the
    conversion throws a [TypeError], and every other object is converted by
    [Object.prototype.toString]. An array is converted by
    [Array.prototype.join], which converts each element that is not
    [undefined] or [null]. *)

Definition hasOwn (key : string) (fields : list (string * value)) : bool :=
  existsb (fun field => String.eqb (fst field) key) fields.

Fixpoint convertsToString (v : value) : bool :=
  match v with
  | JObject fields => negb (hasOwn "toString" fields)
  | JArray items => forallb convertsToString items
  | _ => true
  end.

Definition noPrimitive : exn := TypeError "Cannot convert object to primitive value".

(** ** The page and one [sendQuestion] turn *)

(** The text given to [pushMessage]: a string, written as what it is made
    from, or a value of the answer, still to be converted. *)
Inductive text : Type :=
| TLit (s : string)
| TValue (v : value)
| TConcat (s : string) (v : value)    (* s + v *)
| TError (s : string) (e : exn).      (* s + String(err) *)

(** [s + v], for a string [s]. *)
Definition concatText (s : string) (v : value) : result text :=
  if convertsToString v then Ok (TConcat s v) else Throw noPrimitive.

(** What [bubble.innerText = text] makes of [text]. *)
Definition innerText (t : text) : result text :=
  match t with
  | TValue v => if convertsToString v then Ok t else Throw noPrimitive
  | TLit _ | TConcat _ _ | TError _ _ => Ok t
  end.

Record message : Type := {
  className : string;
  bubble : text;
  metaEl : option string
}.

Record session : Type := {
  chat_history : list (string * value);
  chat : list message;                       (* the children of chatEl *)
  requests : list (string * list (string * value));  (* the bodies posted to /api/query *)
  questionValue : string;
  questionDisabled : bool;
  sendDisabled : bool;
  questionFocused : bool
}.

(** What awaiting [fetch] and then [resp.json()] gives. *)
Inductive response : Type :=
| Fails (e : exn)
| Resolves (data : value).

(** Statements of the script: a state change and a normal or abrupt
    completion. *)
Definition M (A : Type) : Type := session -> session * result A.

Definition ret {A : Type} (a : A) : M A := fun st => (st, Ok a).

Definition bind {A B : Type} (m : M A) (f : A -> M B) : M B :=
  fun st =>
    match m st with
    | (st', Ok a) => f a st'
    | (st', Throw e) => (st', Throw e)
    end.

Definition lift {A : Type} (r : result A) : M A := fun st => (st, r).

Definition gets {A : Type} (f : session -> A) : M A := fun st => (st, Ok (f st)).

Definition modify (f : session -> session) : M unit := fun st => (f st, Ok tt).

(** [try { body } catch (err) { handler } finally { cleanup }] *)
Definition tryCatchFinally (body : M unit) (handler : exn -> M unit) (cleanup : M unit)
  : M unit :=
  fun st =>
    let (st1, r1) := match body st with
                     | (st', Ok tt) => (st', Ok tt)
                     | (st', Throw e) => handler e st'
                     end in
    match cleanup st1 with
    | (st2, Ok tt) => (st2, r1)
    | (st2, Throw e) => (st2, Throw e)
    end.

Declare Scope script_scope.
Delimit Scope script_scope with script.
Notation "x <- m ;; k" := (bind m (fun x => k))
  (at level 100, m at next level, right associativity) : script_scope.
Notation "m ;;; k" := (bind m (fun _ => k))
  (at level 100, right associativity) : script_scope.

Definition withChat (f : list message -> list message) (st : session) : session :=
  {| chat_history := chat_history st; chat := f (chat st); requests := requests st;
     questionValue := questionValue st; questionDisabled := questionDisabled st;
     sendDisabled := sendDisabled st; questionFocused := questionFocused st |}.

Definition withHistory (f : list (string * value) -> list (string * value))
           (st : session) : session :=
  {| chat_history := f (chat_history st); chat := chat st; requests := requests st;
     questionValue := questionValue st; questionDisabled := questionDisabled st;
     sendDisabled := sendDisabled st; questionFocused := questionFocused st |}.

Definition withRequest (q : string) (st : session) : session :=
  {| chat_history := chat_history st; chat := chat st;
     requests := (requests st ++ [(q, chat_history st)])%list;
     questionValue := questionValue st; questionDisabled := questionDisabled st;
     sendDisabled := sendDisabled st; questionFocused := questionFocused st |}.

Definition withQuestionValue (v : string) (st : session) : session :=
  {| chat_history := chat_history st; chat := chat st; requests := requests st;
     questionValue := v; questionDisabled := questionDisabled st;
     sendDisabled := sendDisabled st; questionFocused := questionFocused st |}.

Definition withDisabled (b : bool) (st : session) : session :=
  {| chat_history := chat_history st; chat := chat st; requests := requests st;
     questionValue := questionValue st; questionDisabled := b;
     sendDisabled := b; questionFocused := questionFocused st |}.

Definition withFocus (st : session) : session :=
  {| chat_history := chat_history st; chat := chat st; requests := requests st;
     questionValue := questionValue st; questionDisabled := questionDisabled st;
     sendDisabled := sendDisabled st; questionFocused := true |}.

(** [pushMessage]: the wrapper is put under [chatEl] in the end, so nothing
    of it is on the page when the text of the bubble cannot be set. *)
Definition pushMessage (role : string) (t : text) (meta : option string) : M unit :=
  (shown <- lift (innerText t) ;;
   modify (withChat (fun children =>
     (children ++
      [ {| className := "msg " ++ (if String.eqb role "user" then "user" else "assistant");
           bubble := shown;
           metaEl := if optTruthy meta then meta else None |} ])%list)))%script.

Definition await (r : response) : M value :=
  match r with
  | Fails e => lift (Throw e)
  | Resolves data => ret data
  end.

(** The dash of this text is written as the octets of its UTF-8 form. *)
Definition defaultAnswer : string := "I don't know — not in the documents.".

(** [sendQuestion], with the answer of the backend to the request it posts. *)
Definition sendQuestion (resp : response) : M unit :=
  (q <- gets (fun st => Builtin.trim (questionValue st)) ;;
   if Str.isEmpty q then ret tt
   else
     pushMessage "user" (TLit q) None ;;;
     modify (withQuestionValue EmptyString) ;;;
     modify (withDisabled true) ;;;
     tryCatchFinally
       (modify (withRequest q) ;;;
        data <- await resp ;;
        err <- lift (getProp data "error") ;;
        if truthy err then
          reported <- lift (jsOr (getProp data "detail") (getProp data "error")) ;;
          errorText <- lift (concatText "Error: " reported) ;;
          pushMessage "assistant" errorText None
        else
          answer <- lift (jsOr (getProp data "answer") (Ok (JString defaultAnswer))) ;;
          metaHtml <- lift (sourcesHtml data) ;;
          pushMessage "assistant" (TValue answer) (Some metaHtml) ;;;
          modify (withHistory (fun h => (h ++ [(q, answer)])%list)))
       (fun err => pushMessage "assistant" (TError "Error calling backend: " err) None)
       (modify (withDisabled false) ;;; modify withFocus))%script.

(** ** Notions of the specification *)

Module Spec.

(** An occurrence of the KB pattern at the start of [s], with digits
    [run]: [KB] in either case, at most one separator, three digits or
    more. *)
Definition kbMatchAt (s run : string) : Prop :=
  exists k b sep rest,
    s = String k (String b (sep ++ run ++ rest))
    /\ (k = "K" \/ k = "k")%char
    /\ (b = "B" \/ b = "b")%char
    /\ (sep = EmptyString \/ sep = "_" \/ sep = "-")
    /\ Str.all Str.isDigit run = true
    /\ 3 <= String.length run.

Definition kbOccurs (name : string) : Prop :=
  exists pre s run, name = pre ++ s /\ kbMatchAt s run.

(** The digit run of the first match: the leftmost occurrence, with all
    the digits that follow. *)
Definition firstKbRun (name run : string) : Prop :=
  exists pre s,
    name = pre ++ s
    /\ kbMatchAt s run
    /\ (forall run', kbMatchAt s run' -> String.length run' <= String.length run)
    /\ (forall pre' s' run',
           name = pre' ++ s' -> kbMatchAt s' run' ->
           String.length pre <= String.length pre').

Definition isZero (c : ascii) : bool := Ascii.eqb c "0".

(** Leading zeros stripped, a run of zeros only kept as it is. *)
Definition stripLeadingZeros (run : string) : string :=
  if Str.all isZero run then run else Str.dropWhile isZero run.

(** Zeros on the left up to 9 characters, nothing cut. *)
Definition zeroPad9 (s : string) : string :=
  Str.replicate (9 - String.length s) "0" ++ s.

(** The entity of a character, or the character. *)
Definition entity (c : ascii) : string :=
  if Ascii.eqb c "&" then "&amp;"
  else if Ascii.eqb c "<" then "&lt;"
  else if Ascii.eqb c ">" then "&gt;"
  else if Ascii.eqb c dquote then "&quot;"
  else if Ascii.eqb c apostrophe then "&#039;"
  else String c EmptyString.

Definition nameKeys : list string := ["source"; "title"; "file"; "filename"].

(** A value that is there and is not null. *)
Definition present (v : value) : bool :=
  match v with
  | JUndefined | JNull => false
  | _ => true
  end.

(** The display name as the specification words it: the value of the first
    of the four keys that is present and not null, the empty string when
    there is none. *)
Definition firstPresent (fields : list (string * value)) : value :=
  match find present (map (fun k => lookupField k fields) nameKeys) with
  | Some v => v
  | None => JString EmptyString
  end.

(** The display name as the script resolves it: the first truthy value. *)
Definition firstTruthy (fields : list (string * value)) : value :=
  match find truthy (map (fun k => lookupField k fields) nameKeys) with
  | Some v => v
  | None => JString EmptyString
  end.

(** [names] at index [i] is not the same as any name before it. *)
Definition isFirstOccurrence (names : list value) (i : nat) : bool :=
  negb (existsb (fun earlier => sameValueZero (nth i names JUndefined) earlier)
                (firstn i names)).

(** The names at their first occurrences, in the order of the input. *)
Definition firstOccurrences (names : list value) : list value :=
  map (fun i => nth i names JUndefined)
      (filter (isFirstOccurrence names) (seq 0 (List.length names))).

End Spec.

(** ** Functions used in the proofs *)

Module Aux.

Definition isK (c : ascii) : bool := Ascii.eqb c "K" || Ascii.eqb c "k".
Definition isB (c : ascii) : bool := Ascii.eqb c "B" || Ascii.eqb c "b".
Definition isSep (c : ascii) : bool := Ascii.eqb c "_" || Ascii.eqb c "-".

(** The input after [KB], with the separator passed when there is one. *)
Definition afterSep (t : string) : string :=
  match t with
  | String c t' => if isSep c then t' else t
  | EmptyString => t
  end.

(** The digits captured by a match of the KB pattern at the start of [s]. *)
Definition kbRunAt (s : string) : option string :=
  match s with
  | String k (String b t) =>
      if isK k && isB b then
        let run := Str.takeWhile Str.isDigit (afterSep t) in
        if 3 <=? String.length run then Some run else None
      else None
  | _ => None
  end.

Fixpoint kbSearch (s : string) : option string :=
  match kbRunAt s with
  | Some run => Some run
  | None =>
      match s with
      | String _ s' => kbSearch s'
      | EmptyString => None
      end
  end.

End Aux.

(** The names kept from [names], [earlier] being the names passed before
    them. *)
Fixpoint keepNew (earlier names : list value) : list value :=
  match names with
  | [] => []
  | x :: rest =>
      if setHas earlier x then keepNew (earlier ++ [x]) rest
      else x :: keepNew (earlier ++ [x]) rest
  end.

(** A value that is not an object or an array: [Set] compares it by what it
    is, not by reference. *)
Definition isPrimitive (v : value) : bool :=
  match v with
  | JArray _ | JObject _ => false
  | _ => true
  end.

(** One character replaced by a string, the others kept. *)
Definition substChar (p : ascii) (replacement : string) (c : ascii) : string :=
  if Ascii.eqb p c then replacement else String c EmptyString.

(** The characters that open or close markup or an attribute value. *)
Definition isMarkup (c : ascii) : bool :=
  existsb (Ascii.eqb c) ["<"; ">"; dquote; apostrophe]%char.

(** The block of sources, from the annotated sources. *)
Definition sourcesBlock (out : list AnnotatedSource) : string :=
  "<div class='sources'><strong>Sources:</strong><br/>"
  ++ String.concat EmptyString (map itemHtml out) ++ "</div>".

Definition userMessage (q : string) : message :=
  {| className := "msg user"; bubble := TLit q; metaEl := None |}.

Definition answerMessage (answer : value) (html : string) : message :=
  {| className := "msg assistant"; bubble := TValue answer;
     metaEl := if Str.isEmpty html then None else Some html |}.

(** The message of the [catch] branch of a turn. *)
Definition failureMessage (e : exn) : message :=
  {| className := "msg assistant"; bubble := TError "Error calling backend: " e;
     metaEl := None |}.

(** The page after a turn with question [q] that showed [m] and recorded
    [added]. *)
Definition afterTurn (q : string) (m : message) (added : list (string * value))
           (st : session) : session :=
  {| chat_history := (chat_history st ++ added)%list;
     chat := (chat st ++ [userMessage q; m])%list;
     requests := (requests st ++ [(q, chat_history st)])%list;
     questionValue := EmptyString;
     questionDisabled := false;
     sendDisabled := false;
     questionFocused := true |}.

(** ** Sample data *)

(** The number 42. *)
Definition number42 : spec_float := S754_finite false 5910974510923776 (-47).

Definition emptySourceRecord : list (string * value) :=
  [("source", JString EmptyString); ("title", JString "Guide.pdf")].

Definition titleRecord : list (string * value) :=
  [("title", JString "Guide.pdf"); ("page", JNumber number42)].

Definition numberedRecord : value := JObject [("source", JNumber number42)].

Definition recordA : value := JObject [("source", JString "A")].
Definition recordA' : value := JObject [("title", JString "A"); ("page", JNumber number42)].
Definition recordB : value := JObject [("file", JString "B")].

Definition nullNameRecord : list (string * value) :=
  [("source", JNull); ("title", JString EmptyString); ("file", JNumber (S754_zero false))].

Definition sampleSources : list value :=
  [JObject [("source", JString "KB_000123456.pdf")];
   JObject [("title", JString "KB_000123456.pdf")];
   JObject [("file", JString "manual.pdf")]].

Definition kbSource : AnnotatedSource :=
  {| displayName := JString "KB_000123456.pdf";
     kbId := Some "000123456";
     viewUrl := Some "https://resource.digital.thermofisher.com/kb/article.aspx?n=000123456";
     downloadUrl := Some "/download_kb?kb=000123456" |}.

Definition manualSource : AnnotatedSource :=
  {| displayName := JString "manual.pdf";
     kbId := None; viewUrl := None; downloadUrl := None |}.

Definition askedSession : session :=
  {| chat_history := []; chat := []; requests := [];
     questionValue := "  How do I export a sequence? ";
     questionDisabled := false; sendDisabled := false; questionFocused := true |}.

Definition answered : value :=
  JObject [("answer", JString "Use File > Export."); ("sources", JArray sampleSources)].

(** An answer whose [error] is there, and is the empty string. *)
Definition emptyErrorFields : list (string * value) :=
  [("error", JString EmptyString); ("answer", JString "x")].

(** An answer whose [answer] has no string form. *)
Definition unshownFields : list (string * value) :=
  [("answer", JObject [("toString", JNumber (S754_zero false))])].

Definition unshownAnswer : value := JObject unshownFields.

(** * The rest of the page *)

(** ** Handlers over a state

    The statements of a handler, over the state of the elements it touches:
    a state change and a normal or abrupt completion. *)

Module Handler.

Section Run.
Context {S : Type}.

Definition run (A : Type) : Type := S -> S * result A.

Definition ret {A : Type} (a : A) : run A := fun st => (st, Ok a).

Definition bind {A B : Type} (m : run A) (f : A -> run B) : run B :=
  fun st =>
    match m st with
    | (st', Ok a) => f a st'
    | (st', Throw e) => (st', Throw e)
    end.

Definition lift {A : Type} (r : result A) : run A := fun st => (st, r).

Definition gets {A : Type} (f : S -> A) : run A := fun st => (st, Ok (f st)).

Definition modify (f : S -> S) : run unit := fun st => (f st, Ok tt).

(** [try { body } catch (err) { handler } finally { cleanup }] *)
Definition tryCatchFinally (body : run unit) (handler : exn -> run unit)
           (cleanup : run unit) : run unit :=
  fun st =>
    let (st1, r1) := match body st with
                     | (st', Ok tt) => (st', Ok tt)
                     | (st', Throw e) => handler e st'
                     end in
    match cleanup st1 with
    | (st2, Ok tt) => (st2, r1)
    | (st2, Throw e) => (st2, Throw e)
    end.

End Run.

End Handler.

Declare Scope handler_scope.
Delimit Scope handler_scope with handler.
Notation "x <- m ;; k" := (Handler.bind m (fun x => k))
  (at level 100, m at next level, right associativity) : handler_scope.
Notation "m ;;; k" := (Handler.bind m (fun _ => k))
  (at level 100, right associativity) : handler_scope.

(** ** The objects a call makes

    [extractKbDigits] and the building of the sources make objects that
    have a state of their own: two regular expressions (with [lastIndex]),
    a [Set] and an array. Here the two run on a heap that holds such
    objects, an object being known by its place in the heap. The heap holds
    whatever else the page has made, the arrays [chat_history] and
    [selectedFiles] among it. *)

Module Objects.

Record regExp : Type := {
  pattern : regex;
  ignoreCase : bool;    (* the flag [i] *)
  global : bool;        (* the flag [g] *)
  lastIndex : nat
}.

Inductive object : Type :=
| ORegExp (r : regExp)
| OSet (elements : list value)
| OArray (items : list value).

Definition heap : Type := list object.

Definition run (A : Type) : Type := @Handler.run heap A.

Definition alloc (o : object) : run nat :=
  fun h => ((h ++ [o])%list, Ok (List.length h)).

Fixpoint update (place : nat) (f : object -> object) (h : heap) : heap :=
  match h with
  | [] => []
  | o :: rest =>
      match place with
      | 0 => f o :: rest
      | S place' => o :: update place' f rest
      end
  end.

(** A literal [/pattern/flags]: each evaluation makes a new object, with
    [lastIndex] 0. *)
Definition regExpLiteral (r : regex) (i g : bool) : run nat :=
  alloc (ORegExp {| pattern := r; ignoreCase := i; global := g; lastIndex := 0 |}).

Definition theRegExp (re : nat) : run regExp :=
  fun h =>
    match nth_error h re with
    | Some (ORegExp x) => (h, Ok x)
    | _ => (h, Throw (TypeError "not a regular expression"))
    end.

Definition setLastIndex (re i : nat) : run unit :=
  Handler.modify
    (update re (fun o =>
       match o with
       | ORegExp x => ORegExp {| pattern := pattern x; ignoreCase := ignoreCase x;
                                 global := global x; lastIndex := i |}
       | _ => o
       end)).

(** The input from index [i] on. *)
Fixpoint from (i : nat) (s : string) : string :=
  match i with
  | 0 => s
  | S i' =>
      match s with
      | String _ s' => from i' s'
      | EmptyString => EmptyString
      end
  end.

(** RegExpBuiltinExec, for a regular expression without the [y] flag: the
    search starts at [lastIndex] with the [g] flag and at 0 without it, and
    [lastIndex] is written with the [g] flag only. *)
Definition regExpBuiltinExec (re : nat) (s : string) : run (option matchResult) :=
  (x <- theRegExp re ;;
   let start := if global x then lastIndex x else 0 in
   let found := if String.length s <? start then None
                else searchFrom (ignoreCase x) (pattern x) start (from start s) in
   (if global x
    then setLastIndex re (match found with Some m => m_end m | None => 0 end)
    else Handler.ret tt) ;;;
   Handler.ret found)%handler.

(** [s.match(re)], for a regular expression without the [g] flag. *)
Definition stringMatch (s : string) (re : nat) : run (option matchResult) :=
  regExpBuiltinExec re s.

(** [s.replace(re, replacement)], for a regular expression without the [g]
    flag and a replacement that holds no [$]. *)
Definition stringReplace (s : string) (re : nat) (replacement : string) : run string :=
  (found <- regExpBuiltinExec re s ;;
   Handler.ret match found with
               | Some m => substring 0 (m_index m) s ++ replacement ++ m_rest m
               | None => s
               end)%handler.

Definition extractKbDigits (filename : value) : run (option string) :=
  (if negb (truthy filename) || negb (String.eqb (typeof filename) "string")
   then Handler.ret None
   else
     match filename with
     | JString name =>
         kb <- regExpLiteral kbPattern true false ;;
         found <- stringMatch name kb ;;
         match found with
         | None => Handler.ret None
         | Some m =>
             let m1 := nth 0 (m_captures m) EmptyString in
             zeros <- regExpLiteral leadingZeros false false ;;
             stripped <- stringReplace m1 zeros EmptyString ;;
             let raw := if Str.isEmpty stripped then m1 else stripped in
             Handler.ret (Some (Builtin.padStart 9 "0" raw))
         end
     | _ => Handler.ret None
     end)%handler.

(** [new Set()], [seen.has(x)] and [seen.add(x)]. *)
Definition newSet : run nat := alloc (OSet []).

Definition has (set : nat) (x : value) : run bool :=
  fun h =>
    match nth_error h set with
    | Some (OSet elements) => (h, Ok (setHas elements x))
    | _ => (h, Throw (TypeError "not a Set"))
    end.

Definition add (set : nat) (x : value) : run unit :=
  Handler.modify
    (update set (fun o =>
       match o with
       | OSet elements => OSet (setAdd elements x)
       | _ => o
       end)).

(** [[]], [names.push(x)] and the reading of the items. *)
Definition newArray : run nat := alloc (OArray []).

Definition push (array : nat) (x : value) : run unit :=
  Handler.modify
    (update array (fun o =>
       match o with
       | OArray items => OArray (items ++ [x])%list
       | _ => o
       end)).

Definition itemsOf (array : nat) : run (list value) :=
  fun h =>
    match nth_error h array with
    | Some (OArray items) => (h, Ok items)
    | _ => (h, Throw (TypeError "not an array"))
    end.

Fixpoint forEach {A : Type} (body : A -> run unit) (items : list A) : run unit :=
  match items with
  | [] => Handler.ret tt
  | x :: rest => (body x ;;; forEach body rest)%handler
  end.

(** The first loop of the sources: [seen], [names] and
    [data.sources.forEach]. It gives the array [names]. *)
Definition collectNames (sources : list value) : run nat :=
  (seen <- newSet ;;
   names <- newArray ;;
   forEach (fun s =>
              rawName <- Handler.lift (resolveName s) ;;
              known <- has seen rawName ;;
              if negb known
              then add seen rawName ;;; push names rawName
              else Handler.ret tt)
           sources ;;;
   Handler.ret names)%handler.

(** What the body of [names.forEach] binds for one name. *)
Definition annotateName (nm : value) : run AnnotatedSource :=
  (padded <- extractKbDigits nm ;;
   Handler.ret
     match padded with
     | Some id =>
         if optTruthy padded then
           {| displayName := nm; kbId := padded;
              viewUrl := Some (viewBase ++ Builtin.encodeURIComponent id);
              downloadUrl := Some (downloadBase ++ Builtin.encodeURIComponent id) |}
         else {| displayName := nm; kbId := padded; viewUrl := None; downloadUrl := None |}
     | None => {| displayName := nm; kbId := None; viewUrl := None; downloadUrl := None |}
     end)%handler.

Fixpoint mapEach {A B : Type} (body : A -> run B) (items : list A) : run (list B) :=
  match items with
  | [] => Handler.ret []
  | x :: rest =>
      (y <- body x ;; ys <- mapEach body rest ;; Handler.ret (y :: ys))%handler
  end.

Definition annotate (sources : list value) : run (list AnnotatedSource) :=
  (names <- collectNames sources ;;
   items <- itemsOf names ;;
   mapEach annotateName items)%handler.

(** Calls of the two, in some order. *)
Inductive call : Type :=
| CallExtractKbDigits (filename : value)
| CallAnnotate (sources : list value).

Inductive outcome : Type :=
| Extracted (r : result (option string))
| Annotated (r : result (list AnnotatedSource)).

Definition perform (c : call) (h : heap) : heap * outcome :=
  match c with
  | CallExtractKbDigits filename =>
      let (h', r) := extractKbDigits filename h in (h', Extracted r)
  | CallAnnotate sources =>
      let (h', r) := annotate sources h in (h', Annotated r)
  end.

Fixpoint performAll (cs : list call) (h : heap) : heap :=
  match cs with
  | [] => h
  | c :: rest => performAll rest (fst (perform c h))
  end.

End Objects.

(** ** The file chips, the popover and the upload *)

(** A file of the chooser: its name and what it holds. *)
Record file : Type := {
  fileName : string;
  fileData : string
}.

Record chip : Type := {
  chipClass : string;
  chipTitle : string;
  chipText : string
}.

(** [fileChips]: [style.display] and the children. *)
Record chipsView : Type := {
  chipsDisplay : string;
  chipsChildren : list chip
}.

(** [uploadPop]: whether its class list has [show], and [aria-hidden]. *)
Record popover : Type := {
  popShown : bool;
  popAriaHidden : string
}.

(** A button: [disabled] and [innerText]. *)
Record button : Type := {
  btnDisabled : bool;
  btnLabel : string
}.

(** [uploadResult]: [style.display] and [innerText]. *)
Record resultView : Type := {
  resultDisplay : string;
  resultText : string
}.

Record panel : Type := {
  selectedFiles : list file;
  realFileInputValue : string;
  fileChips : chipsView;
  uploadPop : popover;
  uploadNow : button;
  uploadResult : resultView;
  uploads : list (list file);     (* the files of the forms posted to /upload *)
  alerts : list string
}.

Definition withSelected (files : list file) (p : panel) : panel :=
  {| selectedFiles := files; realFileInputValue := realFileInputValue p;
     fileChips := fileChips p; uploadPop := uploadPop p; uploadNow := uploadNow p;
     uploadResult := uploadResult p; uploads := uploads p; alerts := alerts p |}.

Definition withInputValue (v : string) (p : panel) : panel :=
  {| selectedFiles := selectedFiles p; realFileInputValue := v;
     fileChips := fileChips p; uploadPop := uploadPop p; uploadNow := uploadNow p;
     uploadResult := uploadResult p; uploads := uploads p; alerts := alerts p |}.

Definition withChips (f : chipsView -> chipsView) (p : panel) : panel :=
  {| selectedFiles := selectedFiles p; realFileInputValue := realFileInputValue p;
     fileChips := f (fileChips p); uploadPop := uploadPop p; uploadNow := uploadNow p;
     uploadResult := uploadResult p; uploads := uploads p; alerts := alerts p |}.

Definition withPop (f : popover -> popover) (p : panel) : panel :=
  {| selectedFiles := selectedFiles p; realFileInputValue := realFileInputValue p;
     fileChips := fileChips p; uploadPop := f (uploadPop p); uploadNow := uploadNow p;
     uploadResult := uploadResult p; uploads := uploads p; alerts := alerts p |}.

Definition withUploadNow (f : button -> button) (p : panel) : panel :=
  {| selectedFiles := selectedFiles p; realFileInputValue := realFileInputValue p;
     fileChips := fileChips p; uploadPop := uploadPop p; uploadNow := f (uploadNow p);
     uploadResult := uploadResult p; uploads := uploads p; alerts := alerts p |}.

Definition withResult (f : resultView -> resultView) (p : panel) : panel :=
  {| selectedFiles := selectedFiles p; realFileInputValue := realFileInputValue p;
     fileChips := fileChips p; uploadPop := uploadPop p; uploadNow := uploadNow p;
     uploadResult := f (uploadResult p); uploads := uploads p; alerts := alerts p |}.

Definition withUpload (files : list file) (p : panel) : panel :=
  {| selectedFiles := selectedFiles p; realFileInputValue := realFileInputValue p;
     fileChips := fileChips p; uploadPop := uploadPop p; uploadNow := uploadNow p;
     uploadResult := uploadResult p; uploads := (uploads p ++ [files])%list;
     alerts := alerts p |}.

Definition withAlert (message : string) (p : panel) : panel :=
  {| selectedFiles := selectedFiles p; realFileInputValue := realFileInputValue p;
     fileChips := fileChips p; uploadPop := uploadPop p; uploadNow := uploadNow p;
     uploadResult := uploadResult p; uploads := uploads p;
     alerts := (alerts p ++ [message])%list |}.

Definition setDisabled (b : bool) (btn : button) : button :=
  {| btnDisabled := b; btnLabel := btnLabel btn |}.

Definition setLabel (t : string) (btn : button) : button :=
  {| btnDisabled := btnDisabled btn; btnLabel := t |}.

Definition setShown (b : bool) (pop : popover) : popover :=
  {| popShown := b; popAriaHidden := popAriaHidden pop |}.

Definition setAriaHidden (v : string) (pop : popover) : popover :=
  {| popShown := popShown pop; popAriaHidden := v |}.

Definition setResultDisplay (d : string) (r : resultView) : resultView :=
  {| resultDisplay := d; resultText := resultText r |}.

Definition setResultText (t : string) (r : resultView) : resultView :=
  {| resultDisplay := resultDisplay r; resultText := t |}.

(** The chip of one file, as the body of [selectedFiles.forEach] makes it. *)
Definition chipOf (f : file) : chip :=
  {| chipClass := "chip";
     chipTitle := fileName f;
     chipText := if 20 <? String.length (fileName f)
                 then substring 0 18 (fileName f) ++ "..."
                 else fileName f |}.

(** [renderChips]. [selectedFiles] is always an array, so only its length
    decides the first test. *)
Definition renderChips (p : panel) : panel :=
  let cleared := withChips (fun v => {| chipsDisplay := chipsDisplay v;
                                        chipsChildren := [] |}) p in
  if List.length (selectedFiles cleared) =? 0 then
    withChips (fun v => {| chipsDisplay := "none";
                           chipsChildren := chipsChildren v |}) cleared
  else
    fold_left
      (fun q f => withChips (fun v => {| chipsDisplay := chipsDisplay v;
                                         chipsChildren := (chipsChildren v ++ [chipOf f])%list |}) q)
      (selectedFiles cleared)
      (withChips (fun v => {| chipsDisplay := "flex";
                              chipsChildren := chipsChildren v |}) cleared).

(** The [change] listener of the file input; [files] is [e.target.files]. *)
Definition filesChanged (files : option (list file)) (p : panel) : panel :=
  renderChips (withSelected (match files with Some l => l | None => [] end) p).

(** The [click] listener of [clearFiles]. *)
Definition clearFilesClick (p : panel) : panel :=
  renderChips (withInputValue EmptyString (withSelected [] p)).

(** The [click] listener of [attachBtn]. *)
Definition attachClick (p : panel) : panel :=
  let toggled := withPop (fun pop => setShown (negb (popShown pop)) pop) p in
  withPop (setAriaHidden (if popShown (uploadPop toggled) then "false" else "true"))
          toggled.

(** The [click] listener of the document; the two flags are
    [uploadPop.contains(ev.target)] and [attachBtn.contains(ev.target)]. *)
Definition documentClick (inPop inAttach : bool) (p : panel) : panel :=
  if negb inPop && negb inAttach then withPop (setShown false) p else p.

(** The [keydown] listener of [attachBtn]. [attachBtn.click()] runs the
    [click] listeners before it returns: the one of the button, then the one
    of the document, for which the target is the button. *)
Definition attachKeydown (attachInPop : bool) (key : string) (p : panel) : panel :=
  if String.eqb key "Enter" || String.eqb key " "
  then documentClick attachInPop true (attachClick p)
  else p.

(** What awaiting [fetch] gives: [resp.ok], and what awaiting [resp.json()]
    gives. *)
Record httpResponse : Type := {
  ok : bool;
  json : result value
}.

(** A page with [chat_history], the chat, and the Reindex button. *)
Record page : Type := {
  pageSession : session;
  reindexBtn : button;
  reindexPosts : nat            (* the requests posted to /api/reindex *)
}.

Definition withSession (f : session -> session) (pg : page) : page :=
  {| pageSession := f (pageSession pg); reindexBtn := reindexBtn pg;
     reindexPosts := reindexPosts pg |}.

Definition withReindexBtn (f : button -> button) (pg : page) : page :=
  {| pageSession := pageSession pg; reindexBtn := f (reindexBtn pg);
     reindexPosts := reindexPosts pg |}.

Definition withReindexPost (pg : page) : page :=
  {| pageSession := pageSession pg; reindexBtn := reindexBtn pg;
     reindexPosts := S (reindexPosts pg) |}.

(** A statement on the chat, run on the page. *)
Definition onSession {A : Type} (m : M A) : Handler.run A :=
  fun pg =>
    let (st, r) := m (pageSession pg) in
    (withSession (fun _ => st) pg, r).

Definition awaited (r : response) : result value :=
  match r with
  | Fails e => Throw e
  | Resolves data => Ok data
  end.

(** [v === s], for a string [s]. *)
Definition strictEqualsString (v : value) (s : string) : bool :=
  match v with
  | JString t => String.eqb t s
  | _ => false
  end.

Section Builtins.

(** [JSON.stringify(data, null, indent)], with [indent] 0 for
    [JSON.stringify(data)], and [String(err)]: two built-ins the handlers
    only pass on to the page. *)
Variable stringify : value -> nat -> string.
Variable errorString : exn -> string.

(** The [click] listener of [uploadNow], with what [fetch] gives for the
    form it posts. *)
Definition uploadNowClick (fetched : result httpResponse) : Handler.run unit :=
  (files <- Handler.gets selectedFiles ;;
   if List.length files =? 0 then
     Handler.modify (withAlert "Choose files first.")
   else
     Handler.modify (withUploadNow (setDisabled true)) ;;;
     Handler.modify (withUploadNow (setLabel "Working...")) ;;;
     Handler.modify (withResult (setResultDisplay "none")) ;;;
     Handler.tryCatchFinally
       (toPost <- Handler.gets selectedFiles ;;
        Handler.modify (withUpload toPost) ;;;
        resp <- Handler.lift fetched ;;
        data <- Handler.lift (json resp) ;;
        if negb (ok resp) then
          Handler.modify (withResult (setResultDisplay "block")) ;;;
          Handler.modify (withResult (setResultText ("Upload failed: " ++ stringify data 2)))
        else
          Handler.modify (withResult (setResultDisplay "block")) ;;;
          Handler.modify (withResult
                            (setResultText ("Indexing result:" ++ nl ++ stringify data 2))) ;;;
          Handler.modify (withSelected []) ;;;
          Handler.modify (withInputValue EmptyString) ;;;
          Handler.modify renderChips ;;;
          Handler.modify (withPop (setShown false)))
       (fun err =>
          Handler.modify (withResult (setResultDisplay "block")) ;;;
          Handler.modify (withResult (setResultText ("Upload error: " ++ errorString err))))
       (Handler.modify (withUploadNow (setDisabled false)) ;;;
        Handler.modify (withUploadNow (setLabel "Upload & Index"))))%handler.

(** The [click] listener of [reindexBtn]; [status] is no property of the
    prototype of a value either. *)
Definition reindexClick (resp : response) : Handler.run unit :=
  (Handler.modify (withReindexBtn (setDisabled true)) ;;;
   Handler.modify (withReindexBtn (setLabel "Reindexing...")) ;;;
   Handler.tryCatchFinally
     (Handler.modify withReindexPost ;;;
      data <- Handler.lift (awaited resp) ;;
      status <- Handler.lift (getProp data "status") ;;
      if strictEqualsString status "ok" then
        onSession (pushMessage "assistant" (TLit "Reindex completed successfully.") None)
      else
        onSession (pushMessage "assistant"
                               (TLit ("Reindex response: " ++ stringify data 0)) None))
     (fun err => onSession (pushMessage "assistant" (TError "Reindex failed: " err) None))
     (Handler.modify (withReindexBtn (setDisabled false)) ;;;
      Handler.modify (withReindexBtn (setLabel "Reindex"))))%handler.

(** What happens on the panel of the attach button, one listener at a
    time. *)
Inductive panelEvent : Type :=
| AttachClicked
| AttachKeydown (attachInPop : bool) (key : string)
| DocumentClicked (inPop inAttach : bool)
| FilesChanged (files : option (list file))
| ClearFilesClicked
| UploadNowClicked (fetched : result httpResponse).

Definition panelStep (p : panel) (ev : panelEvent) : panel :=
  match ev with
  | AttachClicked => attachClick p
  | AttachKeydown attachInPop key => attachKeydown attachInPop key p
  | DocumentClicked inPop inAttach => documentClick inPop inAttach p
  | FilesChanged files => filesChanged files p
  | ClearFilesClicked => clearFilesClick p
  | UploadNowClicked fetched => fst (uploadNowClick fetched p)
  end.

(** What happens on the chat: the Send button, a key in the question input
    ([typed] is what the input holds then), the Reindex button. *)
Inductive pageEvent : Type :=
| SendClicked (typed : string) (resp : response)
| QuestionKeydown (key typed : string) (resp : response)
| ReindexClicked (resp : response).

Definition sendTyped (typed : string) (resp : response) (pg : page) : page :=
  fst (onSession (sendQuestion resp) (withSession (withQuestionValue typed) pg)).

Definition pageStep (pg : page) (ev : pageEvent) : page :=
  match ev with
  | SendClicked typed resp => sendTyped typed resp pg
  | QuestionKeydown key typed resp =>
      if String.eqb key "Enter" then sendTyped typed resp pg
      else withSession (withQuestionValue typed) pg
  | ReindexClicked resp => fst (reindexClick resp pg)
  end.

End Builtins.

(** ** Notions used in the further statements *)

(** Two strings that are the same up to the case of their letters, as the
    matcher with the [i] flag tells characters apart. *)
Fixpoint sameFolded (a b : string) : bool :=
  match a, b with
  | EmptyString, EmptyString => true
  | String x a', String y b' =>
      (canonicalize x =? canonicalize y)%N && sameFolded a' b'
  | _, _ => false
  end.

(** The five characters [escapeHtml] replaces. *)
Definition isSpecial (c : ascii) : bool :=
  existsb (Ascii.eqb c) ["&"; "<"; ">"; dquote; apostrophe]%char.

(** The character an entity written by [escapeHtml] stands for, when [s]
    begins with one, and how many characters of the entity follow its [&]. *)
Definition entityAt (s : string) : option (ascii * nat) :=
  if prefix "&amp;" s then Some ("&"%char, 4)
  else if prefix "&lt;" s then Some ("<"%char, 3)
  else if prefix "&gt;" s then Some (">"%char, 3)
  else if prefix "&quot;" s then Some (dquote, 5)
  else if prefix "&#039;" s then Some (apostrophe, 5)
  else None.

(** The text a reader of the markup shows for an escaped text: each of the
    five entities read as its character ([skip] counts the characters of the
    current entity still to pass). *)
Fixpoint unescapeGo (skip : nat) (s : string) : string :=
  match s with
  | EmptyString => EmptyString
  | String c rest =>
      match skip with
      | S skip' => unescapeGo skip' rest
      | 0 =>
          match entityAt s with
          | Some (d, n) => String d (unescapeGo n rest)
          | None => String c (unescapeGo 0 rest)
          end
      end
  end.

Definition unescapeHtml (s : string) : string := unescapeGo 0 s.

(** How many characters of [s] satisfy [p]. *)
Fixpoint countIf (p : ascii -> bool) (s : string) : nat :=
  match s with
  | EmptyString => 0
  | String c s' => (if p c then 1 else 0) + countIf p s'
  end.

(** A pair of [chat_history] as a turn writes it: a question that is not
    empty and an answer that is truthy and has a string form. *)
Definition goodPair (entry : string * value) : Prop :=
  fst entry <> EmptyString /\ truthy (snd entry) = true
  /\ convertsToString (snd entry) = true.

(** The controls of the chat are free for the next action. *)
Definition idle (pg : page) : Prop :=
  questionDisabled (pageSession pg) = false
  /\ sendDisabled (pageSession pg) = false
  /\ btnDisabled (reindexBtn pg) = false.

(** The events that call [sendQuestion]. *)
Definition callsSend (ev : pageEvent) : bool :=
  match ev with
  | SendClicked _ _ => true
  | QuestionKeydown key _ _ => String.eqb key "Enter"
  | ReindexClicked _ => false
  end.

Definition callsReindex (ev : pageEvent) : bool :=
  match ev with
  | ReindexClicked _ => true
  | _ => false
  end.

(** The page after the reply to a click on Reindex is shown in message
    [m]. *)
Definition reindexShown (m : message) (pg : page) : page :=
  {| pageSession := withChat (fun children => (children ++ [m])%list) (pageSession pg);
     reindexBtn := {| btnDisabled := false; btnLabel := "Reindex" |};
     reindexPosts := S (reindexPosts pg) |}.

(** The page after a sequence of events. *)
Definition runPage (stringify : value -> nat -> string) (evs : list pageEvent)
           (pg : page) : page :=
  fold_left (pageStep stringify) evs pg.

(** The chips of a selection, and how [fileChips] shows them. *)
Definition chipsOf (files : list file) : chipsView :=
  {| chipsDisplay := if List.length files =? 0 then "none" else "flex";
     chipsChildren := map chipOf files |}.

(** The panel after a sequence of events. *)
Definition runPanel (stringify : value -> nat -> string) (errorString : exn -> string)
           (evs : list panelEvent) (p : panel) : panel :=
  fold_left (panelStep stringify errorString) evs p.

Definition isUploadClick (ev : panelEvent) : bool :=
  match ev with
  | UploadNowClicked _ => true
  | _ => false
  end.

(** The backend took the upload: the request came back, its body was read,
    and [resp.ok] holds. *)
Definition uploadAccepted (fetched : result httpResponse) : bool :=
  match fetched with
  | Ok resp => match json resp with
               | Ok _ => ok resp
               | Throw _ => false
               end
  | Throw _ => false
  end.

(** The text a click on Upload leaves in [uploadResult]. *)
Definition uploadReport (stringify : value -> nat -> string)
           (errorString : exn -> string) (fetched : result httpResponse) : string :=
  match fetched with
  | Throw e => "Upload error: " ++ errorString e
  | Ok resp =>
      match json resp with
      | Throw e => "Upload error: " ++ errorString e
      | Ok data =>
          if ok resp then "Indexing result:" ++ nl ++ stringify data 2
          else "Upload failed: " ++ stringify data 2
      end
  end.

(** The panel after a click on Upload with files selected. *)
Definition uploaded (stringify : value -> nat -> string) (errorString : exn -> string)
           (fetched : result httpResponse) (p : panel) : panel :=
  {| selectedFiles := if uploadAccepted fetched then [] else selectedFiles p;
     realFileInputValue :=
       if uploadAccepted fetched then EmptyString else realFileInputValue p;
     fileChips := if uploadAccepted fetched then chipsOf [] else fileChips p;
     uploadPop := if uploadAccepted fetched then setShown false (uploadPop p)
                  else uploadPop p;
     uploadNow := {| btnDisabled := false; btnLabel := "Upload & Index" |};
     uploadResult := {| resultDisplay := "block";
                        resultText := uploadReport stringify errorString fetched |};
     uploads := (uploads p ++ [selectedFiles p])%list;
     alerts := alerts p |}.

(** ** Further sample data *)

Definition reportFile : file :=
  {| fileName := "method-validation-report-2024.pdf"; fileData := "%PDF-1.7" |}.

Definition samplePanel : panel :=
  {| selectedFiles := [reportFile];
     realFileInputValue := "C:\fakepath\method-validation-report-2024.pdf";
     fileChips := chipsOf [reportFile];
     uploadPop := {| popShown := true; popAriaHidden := "false" |};
     uploadNow := {| btnDisabled := false; btnLabel := "Upload & Index" |};
     uploadResult := {| resultDisplay := "none"; resultText := EmptyString |};
     uploads := [];
     alerts := [] |}.

Definition accepted : result httpResponse :=
  Ok {| ok := true; json := Ok (JObject [("indexed", JNumber number42)]) |}.

Definition refused : result httpResponse :=
  Ok {| ok := false; json := Ok (JObject [("detail", JString "too large")]) |}.

(** Stand-ins for the two built-ins, for the examples. *)
Definition sampleStringify (v : value) (indent : nat) : string := "{}".
Definition sampleErrorString (e : exn) : string := "Error".

Definition panelEvents : list panelEvent :=
  [DocumentClicked false false; AttachClicked; FilesChanged None;
   UploadNowClicked accepted; FilesChanged (Some [reportFile; reportFile]);
   UploadNowClicked refused; AttachKeydown false "Enter"; ClearFilesClicked].

Definition notesFile : file := {| fileName := "notes.txt"; fileData := "to do" |}.

Definition samplePage : page :=
  {| pageSession := askedSession;
     reindexBtn := {| btnDisabled := false; btnLabel := "Reindex" |};
     reindexPosts := 0 |}.

Definition pageEvents : list pageEvent :=
  [SendClicked "  How do I export a sequence? " (Resolves answered);
   ReindexClicked (Resolves (JObject [("status", JString "ok")]));
   QuestionKeydown "a" "a" (Fails (Rejected "offline"));
   QuestionKeydown "Enter" "and then?" (Fails (Rejected "offline"));
   SendClicked "and now?" (Resolves unshownAnswer);
   ReindexClicked (Resolves JNull)].

(** * Proofs *)

(** ** Strings *)

Lemma append_nil_r (s : string) : s ++ EmptyString = s.
Proof. induction s as [|c s IH]; simpl; [reflexivity | now rewrite IH]. Qed.

Lemma append_assoc (a b c : string) : (a ++ b) ++ c = a ++ (b ++ c).
Proof. induction a as [|x a IH]; simpl; [reflexivity | now rewrite IH]. Qed.

Lemma length_append (a b : string) :
  String.length (a ++ b) = String.length a + String.length b.
Proof. induction a as [|x a IH]; simpl; [reflexivity | now rewrite IH]. Qed.

Lemma substring_prefix (a b : string) : substring 0 (String.length a) (a ++ b) = a.
Proof.
  induction a as [|x a IH]; simpl.
  - destruct b; reflexivity.
  - now rewrite IH.
Qed.

Lemma takeWhile_dropWhile (p : ascii -> bool) (s : string) :
  Str.takeWhile p s ++ Str.dropWhile p s = s.
Proof.
  induction s as [|c s IH]; simpl; [reflexivity |].
  destruct (p c); simpl; [now rewrite IH | reflexivity].
Qed.

Lemma takeWhile_all (p : ascii -> bool) (s : string) :
  Str.all p (Str.takeWhile p s) = true.
Proof.
  induction s as [|c s IH]; simpl; [reflexivity |].
  destruct (p c) eqn:E; simpl; [now rewrite E | reflexivity].
Qed.

Lemma takeWhile_app_all (p : ascii -> bool) (a b : string) :
  Str.all p a = true ->
  Str.takeWhile p (a ++ b) = a ++ Str.takeWhile p b.
Proof.
  induction a as [|c a IH]; simpl; [reflexivity |].
  intros H. apply andb_prop in H as [Hc Ha]. now rewrite Hc, IH.
Qed.

Lemma dropWhile_app_all (p : ascii -> bool) (a b : string) :
  Str.all p a = true ->
  Str.dropWhile p (a ++ b) = Str.dropWhile p b.
Proof.
  induction a as [|c a IH]; simpl; [reflexivity |].
  intros H. apply andb_prop in H as [Hc Ha]. now rewrite Hc, IH.
Qed.

Lemma substring_takeWhile (p : ascii -> bool) (s : string) :
  substring 0 (String.length (Str.takeWhile p s)) s = Str.takeWhile p s.
Proof.
  rewrite <- (takeWhile_dropWhile p s) at 2. apply substring_prefix.
Qed.

Lemma all_append (p : ascii -> bool) (a b : string) :
  Str.all p (a ++ b) = Str.all p a && Str.all p b.
Proof.
  induction a as [|c a IH]; simpl; [reflexivity |].
  now rewrite IH, andb_assoc.
Qed.

Lemma all_replicate (p : ascii -> bool) (n : nat) (c : ascii) :
  p c = true -> Str.all p (Str.replicate n c) = true.
Proof. intros H. induction n as [|n IH]; simpl; [reflexivity | now rewrite H, IH]. Qed.

Lemma length_replicate (n : nat) (c : ascii) : String.length (Str.replicate n c) = n.
Proof. induction n as [|n IH]; simpl; [reflexivity | now rewrite IH]. Qed.

(** ** The matcher *)

Ltac each_char c :=
  destruct c as [[] [] [] [] [] [] [] []]; reflexivity.

Lemma atomMatches_K (c : ascii) : atomMatches true (AChar "K") c = Aux.isK c.
Proof. each_char c. Qed.

Lemma atomMatches_B (c : ascii) : atomMatches true (AChar "B") c = Aux.isB c.
Proof. each_char c. Qed.

Lemma atomMatches_sep (c : ascii) :
  atomMatches true (AClass ["_"; "-"]%char) c = Aux.isSep c.
Proof. each_char c. Qed.

Lemma atomMatches_digit (ic : bool) (c : ascii) :
  atomMatches ic ADigit c = Str.isDigit c.
Proof. destruct ic; each_char c. Qed.

Lemma atomMatches_char (p c : ascii) :
  atomMatches false (AChar p) c = Ascii.eqb p c.
Proof. unfold atomMatches; simpl. apply orb_false_r. Qed.

Lemma takeWhile_ext (p q : ascii -> bool) (s : string) :
  (forall c, p c = q c) -> Str.takeWhile p s = Str.takeWhile q s.
Proof.
  intros H. induction s as [|c s IH]; simpl; [reflexivity |].
  now rewrite H, IH.
Qed.

Lemma dropWhile_ext (p q : ascii -> bool) (s : string) :
  (forall c, p c = q c) -> Str.dropWhile p s = Str.dropWhile q s.
Proof.
  intros H. induction s as [|c s IH]; simpl; [reflexivity |].
  now rewrite H, IH.
Qed.

(** A greedy [a{n,}] before a continuation that accepts: all the characters
    of the run are taken, and there must be [n] of them. *)
Lemma repeatK_greedy {T : Type} (ic : bool) (a : atom) (k : @cont T) :
  (forall j s' caps, k j s' caps <> None) ->
  forall s n i caps,
    repeatK ic a n i s caps k =
    if n <=? String.length (Str.takeWhile (atomMatches ic a) s)
    then k (i + String.length (Str.takeWhile (atomMatches ic a) s))
           (Str.dropWhile (atomMatches ic a) s) caps
    else None.
Proof.
  intros Hk. induction s as [|c s IH]; intros n i caps; simpl.
  - rewrite Nat.add_0_r. destruct n; reflexivity.
  - destruct (atomMatches ic a c) eqn:Hc; simpl.
    + rewrite IH.
      destruct n as [|n]; simpl.
      * rewrite Nat.add_succ_r.
        destruct (k (S (i + _)) _ caps) eqn:E; [reflexivity | now apply Hk in E].
      * rewrite Nat.add_succ_r.
        destruct (n <=? _); [| reflexivity].
        destruct (k (S (i + _)) _ caps) eqn:E; [reflexivity | now apply Hk in E].
    + rewrite Nat.add_0_r. destruct n; reflexivity.
Qed.

Lemma takeWhile_digit (ic : bool) (s : string) :
  Str.takeWhile (atomMatches ic ADigit) s = Str.takeWhile Str.isDigit s.
Proof. apply takeWhile_ext, atomMatches_digit. Qed.

Lemma isSep_not_digit (c : ascii) : Aux.isSep c = true -> Str.isDigit c = false.
Proof. destruct c as [[] [] [] [] [] [] [] []]; simpl; intros H; try discriminate H; reflexivity. Qed.

Lemma matchAt_kb (i : nat) (s : string) :
  option_map m_captures (matchAt true kbPattern i s)
  = option_map (fun run => [run]) (Aux.kbRunAt s).
Proof.
  unfold matchAt, kbPattern. cbn [matchK].
  destruct s as [|k [|b t]]; cbn [Aux.kbRunAt].
  - reflexivity.
  - destruct (atomMatches true (AChar "K") k); reflexivity.
  - rewrite atomMatches_K, atomMatches_B.
    destruct (Aux.isK k); [| reflexivity].
    destruct (Aux.isB b); [| reflexivity]. cbn [andb].
    rewrite (repeatK_greedy true ADigit) by (intros; discriminate).
    rewrite takeWhile_digit.
    destruct t as [|c t']; [reflexivity |].
    rewrite atomMatches_sep. cbn [Aux.afterSep].
    destruct (Aux.isSep c) eqn:Hsep.
    + rewrite (repeatK_greedy true ADigit) by (intros; discriminate).
      rewrite takeWhile_digit.
      destruct (3 <=? String.length (Str.takeWhile Str.isDigit t')) eqn:Hlen.
      * cbn [option_map m_captures app]. rewrite Nat.add_comm, Nat.add_sub.
        now rewrite substring_takeWhile.
      * cbn [Str.takeWhile]. rewrite (isSep_not_digit _ Hsep). reflexivity.
    + destruct (3 <=? String.length (Str.takeWhile Str.isDigit (String c t'))) eqn:Hlen.
      * cbn [option_map m_captures app]. rewrite Nat.add_comm, Nat.add_sub.
        now rewrite substring_takeWhile.
      * reflexivity.
Qed.

Lemma searchFrom_kb (s : string) (i : nat) :
  option_map m_captures (searchFrom true kbPattern i s)
  = option_map (fun run => [run]) (Aux.kbSearch s).
Proof.
  revert i. induction s as [|c s IH]; intros i.
  - reflexivity.
  - cbn [searchFrom Aux.kbSearch].
    pose proof (matchAt_kb i (String c s)) as H.
    destruct (matchAt true kbPattern i (String c s)) as [m|];
      destruct (Aux.kbRunAt (String c s)) as [run|]; try discriminate H.
    + exact H.
    + apply IH.
Qed.

Lemma searchFrom_begin (s : string) (i : nat) :
  i <> 0 -> searchFrom false leadingZeros i s = None.
Proof.
  revert i. induction s as [|c s IH]; intros i Hi.
  - unfold searchFrom, matchAt, leadingZeros. cbn [matchK].
    destruct i; [contradiction | reflexivity].
  - cbn [searchFrom]. unfold matchAt, leadingZeros. cbn [matchK].
    destruct i; [contradiction |]. cbn [Nat.eqb]. apply IH. discriminate.
Qed.

Lemma atomMatches_zero (c : ascii) :
  atomMatches false (AChar "0") c = Spec.isZero c.
Proof. rewrite atomMatches_char. apply Ascii.eqb_sym. Qed.

Lemma replaceFirst_leadingZeros (g : string) :
  replaceFirst false leadingZeros EmptyString g = Str.dropWhile Spec.isZero g.
Proof.
  unfold replaceFirst, exec.
  assert (Hat : matchAt false leadingZeros 0 g =
                if 1 <=? String.length (Str.takeWhile Spec.isZero g)
                then Some {| m_index := 0;
                             m_end := String.length (Str.takeWhile Spec.isZero g);
                             m_text := substring 0 (String.length (Str.takeWhile Spec.isZero g) - 0) g;
                             m_captures := [];
                             m_rest := Str.dropWhile Spec.isZero g |}
                else None).
  { unfold matchAt, leadingZeros. cbn [matchK Nat.eqb].
    rewrite repeatK_greedy by (intros; discriminate).
    rewrite (takeWhile_ext _ _ g atomMatches_zero),
            (dropWhile_ext _ _ g atomMatches_zero).
    reflexivity. }
  destruct g as [|c g].
  - reflexivity.
  - cbn [searchFrom]. rewrite Hat.
    destruct (1 <=? _) eqn:Hlen.
    + cbn [m_index m_rest]. reflexivity.
    + rewrite searchFrom_begin by discriminate.
      cbn [Str.takeWhile Str.dropWhile] in *.
      destruct (Spec.isZero c); [discriminate Hlen | reflexivity].
Qed.

Lemma dropWhile_empty_all (p : ascii -> bool) (s : string) :
  Str.isEmpty (Str.dropWhile p s) = Str.all p s.
Proof.
  induction s as [|c s IH]; simpl; [reflexivity |].
  destruct (p c); simpl; [exact IH | reflexivity].
Qed.

Lemma fill_single (c : ascii) (n : nat) (cur : string) :
  cur = EmptyString \/ cur = String c EmptyString ->
  Builtin.fill (String c EmptyString) cur n = Str.replicate n c.
Proof.
  revert cur. induction n as [|n IH]; intros cur H; simpl; [reflexivity |].
  destruct H as [-> | ->]; rewrite IH; auto.
Qed.

Lemma padStart_zeroPad9 (s : string) :
  Builtin.padStart 9 "0" s = Spec.zeroPad9 s.
Proof.
  unfold Builtin.padStart, Spec.zeroPad9.
  destruct (9 <=? String.length s) eqn:H.
  - apply Nat.leb_le in H.
    replace (9 - String.length s) with 0 by lia. reflexivity.
  - cbn [Str.isEmpty]. rewrite fill_single by auto. reflexivity.
Qed.

Lemma extractKbDigits_search (name : string) :
  extractKbDigits (JString name) =
  option_map (fun run => Spec.zeroPad9 (Spec.stripLeadingZeros run)) (Aux.kbSearch name).
Proof.
  unfold extractKbDigits. cbn [truthy typeof].
  destruct name as [|c name]; [reflexivity |].
  cbn [Str.isEmpty negb orb]. change (String.eqb "string" "string") with true.
  cbn [negb]. unfold exec.
  pose proof (searchFrom_kb (String c name) 0) as H.
  destruct (searchFrom true kbPattern 0 (String c name)) as [m|];
    destruct (Aux.kbSearch (String c name)) as [run|]; try discriminate H;
    [| reflexivity].
  cbn [option_map] in *. injection H as ->. cbn [nth].
  rewrite replaceFirst_leadingZeros, dropWhile_empty_all, padStart_zeroPad9.
  unfold Spec.stripLeadingZeros. destruct (Str.all Spec.isZero run); reflexivity.
Qed.

Lemma append_inj_length (a b a' b' : string) :
  a ++ b = a' ++ b' -> String.length a = String.length a' -> a = a' /\ b = b'.
Proof.
  revert a'. induction a as [|x a IH]; intros [|x' a'] H L; simpl in *;
    try discriminate L.
  - auto.
  - injection H as -> H. injection L as L.
    destruct (IH _ H L) as [-> ->]. auto.
Qed.

Lemma isK_iff (c : ascii) : Aux.isK c = true <-> (c = "K" \/ c = "k")%char.
Proof.
  unfold Aux.isK. rewrite orb_true_iff, !Ascii.eqb_eq. reflexivity.
Qed.

Lemma isB_iff (c : ascii) : Aux.isB c = true <-> (c = "B" \/ c = "b")%char.
Proof.
  unfold Aux.isB. rewrite orb_true_iff, !Ascii.eqb_eq. reflexivity.
Qed.

Lemma isDigit_not_sep (c : ascii) : Str.isDigit c = true -> Aux.isSep c = false.
Proof.
  intros H. destruct (Aux.isSep c) eqn:E; [| reflexivity].
  apply isSep_not_digit in E. congruence.
Qed.

(** What follows [KB] in an occurrence: the separator passed, the digits are
    a prefix of the input. *)
Lemma afterSep_occurrence (sep run rest : string) :
  (sep = EmptyString \/ sep = "_" \/ sep = "-") ->
  Str.all Str.isDigit run = true -> 3 <= String.length run ->
  Aux.afterSep (sep ++ run ++ rest) = run ++ rest.
Proof.
  intros Hsep Hd Hlen.
  destruct Hsep as [-> | [-> | ->]]; try reflexivity.
  destruct run as [|c run]; [simpl in Hlen; lia |].
  simpl in Hd. apply andb_prop in Hd as [Hc _].
  simpl. now rewrite (isDigit_not_sep _ Hc).
Qed.

Lemma kbRunAt_complete (s run : string) :
  Spec.kbMatchAt s run -> exists more, Aux.kbRunAt s = Some (run ++ more).
Proof.
  intros (k & b & sep & rest & -> & Hk & Hb & Hsep & Hd & Hlen).
  apply isK_iff in Hk. apply isB_iff in Hb.
  cbn [Aux.kbRunAt]. rewrite Hk, Hb. cbn [andb].
  rewrite afterSep_occurrence by assumption.
  rewrite takeWhile_app_all by assumption.
  exists (Str.takeWhile Str.isDigit rest).
  rewrite length_append.
  destruct (3 <=? _) eqn:E; [reflexivity |].
  apply Nat.leb_gt in E. lia.
Qed.

Lemma kbRunAt_sound (s run : string) :
  Aux.kbRunAt s = Some run -> Spec.kbMatchAt s run.
Proof.
  destruct s as [|k [|b t]]; cbn [Aux.kbRunAt]; try discriminate.
  destruct (Aux.isK k) eqn:Hk; [| discriminate].
  destruct (Aux.isB b) eqn:Hb; [| discriminate]. cbn [andb].
  destruct (3 <=? _) eqn:Hlen; [| discriminate].
  intros H. injection H as <-. apply Nat.leb_le in Hlen.
  exists k, b.
  exists (match t with
          | String c _ => if Aux.isSep c then String c EmptyString else EmptyString
          | EmptyString => EmptyString
          end).
  exists (Str.dropWhile Str.isDigit (Aux.afterSep t)).
  rewrite takeWhile_dropWhile, takeWhile_all.
  repeat split; try assumption; try (now apply isK_iff); try (now apply isB_iff).
  - do 2 f_equal. destruct t as [|c t']; [reflexivity |].
    cbn [Aux.afterSep]. destruct (Aux.isSep c); reflexivity.
  - destruct t as [|c t']; [now left |].
    destruct (Aux.isSep c) eqn:E; [| now left].
    unfold Aux.isSep in E. apply orb_prop in E as [E | E];
      apply Ascii.eqb_eq in E; subst; auto.
Qed.

Lemma kbSearch_Some (s run : string) :
  Aux.kbSearch s = Some run ->
  exists pre s',
    s = pre ++ s' /\ Aux.kbRunAt s' = Some run
    /\ forall pre' s'', s = pre' ++ s'' ->
                        String.length pre' < String.length pre ->
                        Aux.kbRunAt s'' = None.
Proof.
  induction s as [|c s IH]; cbn [Aux.kbSearch].
  - discriminate.
  - destruct (Aux.kbRunAt (String c s)) as [r|] eqn:E.
    + intros H. injection H as ->. exists EmptyString, (String c s).
      repeat split; auto. intros pre' s'' _ Hl. simpl in Hl. lia.
    + intros H. destruct (IH H) as (pre & s' & -> & Hrun & Hfirst).
      exists (String c pre), s'. repeat split; auto.
      intros [|x pre'] s'' Heq Hl.
      * simpl in Heq. now subst s''.
      * simpl in Heq. injection Heq as -> Heq.
        apply (Hfirst pre' s'' Heq). simpl in Hl. lia.
Qed.

Lemma kbSearch_None (s : string) :
  Aux.kbSearch s = None ->
  forall pre s', s = pre ++ s' -> Aux.kbRunAt s' = None.
Proof.
  induction s as [|c s IH]; cbn [Aux.kbSearch].
  - intros _ [|x pre] s' H; simpl in H; [now subst | discriminate].
  - destruct (Aux.kbRunAt (String c s)) as [r|] eqn:E; [discriminate |].
    intros H [|x pre] s' Heq; simpl in Heq.
    + now subst.
    + injection Heq as -> Heq. now apply (IH H pre s').
Qed.

Lemma kbSearch_None_iff (s : string) :
  Aux.kbSearch s = None <-> ~ Spec.kbOccurs s.
Proof.
  split.
  - intros H (pre & s' & run & Heq & Hm).
    apply kbRunAt_complete in Hm as [more Hm].
    rewrite (kbSearch_None s H pre s' Heq) in Hm. discriminate.
  - intros H. destruct (Aux.kbSearch s) as [run|] eqn:E; [| reflexivity].
    exfalso. apply H. apply kbSearch_Some in E as (pre & s' & Heq & Hrun & _).
    exists pre, s', run. split; [assumption |]. now apply kbRunAt_sound.
Qed.

Lemma kbSearch_first (s run : string) :
  Aux.kbSearch s = Some run -> Spec.firstKbRun s run.
Proof.
  intros H. apply kbSearch_Some in H as (pre & s' & Heq & Hrun & Hfirst).
  exists pre, s'. repeat split; [assumption | now apply kbRunAt_sound | |].
  - intros run' Hm. apply kbRunAt_complete in Hm as [more Hm].
    rewrite Hrun in Hm. injection Hm as ->. rewrite length_append. lia.
  - intros pre' s'' run' Heq' Hm.
    destruct (Nat.le_gt_cases (String.length pre) (String.length pre')) as [L | L];
      [assumption |].
    apply kbRunAt_complete in Hm as [more Hm].
    rewrite (Hfirst pre' s'' Heq' L) in Hm. discriminate.
Qed.

Lemma append_length_eq (a b : string) :
  String.length (a ++ b) <= String.length a -> b = EmptyString.
Proof.
  rewrite length_append. destruct b; simpl; [reflexivity | lia].
Qed.

Lemma firstKbRun_search (s run : string) :
  Spec.firstKbRun s run -> Aux.kbSearch s = Some run.
Proof.
  intros (pre & s' & Heq & Hm & Hmax & Hfirst).
  destruct (kbRunAt_complete _ _ Hm) as [more Hrun].
  assert (more = EmptyString) as ->.
  { apply (append_length_eq run). apply Hmax. now apply kbRunAt_sound. }
  rewrite append_nil_r in Hrun.
  destruct (Aux.kbSearch s) as [run0|] eqn:E.
  - apply kbSearch_Some in E as (pre0 & s0 & Heq0 & Hrun0 & Hfirst0).
    assert (L : String.length pre <= String.length pre0).
    { apply (Hfirst pre0 s0 run0 Heq0). now apply kbRunAt_sound. }
    destruct (Nat.eq_dec (String.length pre) (String.length pre0)) as [Le | Ln].
    + rewrite Heq in Heq0. destruct (append_inj_length _ _ _ _ Heq0 Le) as [_ <-].
      congruence.
    + rewrite (Hfirst0 pre s' Heq) in Hrun by lia. discriminate.
  - rewrite (kbSearch_None s E pre s' Heq) in Hrun. discriminate.
Qed.

Lemma all_dropWhile (p q : ascii -> bool) (s : string) :
  Str.all p s = true -> Str.all p (Str.dropWhile q s) = true.
Proof.
  induction s as [|c s IH]; simpl; [auto |].
  intros H. destruct (q c); simpl; [| assumption].
  apply andb_prop in H as [_ H]. auto.
Qed.

Lemma stripLeadingZeros_digits (run : string) :
  Str.all Str.isDigit run = true ->
  Str.all Str.isDigit (Spec.stripLeadingZeros run) = true.
Proof.
  intros H. unfold Spec.stripLeadingZeros.
  destruct (Str.all Spec.isZero run); [assumption | now apply all_dropWhile].
Qed.

Lemma zeroPad9_digits (s : string) :
  Str.all Str.isDigit s = true -> Str.all Str.isDigit (Spec.zeroPad9 s) = true.
Proof.
  intros H. unfold Spec.zeroPad9.
  rewrite all_append, H, all_replicate; reflexivity.
Qed.

Lemma zeroPad9_length (s : string) :
  String.length (Spec.zeroPad9 s) = Nat.max 9 (String.length s).
Proof.
  unfold Spec.zeroPad9. rewrite length_append, length_replicate. lia.
Qed.

Lemma zeroPad9_long (s : string) : 9 <= String.length s -> Spec.zeroPad9 s = s.
Proof.
  intros H. unfold Spec.zeroPad9.
  replace (9 - String.length s) with 0 by lia. reflexivity.
Qed.

Lemma firstKbRun_unique (name run run' : string) :
  Spec.firstKbRun name run -> Spec.firstKbRun name run' -> run' = run.
Proof.
  intros H H'. apply firstKbRun_search in H, H'. congruence.
Qed.

Lemma firstKbRun_digits (name run : string) :
  Spec.firstKbRun name run -> Str.all Str.isDigit run = true.
Proof.
  intros (pre & s & _ & (k & b & sep & rest & _ & _ & _ & _ & Hd & _) & _). exact Hd.
Qed.

(** The helper on a name in which the pattern occurs. *)
Lemma extractKbDigits_occurs (name : string) :
  Spec.kbOccurs name ->
  exists run,
    Spec.firstKbRun name run
    /\ extractKbDigits (JString name)
       = Some (Spec.zeroPad9 (Spec.stripLeadingZeros run)).
Proof.
  intros H. rewrite extractKbDigits_search.
  destruct (Aux.kbSearch name) as [run|] eqn:E.
  - exists run. split; [now apply kbSearch_first | reflexivity].
  - apply kbSearch_None_iff in E. contradiction.
Qed.

Lemma extractKbDigits_Some (v : value) (id : string) :
  extractKbDigits v = Some id ->
  exists name run,
    v = JString name /\ Spec.firstKbRun name run
    /\ id = Spec.zeroPad9 (Spec.stripLeadingZeros run).
Proof.
  destruct v as [| | b | x | name | items | fields]; try discriminate.
  - destruct b; intros H; vm_compute in H; discriminate H.
  - destruct x; intros H; vm_compute in H; discriminate H.
  - rewrite extractKbDigits_search.
    destruct (Aux.kbSearch name) as [run|] eqn:E; [| discriminate].
    intros H. injection H as <-. exists name, run.
    repeat split. now apply kbSearch_first.
Qed.

(** C1. For every name in which the KB pattern occurs, [extractKbDigits]
    returns the digit run of the first match, its leading zeros stripped (a
    run of zeros only is kept as it is), with zeros on the left up to 9
    characters and nothing cut from a longer run; and on ["KB0000000"] it
    returns ["000000000"]. *)
Theorem extractKbDigits_first_run :
  (forall name,
      Spec.kbOccurs name ->
      exists run,
        Spec.firstKbRun name run
        /\ (forall run', Spec.firstKbRun name run' -> run' = run)
        /\ extractKbDigits (JString name)
           = Some (Spec.zeroPad9 (Spec.stripLeadingZeros run)))
  /\ (forall s, String.length (Spec.zeroPad9 s) = Nat.max 9 (String.length s))
  /\ (forall s, 9 <= String.length s -> Spec.zeroPad9 s = s)
  /\ extractKbDigits (JString "KB0000000") = Some "000000000".
Proof.
  split; [| split; [| split]].
  - intros name H. destruct (extractKbDigits_occurs name H) as (run & Hrun & Heq).
    exists run. repeat split; try assumption.
    intros run' H'. exact (firstKbRun_unique _ _ _ Hrun H').
  - exact zeroPad9_length.
  - exact zeroPad9_long.
  - reflexivity.
Qed.

Lemma kbOccurs_pdf : Spec.kbOccurs "KB_000123456.pdf".
Proof.
  exists EmptyString, "KB_000123456.pdf", "000123456".
  split; [reflexivity |].
  exists "K"%char, "B"%char, "_", ".pdf".
  repeat split; auto. simpl. lia.
Defined.

Lemma extractKbDigits_first_run_witness :
  Spec.kbOccurs "KB_000123456.pdf"
  /\ exists run,
       Spec.firstKbRun "KB_000123456.pdf" run
       /\ (forall run', Spec.firstKbRun "KB_000123456.pdf" run' -> run' = run)
       /\ extractKbDigits (JString "KB_000123456.pdf")
          = Some (Spec.zeroPad9 (Spec.stripLeadingZeros run)).
Proof.
  split; [exact kbOccurs_pdf |].
  exact (proj1 extractKbDigits_first_run "KB_000123456.pdf" kbOccurs_pdf).
Defined.

(** C4. [extractKbDigits] returns null exactly when its argument is the
    empty string, is not a string, or is a string in which the KB pattern
    does not occur; when it occurs, the first match is the one used. It
    returns null on ["kb-42.txt"] and on ["no id here"]. *)
Theorem extractKbDigits_null_iff :
  (forall v,
      extractKbDigits v = None <->
      (v = JString EmptyString
       \/ (forall s, v <> JString s)
       \/ exists s, v = JString s /\ ~ Spec.kbOccurs s))
  /\ (forall name run,
         Spec.firstKbRun name run ->
         extractKbDigits (JString name)
         = Some (Spec.zeroPad9 (Spec.stripLeadingZeros run)))
  /\ extractKbDigits (JString "kb-42.txt") = None
  /\ extractKbDigits (JString "no id here") = None.
Proof.
  split; [| split; [| split; reflexivity]].
  - intros v. split.
    + intros H. destruct v as [| | b | x | name | items | fields];
        try (right; left; intros s; discriminate).
      right; right. exists name. split; [reflexivity |].
      rewrite extractKbDigits_search in H. apply kbSearch_None_iff.
      now destruct (Aux.kbSearch name).
    + intros [-> | [H | (s & -> & H)]].
      * reflexivity.
      * destruct (extractKbDigits v) as [id|] eqn:E; [| reflexivity].
        apply extractKbDigits_Some in E as (name & _ & -> & _).
        now elim (H name).
      * rewrite extractKbDigits_search. apply kbSearch_None_iff in H. now rewrite H.
  - intros name run H. rewrite extractKbDigits_search.
    now rewrite (firstKbRun_search _ _ H).
Qed.

Lemma firstKbRun_second : Spec.firstKbRun "kb-42 KB-007.txt" "007".
Proof. apply kbSearch_first. reflexivity. Defined.

Lemma extractKbDigits_null_iff_witness :
  Spec.firstKbRun "kb-42 KB-007.txt" "007"
  /\ extractKbDigits (JString "kb-42 KB-007.txt") = Some "000000007".
Proof.
  split; [exact firstKbRun_second |].
  exact (proj1 (proj2 extractKbDigits_null_iff) "kb-42 KB-007.txt" "007"
               firstKbRun_second).
Defined.

Lemma extractKbDigits_digits (v : value) (id : string) :
  extractKbDigits v = Some id -> Str.all Str.isDigit id = true.
Proof.
  intros H. apply extractKbDigits_Some in H as (name & run & -> & Hrun & ->).
  apply zeroPad9_digits, stripLeadingZeros_digits. eapply firstKbRun_digits, Hrun.
Qed.

(** C8. A value returned by [extractKbDigits] that is not null is a string
    of decimal digits; its length is the larger of 9 and the length of the
    digit run of the first match once stripped of its leading zeros (the
    stripping step keeps a run of zeros only), so it is 9 at least. *)
Theorem extractKbDigits_digits_length (v : value) (id : string) :
  extractKbDigits v = Some id ->
  Str.all Str.isDigit id = true
  /\ 9 <= String.length id
  /\ exists name run,
       v = JString name /\ Spec.firstKbRun name run
       /\ String.length id = Nat.max 9 (String.length (Spec.stripLeadingZeros run)).
Proof.
  intros H. split; [exact (extractKbDigits_digits _ _ H) |].
  apply extractKbDigits_Some in H as (name & run & -> & Hrun & ->).
  split.
  - rewrite zeroPad9_length. lia.
  - exists name, run. repeat split; [assumption | apply zeroPad9_length].
Qed.

Lemma extractKbDigits_digits_length_witness :
  extractKbDigits (JString "KB_000123456.pdf") = Some "000123456"
  /\ Str.all Str.isDigit "000123456" = true
  /\ 9 <= String.length "000123456"
  /\ exists name run,
       JString "KB_000123456.pdf" = JString name /\ Spec.firstKbRun name run
       /\ String.length "000123456" = Nat.max 9 (String.length (Spec.stripLeadingZeros run)).
Proof.
  split; [reflexivity |].
  apply (extractKbDigits_digits_length (JString "KB_000123456.pdf") "000123456").
  reflexivity.
Defined.

(** ** Display names *)

Lemma resolveName_object (fields : list (string * value)) :
  resolveName (JObject fields) = Ok (Spec.firstTruthy fields).
Proof.
  unfold resolveName, Spec.firstTruthy, jsOr, jsAnd, getProp, rbind.
  cbn [truthy map Spec.nameKeys find].
  repeat match goal with
         | |- context [truthy (lookupField ?k fields)] =>
             let E := fresh "E" in
             destruct (truthy (lookupField k fields)) eqn:E;
             cbn beta iota; rewrite ?E; cbn beta iota
         end; reflexivity.
Qed.

Lemma resolveName_other (s : value) :
  (forall fields, s <> JObject fields) -> resolveName s = Ok (JString EmptyString).
Proof.
  intros H. destruct s as [| | b | x | str | items | fields];
    try reflexivity.
  - destruct b; reflexivity.
  - destruct x; reflexivity.
  - destruct str; reflexivity.
  - now elim (H fields).
Qed.

Lemma resolveName_total (s : value) : exists n, resolveName s = Ok n.
Proof.
  destruct s as [| | b | x | str | items | fields];
    try (eexists; apply resolveName_other; intros; discriminate).
  eexists. apply resolveName_object.
Qed.

Lemma firstTruthy_empty (fields : list (string * value)) :
  Spec.firstTruthy fields = JString EmptyString <->
  forall k, In k Spec.nameKeys -> truthy (lookupField k fields) = false.
Proof.
  unfold Spec.firstTruthy.
  destruct (find truthy (map (fun k => lookupField k fields) Spec.nameKeys)) as [v|] eqn:E.
  - apply find_some in E as [Hin Hv]. apply in_map_iff in Hin as (k & <- & Hk).
    split.
    + intros H. rewrite H in Hv. discriminate.
    + intros H. rewrite (H k Hk) in Hv. discriminate.
  - split; [| reflexivity]. intros _ k Hk.
    apply (find_none _ _ E). apply in_map_iff. now exists k.
Qed.

Lemma find_agree {A : Type} (p q : A -> bool) (l : list A) :
  (forall x, In x l -> p x = q x) -> find p l = find q l.
Proof.
  induction l as [|x l IH]; intros H; simpl; [reflexivity |].
  rewrite (H x) by now left. rewrite IH; [reflexivity |].
  intros y Hy. apply H. now right.
Qed.

(** C3 as stated does not hold: a [source] that is the empty string does not
    win over a [title]. *)
Lemma resolveName_empty_source_skipped :
  resolveName (JObject emptySourceRecord) = Ok (JString "Guide.pdf")
  /\ Spec.firstPresent emptySourceRecord = JString EmptyString
  /\ resolveName (JObject emptySourceRecord) <> Ok (Spec.firstPresent emptySourceRecord).
Proof. repeat split. discriminate. Qed.

(** C3, amended. The display name of a record is the value of the first key
    among [source], [title], [file], [filename], in that order, whose value
    is truthy; it is the empty string exactly when no key has a truthy
    value. Where every value is a string that is not empty, or is absent or
    null, that is the first present value. *)
Theorem resolveName_first_truthy (fields : list (string * value)) :
  resolveName (JObject fields) = Ok (Spec.firstTruthy fields)
  /\ (Spec.firstTruthy fields = JString EmptyString <->
      forall k, In k Spec.nameKeys -> truthy (lookupField k fields) = false)
  /\ ((forall k, In k Spec.nameKeys ->
         truthy (lookupField k fields) = Spec.present (lookupField k fields)) ->
      Spec.firstTruthy fields = Spec.firstPresent fields).
Proof.
  split; [apply resolveName_object | split; [apply firstTruthy_empty |]].
  intros H. unfold Spec.firstTruthy, Spec.firstPresent.
  rewrite (find_agree truthy Spec.present); [reflexivity |].
  intros v Hv. apply in_map_iff in Hv as (k & <- & Hk). now apply H.
Qed.

Lemma titleRecord_plain (k : string) :
  In k Spec.nameKeys ->
  truthy (lookupField k titleRecord) = Spec.present (lookupField k titleRecord).
Proof. intros [<- | [<- | [<- | [<- | []]]]]; reflexivity. Defined.

Lemma resolveName_first_truthy_witness :
  (forall k, In k Spec.nameKeys ->
     truthy (lookupField k titleRecord) = Spec.present (lookupField k titleRecord))
  /\ Spec.firstTruthy titleRecord = Spec.firstPresent titleRecord.
Proof.
  split; [exact titleRecord_plain |].
  exact (proj2 (proj2 (resolveName_first_truthy titleRecord)) titleRecord_plain).
Defined.

(** ** The set of seen names *)

Lemma sameNumber_trans (x y z : spec_float) :
  sameNumber x y = true -> sameNumber y z = true -> sameNumber x z = true.
Proof.
  destruct x, y; try discriminate; destruct z; try discriminate; simpl; auto.
  - intros H1 H2. apply Bool.eqb_prop in H1, H2. subst. apply Bool.eqb_reflx.
  - intros H1 H2.
    apply andb_prop in H1 as [H1 He]. apply andb_prop in H1 as [Hs Hm].
    apply andb_prop in H2 as [H2 He']. apply andb_prop in H2 as [Hs' Hm'].
    apply Bool.eqb_prop in Hs, Hs'. apply Pos.eqb_eq in Hm, Hm'.
    apply Z.eqb_eq in He, He'. subst.
    now rewrite Bool.eqb_reflx, Pos.eqb_refl, Z.eqb_refl.
Qed.

Lemma sameValueZero_trans (x y z : value) :
  sameValueZero x y = true -> sameValueZero y z = true -> sameValueZero x z = true.
Proof.
  destruct x, y; try discriminate; destruct z; try discriminate; simpl; auto.
  - intros H1 H2. apply Bool.eqb_prop in H1, H2. subst. apply Bool.eqb_reflx.
  - apply sameNumber_trans.
  - intros H1 H2. apply String.eqb_eq in H1, H2. subst. apply String.eqb_refl.
Qed.

Lemma setHas_app (l1 l2 : list value) (x : value) :
  setHas (l1 ++ l2) x = setHas l1 x || setHas l2 x.
Proof. apply existsb_app. Qed.

Lemma setHas_single (x y : value) : setHas [y] x = sameValueZero x y.
Proof. unfold setHas. simpl. apply orb_false_r. Qed.

Lemma setHas_trans (seen : list value) (x y : value) :
  sameValueZero x y = true -> setHas seen y = true -> setHas seen x = true.
Proof.
  intros Hxy H. apply existsb_exists in H as (z & Hz & Hyz).
  apply existsb_exists. exists z. split; [assumption |].
  eapply sameValueZero_trans; eassumption.
Qed.

(** Adding a name that is already there changes no membership. *)
Lemma setHas_app_seen (seen : list value) (n x : value) :
  setHas seen n = true -> setHas (seen ++ [n]) x = setHas seen x.
Proof.
  intros H. rewrite setHas_app, setHas_single.
  destruct (setHas seen x) eqn:E; [reflexivity |].
  destruct (sameValueZero x n) eqn:E'; [| reflexivity].
  rewrite (setHas_trans seen x n E' H) in E. discriminate.
Qed.

Lemma keepNew_ext (names : list value) :
  forall e1 e2, (forall x, setHas e1 x = setHas e2 x) ->
                keepNew e1 names = keepNew e2 names.
Proof.
  induction names as [|n names IH]; intros e1 e2 H; simpl; [reflexivity |].
  rewrite (H n).
  rewrite (IH (e1 ++ [n])%list (e2 ++ [n])%list); [reflexivity |].
  intros x. now rewrite !setHas_app, H.
Qed.

(** The loop over [data.sources], from any state of the two collections
    with the same members as the names already passed. *)
Lemma forEach_collect (sources : list value) (names : list value) :
  Forall2 (fun s n => resolveName s = Ok n) sources names ->
  forall seen out earlier,
    (forall x, setHas seen x = setHas earlier x) ->
    exists seen',
      forEach collectStep sources (seen, out) = Ok (seen', (out ++ keepNew earlier names)%list).
Proof.
  induction 1 as [|s n sources names Hs _ IH]; intros seen out earlier Hmem.
  - exists seen. simpl. now rewrite app_nil_r.
  - cbn [forEach collectStep keepNew rbind]. rewrite Hs. cbn [rbind].
    rewrite <- (Hmem n).
    destruct (setHas seen n) eqn:E; cbn [negb rbind].
    + destruct (IH seen out (earlier ++ [n])%list) as [seen' Hrun].
      { intros x. rewrite Hmem, setHas_app_seen; [reflexivity |].
        now rewrite <- Hmem. }
      exists seen'. exact Hrun.
    + unfold setAdd. rewrite E.
      destruct (IH (seen ++ [n]) (out ++ [n]) (earlier ++ [n]))%list as [seen' Hrun].
      { intros x. now rewrite !setHas_app, Hmem. }
      exists seen'. rewrite Hrun. now rewrite <- app_assoc.
Qed.

Lemma resolveNames_total (sources : list value) :
  exists names, Forall2 (fun s n => resolveName s = Ok n) sources names.
Proof.
  induction sources as [|s sources [names IH]].
  - exists []. constructor.
  - destruct (resolveName_total s) as [n Hn]. exists (n :: names). now constructor.
Qed.

Lemma Forall2_fun {A B : Type} (R : A -> B -> Prop) (l : list A) (l1 l2 : list B) :
  (forall a b b', R a b -> R a b' -> b = b') ->
  Forall2 R l l1 -> Forall2 R l l2 -> l1 = l2.
Proof.
  intros HR H1. revert l2. induction H1; intros l2 H2; inversion H2; subst.
  - reflexivity.
  - f_equal; eauto.
Qed.

Lemma collectNames_keepNew (sources names : list value) :
  Forall2 (fun s n => resolveName s = Ok n) sources names ->
  collectNames sources = Ok (keepNew [] names).
Proof.
  intros H. unfold collectNames.
  destruct (forEach_collect sources names H [] [] []) as [seen' ->]; reflexivity.
Qed.

(** ** First occurrences *)

Lemma firstn_length_app {A : Type} (l1 l2 : list A) :
  firstn (List.length l1) (l1 ++ l2) = l1.
Proof. induction l1 as [|x l1 IH]; simpl; [reflexivity | now rewrite IH]. Qed.

Lemma nth_length_app {A : Type} (l1 l2 : list A) (x d : A) :
  nth (List.length l1) (l1 ++ x :: l2) d = x.
Proof. induction l1 as [|y l1 IH]; simpl; [reflexivity | exact IH]. Qed.

Lemma firstOccurrences_from (names earlier : list value) :
  map (fun i => nth i (earlier ++ names) JUndefined)
      (filter (Spec.isFirstOccurrence (earlier ++ names))
              (seq (List.length earlier) (List.length names)))
  = keepNew earlier names.
Proof.
  revert earlier. induction names as [|n names IH]; intros earlier.
  - reflexivity.
  - cbn [List.length seq filter keepNew].
    unfold Spec.isFirstOccurrence at 1.
    rewrite firstn_length_app, nth_length_app.
    change (existsb (fun e => sameValueZero n e) earlier) with (setHas earlier n).
    specialize (IH (earlier ++ [n])%list).
    rewrite <- app_assoc, length_app, Nat.add_1_r in IH. cbn [app] in IH.
    destruct (setHas earlier n); cbn [negb map].
    + exact IH.
    + now rewrite nth_length_app, IH.
Qed.

Lemma firstOccurrences_keepNew (names : list value) :
  Spec.firstOccurrences names = keepNew [] names.
Proof. exact (firstOccurrences_from names []). Qed.

Lemma keepNew_length (names earlier : list value) :
  List.length (keepNew earlier names) <= List.length names.
Proof.
  revert earlier. induction names as [|n names IH]; intros earlier; simpl; [lia |].
  specialize (IH (earlier ++ [n])%list). destruct (setHas earlier n); simpl; lia.
Qed.

Lemma keepNew_fresh (names earlier : list value) (y : value) :
  In y (keepNew earlier names) -> setHas earlier y = false.
Proof.
  revert earlier. induction names as [|n names IH]; intros earlier; simpl; [tauto |].
  destruct (setHas earlier n) eqn:E.
  - intros H. apply IH in H. rewrite setHas_app in H. now apply orb_false_elim in H.
  - intros [<- | H]; [assumption |].
    apply IH in H. rewrite setHas_app in H. now apply orb_false_elim in H.
Qed.

Lemma keepNew_distinct (names earlier : list value) :
  ForallOrdPairs (fun x y => sameValueZero y x = false) (keepNew earlier names).
Proof.
  revert earlier. induction names as [|n names IH]; intros earlier; simpl.
  - constructor.
  - destruct (setHas earlier n); [apply IH |].
    constructor; [| apply IH].
    apply Forall_forall. intros y Hy. apply keepNew_fresh in Hy.
    rewrite setHas_app, setHas_single in Hy. now apply orb_false_elim in Hy.
Qed.

Lemma keepNew_drop_seen (l1 l2 : list value) (n : value) :
  forall earlier,
    setHas (earlier ++ l1) n = true ->
    keepNew earlier (l1 ++ n :: l2) = keepNew earlier (l1 ++ l2).
Proof.
  induction l1 as [|x l1 IH]; intros earlier H.
  - rewrite app_nil_r in H. cbn [app keepNew]. rewrite H.
    apply keepNew_ext. intros y. now apply setHas_app_seen.
  - cbn [app keepNew].
    rewrite (IH (earlier ++ [x])%list) by (now rewrite <- app_assoc).
    reflexivity.
Qed.

Lemma sameNumber_refl (x : spec_float) : sameNumber x x = true.
Proof.
  destruct x; simpl; auto using Bool.eqb_reflx.
  now rewrite Bool.eqb_reflx, Pos.eqb_refl, Z.eqb_refl.
Qed.

Lemma sameValueZero_refl (x : value) : isPrimitive x = true -> sameValueZero x x = true.
Proof.
  destruct x; simpl; try discriminate; intros _; auto.
  - apply Bool.eqb_reflx.
  - apply sameNumber_refl.
  - apply String.eqb_refl.
Qed.

Lemma distinct_primitives (l : list value) :
  ForallOrdPairs (fun x y => sameValueZero y x = false) l ->
  NoDup (filter isPrimitive l).
Proof.
  induction 1 as [|x l Hx _ IH]; simpl; [constructor |].
  destruct (isPrimitive x) eqn:Hp; [| exact IH].
  constructor; [| exact IH].
  intros Hin. apply filter_In in Hin as [Hin _].
  rewrite Forall_forall in Hx. specialize (Hx _ Hin).
  rewrite (sameValueZero_refl _ Hp) in Hx. discriminate.
Qed.

Lemma displayName_annotateName (n : value) : displayName (annotateName n) = n.
Proof.
  unfold annotateName. destruct (extractKbDigits n) as [id|]; [| reflexivity].
  destruct (optTruthy (Some id)); reflexivity.
Qed.

Lemma map_displayName (names : list value) :
  map displayName (map annotateName names) = names.
Proof.
  induction names as [|n names IH]; simpl; [reflexivity |].
  now rewrite displayName_annotateName, IH.
Qed.

Lemma annotate_keepNew (sources names : list value) :
  Forall2 (fun s n => resolveName s = Ok n) sources names ->
  annotate sources = Ok (map annotateName (keepNew [] names)).
Proof.
  intros H. unfold annotate. now rewrite (collectNames_keepNew _ _ H).
Qed.

Lemma Forall2_In_l {A B : Type} (R : A -> B -> Prop) (l : list A) (l' : list B) (a : A) :
  Forall2 R l l' -> In a l -> exists b, In b l' /\ R a b.
Proof.
  induction 1 as [|x y l l' Hxy _ IH]; simpl; [tauto |].
  intros [<- | H].
  - exists y. auto.
  - destruct (IH H) as (b & Hb & HR). exists b. auto.
Qed.

(** C2. For every sequence of source records, [annotate] returns normally;
    the display names of its output are the resolved names of the input at
    their first occurrences, in the order of the input; the output is no
    longer than the input; no two entries have the same display name (under
    the equality of [Set]: no string, number or boolean is there twice, and
    names that are objects or arrays are told apart by reference); and a
    record whose name an earlier record already has is dropped, whatever
    else it holds: leaving it out of the input gives the same output. *)
Theorem annotate_first_occurrences (sources : list value) :
  exists names out,
    Forall2 (fun s n => resolveName s = Ok n) sources names
    /\ annotate sources = Ok out
    /\ map displayName out = Spec.firstOccurrences names
    /\ List.length out <= List.length sources
    /\ ForallOrdPairs (fun x y => sameValueZero y x = false) (map displayName out)
    /\ NoDup (filter isPrimitive (map displayName out))
    /\ (forall l1 s l2 n s' n',
           sources = (l1 ++ s :: l2)%list ->
           resolveName s = Ok n ->
           In s' l1 -> resolveName s' = Ok n' -> sameValueZero n n' = true ->
           annotate (l1 ++ l2) = Ok out).
Proof.
  destruct (resolveNames_total sources) as [names Hnames].
  exists names, (map annotateName (keepNew [] names)).
  rewrite map_displayName, firstOccurrences_keepNew.
  split; [assumption |].
  split; [now apply annotate_keepNew |].
  split; [reflexivity |].
  split.
  { rewrite length_map, (Forall2_length Hnames). apply keepNew_length. }
  split; [apply keepNew_distinct |].
  split; [apply distinct_primitives, keepNew_distinct |].
  intros l1 s l2 n s' n' -> Hs Hin Hs' Hsame.
  apply Forall2_app_inv_l in Hnames as (names1 & names2 & H1 & H2 & ->).
  inversion H2 as [|? n0 ? names2' Hs0 H2' ]; subst.
  assert (n0 = n) as -> by congruence.
  rewrite keepNew_drop_seen.
  - symmetry. rewrite (annotate_keepNew (l1 ++ l2) (names1 ++ names2')); [reflexivity |].
    now apply Forall2_app.
  - cbn [app]. destruct (Forall2_In_l _ _ _ _ H1 Hin) as (b & Hb & Hr).
    assert (b = n') as -> by congruence.
    apply existsb_exists. exists n'. auto.
Qed.

Lemma annotate_first_occurrences_witness :
  In recordA [recordA]
  /\ sameValueZero (JString "A") (JString "A") = true
  /\ annotate [recordA; recordB] = annotate [recordA; recordA'; recordB].
Proof.
  split; [now left | split; [reflexivity |]].
  destruct (annotate_first_occurrences [recordA; recordA'; recordB])
    as (names & out & _ & Hout & _ & _ & _ & _ & Hdrop).
  rewrite Hout.
  apply (Hdrop [recordA] recordA' [recordB] (JString "A") recordA (JString "A"));
    try reflexivity.
  now left.
Defined.

(** ** Links *)

Lemma encodeUnit_digit (c : ascii) :
  Str.isDigit c = true -> Builtin.encodeUnit c = String c EmptyString.
Proof. destruct c as [[] [] [] [] [] [] [] []]; intros H; try discriminate H; reflexivity. Qed.

Lemma encodeURIComponent_digits (s : string) :
  Str.all Str.isDigit s = true -> Builtin.encodeURIComponent s = s.
Proof.
  unfold Builtin.encodeURIComponent.
  induction s as [|c s IH]; simpl; [reflexivity |].
  intros H. apply andb_prop in H as [Hc Hs].
  now rewrite (encodeUnit_digit c Hc), IH.
Qed.

Lemma extractKbDigits_truthy (v : value) (id : string) :
  extractKbDigits v = Some id -> optTruthy (Some id) = true.
Proof.
  intros H. apply extractKbDigits_Some in H as (name & run & _ & _ & ->).
  pose proof (zeroPad9_length (Spec.stripLeadingZeros run)) as L.
  destruct (Spec.zeroPad9 _); [cbn [String.length] in L; lia | reflexivity].
Qed.

Lemma annotateName_Some (n : value) (id : string) :
  extractKbDigits n = Some id ->
  annotateName n =
  {| displayName := n; kbId := Some id;
     viewUrl := Some (viewBase ++ Builtin.encodeURIComponent id);
     downloadUrl := Some (downloadBase ++ Builtin.encodeURIComponent id) |}.
Proof.
  intros H. unfold annotateName. rewrite H.
  now rewrite (extractKbDigits_truthy _ _ H).
Qed.

Lemma annotateName_None (n : value) :
  extractKbDigits n = None ->
  annotateName n =
  {| displayName := n; kbId := None; viewUrl := None; downloadUrl := None |}.
Proof. intros H. unfold annotateName. now rewrite H. Qed.

Lemma kbId_annotateName (n : value) : kbId (annotateName n) = extractKbDigits n.
Proof.
  destruct (extractKbDigits n) as [id|] eqn:E.
  - now rewrite (annotateName_Some _ _ E).
  - now rewrite (annotateName_None _ E).
Qed.

(** The markup written for a name is the markup of its annotated source. *)
Lemma renderName_itemHtml (n : value) : renderName n = itemHtml (annotateName n).
Proof.
  unfold renderName, itemHtml.
  destruct (extractKbDigits n) as [id|] eqn:E.
  - rewrite (annotateName_Some _ _ E), (extractKbDigits_truthy _ _ E). reflexivity.
  - rewrite (annotateName_None _ E). reflexivity.
Qed.

Lemma annotate_In (sources : list value) (out : list AnnotatedSource) (a : AnnotatedSource) :
  annotate sources = Ok out -> In a out -> exists n, a = annotateName n.
Proof.
  unfold annotate. destruct (collectNames sources) as [names|e]; [| discriminate].
  cbn [rbind]. intros H. injection H as <-. intros Hin.
  apply in_map_iff in Hin as (n & <- & _). now exists n.
Qed.

(** C5. For every annotated source of every input: when [kbId] is null, so
    are [viewUrl] and [downloadUrl]; when [kbId] is an id, [viewUrl] is the
    article address followed by the encoded id and [downloadUrl] is
    ["/download_kb?kb="] followed by the encoded id; the encoding leaves the
    id as it is, so both links end with the same id. *)
Theorem annotate_links (sources : list value) (out : list AnnotatedSource)
        (a : AnnotatedSource) :
  annotate sources = Ok out ->
  In a out ->
  (kbId a = None -> viewUrl a = None /\ downloadUrl a = None)
  /\ (forall id,
         kbId a = Some id ->
         viewUrl a = Some (viewBase ++ Builtin.encodeURIComponent id)
         /\ downloadUrl a = Some (downloadBase ++ Builtin.encodeURIComponent id)
         /\ Builtin.encodeURIComponent id = id
         /\ (exists url, viewUrl a = Some url /\ Str.endsWith url id)
         /\ (exists url, downloadUrl a = Some url /\ Str.endsWith url id)).
Proof.
  intros Hout Hin. destruct (annotate_In _ _ _ Hout Hin) as [n ->].
  destruct (extractKbDigits n) as [id|] eqn:E.
  - rewrite (annotateName_Some _ _ E). cbn [kbId viewUrl downloadUrl].
    split; [discriminate |]. intros id' H. injection H as <-.
    assert (Henc : Builtin.encodeURIComponent id = id).
    { apply encodeURIComponent_digits. exact (extractKbDigits_digits _ _ E). }
    repeat split.
    + exact Henc.
    + eexists. split; [reflexivity |]. exists viewBase. now rewrite Henc.
    + eexists. split; [reflexivity |]. exists downloadBase. now rewrite Henc.
  - rewrite (annotateName_None _ E). cbn [kbId viewUrl downloadUrl].
    split; [auto | discriminate].
Qed.

Lemma annotate_links_witness :
  annotate sampleSources = Ok [kbSource; manualSource]
  /\ In kbSource [kbSource; manualSource]
  /\ (kbId kbSource = None -> viewUrl kbSource = None /\ downloadUrl kbSource = None)
  /\ (forall id,
         kbId kbSource = Some id ->
         viewUrl kbSource = Some (viewBase ++ Builtin.encodeURIComponent id)
         /\ downloadUrl kbSource = Some (downloadBase ++ Builtin.encodeURIComponent id)
         /\ Builtin.encodeURIComponent id = id
         /\ (exists url, viewUrl kbSource = Some url /\ Str.endsWith url id)
         /\ (exists url, downloadUrl kbSource = Some url /\ Str.endsWith url id)).
Proof.
  split; [reflexivity | split; [now left |]].
  exact (annotate_links sampleSources [kbSource; manualSource] kbSource
                        eq_refl (or_introl eq_refl)).
Defined.

Lemma firstTruthy_cases (fields : list (string * value)) :
  Spec.firstTruthy fields = JString EmptyString
  \/ (truthy (Spec.firstTruthy fields) = true
      /\ exists k, In k Spec.nameKeys /\ lookupField k fields = Spec.firstTruthy fields).
Proof.
  unfold Spec.firstTruthy.
  destruct (find truthy (map (fun k => lookupField k fields) Spec.nameKeys)) as [v|] eqn:E.
  - right. apply find_some in E as [Hin Hv]. apply in_map_iff in Hin as (k & Hk & Hin).
    split; [assumption |]. now exists k.
  - now left.
Qed.

Lemma annotate_total (sources : list value) : exists out, annotate sources = Ok out.
Proof.
  destruct (resolveNames_total sources) as [names H].
  eexists. apply annotate_keepNew. eassumption.
Qed.

(** C6 as stated does not hold: a name field that is a number is not turned
    into the empty string; it is kept as the display name, so that a record
    named by a number and a record without a name give two entries. *)
Lemma annotate_number_name_kept :
  exists a b,
    annotate [numberedRecord; JObject []] = Ok [a; b]
    /\ displayName a = JNumber number42
    /\ displayName a <> JString EmptyString
    /\ displayName b = JString EmptyString.
Proof. do 2 eexists. repeat split. discriminate. Qed.

(** C6, amended. [annotate] has no error condition: on every sequence of
    values it returns normally. The display name of a record is the empty
    string or a truthy value of one of its four name fields; it is the empty
    string for every record that is not an object or whose four name fields
    are all absent, null or otherwise falsy. A truthy name field that is not
    a string is kept as the display name, with no KB id and no link. *)
Theorem annotate_returns (sources : list value) :
  (exists out, annotate sources = Ok out)
  /\ (forall s,
         In s sources ->
         exists n,
           resolveName s = Ok n
           /\ (n = JString EmptyString
               \/ (truthy n = true
                   /\ exists fields k,
                       s = JObject fields /\ In k Spec.nameKeys
                       /\ lookupField k fields = n)))
  /\ (forall s,
         In s sources ->
         (forall fields k,
             s = JObject fields -> In k Spec.nameKeys ->
             truthy (lookupField k fields) = false) ->
         resolveName s = Ok (JString EmptyString))
  /\ (forall out a,
         annotate sources = Ok out -> In a out ->
         (forall str, displayName a <> JString str) ->
         kbId a = None /\ viewUrl a = None /\ downloadUrl a = None).
Proof.
  split; [apply annotate_total |]. split; [| split].
  - intros s _. destruct s as [| | b | x | str | items | fields];
      try (exists (JString EmptyString); split;
           [apply resolveName_other; intros; discriminate | now left]).
    exists (Spec.firstTruthy fields). split; [apply resolveName_object |].
    destruct (firstTruthy_cases fields) as [H | (Ht & k & Hk & Hl)]; [now left |].
    right. split; [assumption |]. now exists fields, k.
  - intros s _ H. destruct s as [| | b | x | str | items | fields];
      try (apply resolveName_other; intros; discriminate).
    rewrite resolveName_object. f_equal. apply firstTruthy_empty.
    intros k Hk. now apply (H fields k).
  - intros out a Hout Hin Hns. destruct (annotate_In _ _ _ Hout Hin) as [n ->].
    rewrite displayName_annotateName in Hns.
    destruct (extractKbDigits n) as [id|] eqn:E.
    + apply extractKbDigits_Some in E as (name & _ & -> & _). now elim (Hns name).
    + now rewrite (annotateName_None _ E).
Qed.

Lemma nullNameRecord_falsy (fields : list (string * value)) (k : string) :
  JObject nullNameRecord = JObject fields -> In k Spec.nameKeys ->
  truthy (lookupField k fields) = false.
Proof.
  intros H. injection H as <-.
  intros [<- | [<- | [<- | [<- | []]]]]; reflexivity.
Defined.

Lemma annotate_returns_witness :
  In (JObject nullNameRecord) [JObject nullNameRecord]
  /\ (forall fields k,
         JObject nullNameRecord = JObject fields -> In k Spec.nameKeys ->
         truthy (lookupField k fields) = false)
  /\ resolveName (JObject nullNameRecord) = Ok (JString EmptyString).
Proof.
  split; [now left | split; [exact nullNameRecord_falsy |]].
  exact (proj1 (proj2 (proj2 (annotate_returns [JObject nullNameRecord])))
               (JObject nullNameRecord) (or_introl eq_refl) nullNameRecord_falsy).
Defined.

(** ** One turn *)

(** Which values have a string form: an own [valueOf] does not matter, an
    own [toString] does, at any depth of arrays; [null] in an array is
    passed over. *)
Remark convertsToString_cases :
  convertsToString (JObject [("valueOf", JNull)]) = true
  /\ convertsToString (JObject [("text", JString "a"); ("toString", JString "a")]) = false
  /\ convertsToString (JArray [JNull; JArray [JObject []; JNumber number42]]) = true
  /\ convertsToString (JArray [JString "a"; JArray [JObject [("toString", JNull)]]]) = false.
Proof. repeat split. Qed.

Lemma getProp_Ok_any (data err : value) (k k' : string) :
  getProp data k = Ok err -> exists v, getProp data k' = Ok v.
Proof. destruct data; try discriminate; intros _; eexists; reflexivity. Qed.

Lemma collectNames_total (sources : list value) :
  exists names, collectNames sources = Ok names.
Proof.
  destruct (resolveNames_total sources) as [names H].
  eexists. apply collectNames_keepNew. eassumption.
Qed.

Lemma sourcesHtml_total (data err : value) (k : string) :
  getProp data k = Ok err -> exists html, sourcesHtml data = Ok html.
Proof.
  intros H. destruct (getProp_Ok_any _ _ _ "sources" H) as [v Hv].
  unfold sourcesHtml. rewrite Hv. cbn [rbind].
  destruct v; try (eexists; reflexivity).
  destruct (0 <? List.length items); [| eexists; reflexivity].
  destruct (collectNames_total items) as [names ->]. cbn [rbind].
  destruct (0 <? List.length names); eexists; reflexivity.
Qed.

Lemma session_ext (a b : session) :
  chat_history a = chat_history b -> chat a = chat b -> requests a = requests b ->
  questionValue a = questionValue b -> questionDisabled a = questionDisabled b ->
  sendDisabled a = sendDisabled b -> questionFocused a = questionFocused b ->
  a = b.
Proof. destruct a, b; simpl; intros; subst; reflexivity. Qed.

Ltac session_fields :=
  apply session_ext;
  cbn [chat_history chat requests questionValue questionDisabled sendDisabled
       questionFocused withFocus withDisabled withHistory withChat withRequest
       withQuestionValue];
  rewrite <- ?app_assoc; reflexivity.

Lemma pair_ext {A B : Type} (p : A * B) (a : A) (b : B) :
  fst p = a -> snd p = b -> p = (a, b).
Proof. destruct p; simpl; intros; subst; reflexivity. Qed.

(** The state after a turn that reached the answer. *)
Lemma sendQuestion_answer (data err v : value) (html : string) (st : session) :
  Builtin.trim (questionValue st) <> EmptyString ->
  getProp data "error" = Ok err -> truthy err = false ->
  getProp data "answer" = Ok v ->
  sourcesHtml data = Ok html ->
  let q := Builtin.trim (questionValue st) in
  let answer := if truthy v then v else JString defaultAnswer in
  sendQuestion (Resolves data) st =
  (if convertsToString answer
   then afterTurn q (answerMessage answer html) [(q, answer)] st
   else afterTurn q (failureMessage noPrimitive) [] st, Ok tt).
Proof.
  intros Hq Herr Hfalsy Hans Hhtml q answer. subst q answer.
  unfold sendQuestion, bind, gets.
  destruct (Builtin.trim (questionValue st)) as [|c q] eqn:E; [contradiction |].
  cbn [Str.isEmpty].
  unfold tryCatchFinally, pushMessage, bind, modify, await, ret, lift, jsOr, innerText.
  cbn beta iota.
  rewrite Herr, Hfalsy, Hans, Hhtml. cbn [rbind].
  unfold answerMessage, failureMessage, userMessage, afterTurn.
  destruct (truthy v); cbn beta iota;
    [destruct (convertsToString v) | change (convertsToString (JString defaultAnswer)) with true];
    destruct html; cbn beta iota;
    (apply pair_ext; [| reflexivity]); cbn [fst]; rewrite ?app_nil_r; session_fields.
Qed.

(** The state after a turn that did not reach the answer. *)
Lemma sendQuestion_no_answer (resp : response) (st : session) :
  Builtin.trim (questionValue st) <> EmptyString ->
  (forall data err, resp = Resolves data -> getProp data "error" = Ok err ->
                    truthy err = true) ->
  exists m,
    sendQuestion resp st = (afterTurn (Builtin.trim (questionValue st)) m [] st, Ok tt)
    /\ className m = "msg assistant" /\ metaEl m = None.
Proof.
  intros Hq Hcase. unfold sendQuestion, bind, gets.
  destruct (Builtin.trim (questionValue st)) as [|c q] eqn:E; [contradiction |].
  cbn [Str.isEmpty].
  unfold tryCatchFinally, pushMessage, bind, modify, await, ret, lift, innerText.
  cbn beta iota. unfold afterTurn.
  assert (Hreport : forall m : message,
             className m = "msg assistant" -> metaEl m = None ->
             forall run : session * result unit,
               fst run = {| chat_history := chat_history st;
                            chat := (chat st ++ [userMessage (String c q); m])%list;
                            requests := (requests st ++ [(String c q, chat_history st)])%list;
                            questionValue := EmptyString; questionDisabled := false;
                            sendDisabled := false; questionFocused := true |} ->
               snd run = Ok tt ->
               exists m,
                 run = ({| chat_history := (chat_history st ++ [])%list;
                           chat := (chat st ++ [userMessage (String c q); m])%list;
                           requests := (requests st ++ [(String c q, chat_history st)])%list;
                           questionValue := EmptyString; questionDisabled := false;
                           sendDisabled := false; questionFocused := true |}, Ok tt)
                 /\ className m = "msg assistant" /\ metaEl m = None).
  { intros m H1 H2 run Hfst Hsnd. exists m. split; [| split; assumption].
    rewrite app_nil_r. now apply pair_ext. }
  destruct resp as [e | data].
  - apply (Hreport (failureMessage e)); try reflexivity.
    cbn beta iota; cbn [fst]. session_fields.
  - destruct (getProp data "error") as [err | e] eqn:Herr; cbn [rbind].
    + rewrite (Hcase data err eq_refl Herr).
      destruct (getProp_Ok_any _ _ "error" "detail" Herr) as [d ->].
      unfold jsOr, concatText. cbn [rbind].
      destruct (truthy d); cbn [rbind].
      * destruct (convertsToString d); cbn [rbind].
        -- apply (Hreport {| className := "msg assistant";
                             bubble := TConcat "Error: " d; metaEl := None |});
             try reflexivity.
           cbn beta iota; cbn [fst]. session_fields.
        -- apply (Hreport (failureMessage noPrimitive)); try reflexivity.
           cbn beta iota; cbn [fst]. session_fields.
      * destruct (convertsToString err); cbn [rbind].
        -- apply (Hreport {| className := "msg assistant";
                             bubble := TConcat "Error: " err; metaEl := None |});
             try reflexivity.
           cbn beta iota; cbn [fst]. session_fields.
        -- apply (Hreport (failureMessage noPrimitive)); try reflexivity.
           cbn beta iota; cbn [fst]. session_fields.
    + apply (Hreport (failureMessage e)); try reflexivity.
      cbn beta iota; cbn [fst]. session_fields.
Qed.

(** C9, amended. In a turn with a question that is not blank,
    [chat_history] is left as it was when the request fails, when reading
    [data.error] throws and when the answer carries an error ([data.error]
    truthy). Otherwise, with [data.error] falsy, it grows by exactly the pair
    of the question and the answer when the answer can be shown, that is
    converted to a string, and is left as it was when it cannot. *)
Theorem sendQuestion_history_atomic (resp : response) (st : session) :
  Builtin.trim (questionValue st) <> EmptyString ->
  let q := Builtin.trim (questionValue st) in
  let st' := fst (sendQuestion resp st) in
  (forall e, resp = Fails e -> chat_history st' = chat_history st)
  /\ (forall data e,
         resp = Resolves data -> getProp data "error" = Throw e ->
         chat_history st' = chat_history st)
  /\ (forall data err,
         resp = Resolves data -> getProp data "error" = Ok err -> truthy err = true ->
         chat_history st' = chat_history st)
  /\ (forall data err,
         resp = Resolves data -> getProp data "error" = Ok err -> truthy err = false ->
         exists v,
           getProp data "answer" = Ok v
           /\ let answer := if truthy v then v else JString defaultAnswer in
              chat_history st'
              = if convertsToString answer
                then (chat_history st ++ [(q, answer)])%list
                else chat_history st).
Proof.
  intros Hq q st'. subst q st'.
  assert (Hno : (forall data err, resp = Resolves data -> getProp data "error" = Ok err ->
                                  truthy err = true) ->
                chat_history (fst (sendQuestion resp st)) = chat_history st).
  { intros Hcase. destruct (sendQuestion_no_answer resp st Hq Hcase) as (m & -> & _).
    cbn [fst afterTurn chat_history]. apply app_nil_r. }
  split; [| split; [| split]].
  - intros e ->. apply Hno. discriminate.
  - intros data e -> He. apply Hno. intros data' err H. injection H as <-. congruence.
  - intros data err -> He Ht. apply Hno. intros data' err' H. injection H as <-. congruence.
  - intros data err -> Herr Hfalsy.
    destruct (getProp_Ok_any _ _ _ "answer" Herr) as [v Hv].
    destruct (sourcesHtml_total _ _ _ Herr) as [html Hhtml].
    exists v. split; [assumption |]. cbv zeta.
    rewrite (sendQuestion_answer data err v html st Hq Herr Hfalsy Hv Hhtml).
    destruct (convertsToString (if truthy v then v else JString defaultAnswer));
      cbn [fst afterTurn chat_history]; [reflexivity | apply app_nil_r].
Qed.

Lemma askedSession_not_blank :
  Builtin.trim (questionValue askedSession) <> EmptyString.
Proof. vm_compute. discriminate. Defined.

Lemma sendQuestion_history_atomic_witness :
  Builtin.trim (questionValue askedSession) <> EmptyString
  /\ chat_history (fst (sendQuestion (Resolves answered) askedSession))
     = [("How do I export a sequence?", JString "Use File > Export.")].
Proof.
  split; [exact askedSession_not_blank |].
  destruct (proj2 (proj2 (proj2 (sendQuestion_history_atomic
                                   (Resolves answered) askedSession
                                   askedSession_not_blank)))
                  answered JUndefined eq_refl eq_refl eq_refl) as (v & Hv & H).
  vm_compute in Hv. injection Hv as <-. exact H.
Defined.

(** C9 as stated does not hold, in either half. A response whose [error] is
    there but is the empty string is taken as an answer, and the pair is
    recorded. A response without any [error] whose [answer] has no string
    form is not recorded: the turn shows the message of the [catch] branch
    instead. *)
Lemma sendQuestion_history_not_by_presence :
  (Spec.present (lookupField "error" emptyErrorFields) = true
   /\ chat_history (fst (sendQuestion (Resolves (JObject emptyErrorFields)) askedSession))
      = [("How do I export a sequence?", JString "x")]
   /\ chat_history (fst (sendQuestion (Resolves (JObject emptyErrorFields)) askedSession))
      <> chat_history askedSession)
  /\ (getProp unshownAnswer "error" = Ok JUndefined
      /\ truthy (lookupField "answer" unshownFields) = true
      /\ chat_history (fst (sendQuestion (Resolves unshownAnswer) askedSession))
         = chat_history askedSession
      /\ map bubble (chat (fst (sendQuestion (Resolves unshownAnswer) askedSession)))
         = [TLit "How do I export a sequence?";
            TError "Error calling backend: " noPrimitive]).
Proof. vm_compute. repeat split. discriminate. Qed.

(** ** Calls in any order *)

(** [metaHtml] is written from the annotated sources of [data.sources]
    alone. *)
Lemma sourcesHtml_annotate (data : value) (items : list value) :
  getProp data "sources" = Ok (JArray items) ->
  items <> [] ->
  exists out,
    annotate items = Ok out
    /\ sourcesHtml data = Ok (if 0 <? List.length out then sourcesBlock out else EmptyString).
Proof.
  intros Hs Hne. unfold sourcesHtml, annotate. rewrite Hs. cbn [rbind].
  destruct items as [|s items]; [contradiction |].
  change (0 <? List.length (s :: items)) with true. cbn beta iota.
  destruct (collectNames_total (s :: items)) as [names ->]. cbn [rbind].
  exists (map annotateName names). split; [reflexivity |].
  rewrite length_map. destruct (0 <? List.length names); [| reflexivity].
  unfold sourcesBlock. rewrite map_map.
  do 4 f_equal. apply map_ext. intros n. apply renderName_itemHtml.
Qed.

Lemma nth_error_fresh {A : Type} (h : list A) (o : A) (rest : list A) :
  nth_error (h ++ o :: rest)%list (List.length h) = Some o.
Proof. induction h as [|x h IH]; simpl; [reflexivity | exact IH]. Qed.

Lemma update_fresh (h : Objects.heap) (f : Objects.object -> Objects.object)
      (o : Objects.object) (rest : Objects.heap) :
  Objects.update (List.length h) f (h ++ o :: rest)%list = (h ++ f o :: rest)%list.
Proof. induction h as [|x h IH]; simpl; [reflexivity | now rewrite IH]. Qed.

(** Without the [g] flag, a search does not look at [lastIndex] and leaves
    the heap as it is. *)
Lemma regExpBuiltinExec_not_global (h : Objects.heap) (re : nat) (x : Objects.regExp)
      (s : string) :
  nth_error h re = Some (Objects.ORegExp x) -> Objects.global x = false ->
  Objects.regExpBuiltinExec re s h
  = (h, Ok (exec (Objects.ignoreCase x) (Objects.pattern x) s)).
Proof.
  intros Hre Hg.
  unfold Objects.regExpBuiltinExec, Objects.theRegExp, Handler.bind, Handler.ret.
  rewrite Hre, Hg. reflexivity.
Qed.

Lemma extractKbDigits_on_heap (filename : value) (h : Objects.heap) :
  exists made,
    Objects.extractKbDigits filename h = ((h ++ made)%list, Ok (extractKbDigits filename)).
Proof.
  unfold Objects.extractKbDigits, extractKbDigits.
  destruct (negb (truthy filename) || negb (String.eqb (typeof filename) "string")).
  { exists []. now rewrite app_nil_r. }
  destruct filename as [| | b | x | name | items | fields];
    try (exists []; now rewrite app_nil_r).
  unfold Objects.regExpLiteral, Objects.alloc, Objects.stringMatch, Objects.stringReplace,
    Handler.bind, Handler.ret.
  erewrite regExpBuiltinExec_not_global; [| apply (nth_error_fresh h _ []) | reflexivity].
  cbn [Objects.ignoreCase Objects.pattern].
  destruct (exec true kbPattern name) as [m |]; [| eexists; reflexivity].
  erewrite regExpBuiltinExec_not_global;
    [| apply (nth_error_fresh (h ++ [_])%list _ []) | reflexivity].
  cbn [Objects.ignoreCase Objects.pattern].
  eexists. rewrite <- app_assoc. reflexivity.
Qed.

Lemma mapEach_annotateName (names : list value) (h : Objects.heap) :
  exists made,
    Objects.mapEach Objects.annotateName names h
    = ((h ++ made)%list, Ok (map annotateName names)).
Proof.
  revert h. induction names as [|nm names IH]; intros h.
  - exists []. cbn. now rewrite app_nil_r.
  - cbn [Objects.mapEach map]. unfold Handler.bind at 1. unfold Objects.annotateName at 1.
    unfold Handler.bind at 1.
    destruct (extractKbDigits_on_heap nm h) as [made1 ->].
    unfold Handler.ret at 1. unfold Handler.bind.
    destruct (IH (h ++ made1)%list) as [made2 ->].
    exists (made1 ++ made2)%list. rewrite <- app_assoc. reflexivity.
Qed.

Lemma bind_ok {S A B : Type} (m : @Handler.run S A) (f : A -> @Handler.run S B)
      (st st' : S) (a : A) :
  m st = (st', Ok a) -> Handler.bind m f st = f a st'.
Proof. intros H. unfold Handler.bind. now rewrite H. Qed.

Lemma has_fresh (h : Objects.heap) (seen : list value) (rest : Objects.heap) (x : value) :
  Objects.has (List.length h) x (h ++ Objects.OSet seen :: rest)%list
  = ((h ++ Objects.OSet seen :: rest)%list, Ok (setHas seen x)).
Proof. unfold Objects.has. now rewrite nth_error_fresh. Qed.

Lemma add_fresh (h : Objects.heap) (seen : list value) (rest : Objects.heap) (x : value) :
  Objects.add (List.length h) x (h ++ Objects.OSet seen :: rest)%list
  = ((h ++ Objects.OSet (setAdd seen x) :: rest)%list, Ok tt).
Proof. unfold Objects.add, Handler.modify. now rewrite update_fresh. Qed.

Lemma second_fresh (h : Objects.heap) (o : Objects.object) :
  S (List.length h) = List.length (h ++ [o])%list.
Proof. rewrite length_app. simpl. lia. Qed.

Lemma push_fresh (h : Objects.heap) (o : Objects.object) (names : list value) (x : value) :
  Objects.push (S (List.length h)) x (h ++ [o; Objects.OArray names])%list
  = ((h ++ [o; Objects.OArray (names ++ [x])])%list, Ok tt).
Proof.
  unfold Objects.push, Handler.modify. rewrite (second_fresh h o).
  change (h ++ [o; Objects.OArray names])%list
    with (h ++ [o] ++ [Objects.OArray names])%list.
  rewrite app_assoc, update_fresh, <- app_assoc. reflexivity.
Qed.

Lemma itemsOf_fresh (h : Objects.heap) (o : Objects.object) (names : list value) :
  Objects.itemsOf (S (List.length h)) (h ++ [o; Objects.OArray names])%list
  = ((h ++ [o; Objects.OArray names])%list, Ok names).
Proof.
  unfold Objects.itemsOf. rewrite (second_fresh h o).
  change (h ++ [o; Objects.OArray names])%list
    with (h ++ [o] ++ [Objects.OArray names])%list.
  rewrite app_assoc, nth_error_fresh. reflexivity.
Qed.

(** The first loop, from the [Set] and the array it has reached. *)
Lemma forEach_on_heap (sources : list value) (h : Objects.heap) (seen names : list value) :
  exists seen' names',
    forEach collectStep sources (seen, names) = Ok (seen', names')
    /\ Objects.forEach
         (fun s =>
            (rawName <- Handler.lift (resolveName s) ;;
             known <- Objects.has (List.length h) rawName ;;
             if negb known
             then Objects.add (List.length h) rawName ;;;
                  Objects.push (S (List.length h)) rawName
             else Handler.ret tt)%handler)
         sources (h ++ [Objects.OSet seen; Objects.OArray names])%list
       = ((h ++ [Objects.OSet seen'; Objects.OArray names'])%list, Ok tt).
Proof.
  revert seen names. induction sources as [|s sources IH]; intros seen names.
  - exists seen, names. split; reflexivity.
  - cbn [forEach Objects.forEach]. unfold collectStep at 1.
    destruct (resolveName_total s) as [n Hn]. rewrite Hn. cbn [rbind].
    destruct (setHas seen n) eqn:Hhas; cbn [negb rbind].
    + destruct (IH seen names) as (seen' & names' & H1 & H2).
      exists seen', names'. split; [exact H1 |]. rewrite <- H2.
      erewrite bind_ok; [reflexivity |].
      erewrite bind_ok by reflexivity.
      erewrite bind_ok by apply has_fresh. rewrite Hhas. reflexivity.
    + destruct (IH (setAdd seen n) (names ++ [n])%list) as (seen' & names' & H1 & H2).
      exists seen', names'. split; [exact H1 |]. rewrite <- H2.
      erewrite bind_ok; [reflexivity |].
      erewrite bind_ok by reflexivity.
      erewrite bind_ok by apply has_fresh. rewrite Hhas. cbn [negb].
      erewrite bind_ok by apply add_fresh. apply push_fresh.
Qed.

Lemma collectNames_on_heap (sources : list value) (h : Objects.heap) :
  exists seen names,
    collectNames sources = Ok names
    /\ Objects.collectNames sources h
       = ((h ++ [Objects.OSet seen; Objects.OArray names])%list, Ok (S (List.length h))).
Proof.
  destruct (forEach_on_heap sources h [] []) as (seen & names & Hpure & Hloop).
  exists seen, names. split.
  - unfold collectNames. now rewrite Hpure.
  - unfold Objects.collectNames, Objects.newSet, Objects.newArray.
    erewrite bind_ok by reflexivity.
    erewrite bind_ok by reflexivity.
    rewrite <- (second_fresh h (Objects.OSet [])), <- app_assoc. cbn [app].
    erewrite bind_ok by exact Hloop. reflexivity.
Qed.

Lemma annotate_on_heap (sources : list value) (h : Objects.heap) :
  exists made,
    Objects.annotate sources h = ((h ++ made)%list, annotate sources).
Proof.
  destruct (collectNames_on_heap sources h) as (seen & names & Hpure & Hrun).
  destruct (mapEach_annotateName names (h ++ [Objects.OSet seen; Objects.OArray names])%list)
    as [made Hmap].
  exists ([Objects.OSet seen; Objects.OArray names] ++ made)%list.
  unfold Objects.annotate, annotate. rewrite Hpure. cbn [rbind].
  erewrite bind_ok by exact Hrun.
  erewrite bind_ok by apply itemsOf_fresh.
  rewrite Hmap, <- app_assoc. reflexivity.
Qed.

(** A call returns what the function of its argument alone gives. *)
Lemma perform_on_heap (c : Objects.call) (h : Objects.heap) :
  exists made,
    Objects.perform c h
    = ((h ++ made)%list,
       match c with
       | Objects.CallExtractKbDigits filename =>
           Objects.Extracted (Ok (extractKbDigits filename))
       | Objects.CallAnnotate sources => Objects.Annotated (annotate sources)
       end).
Proof.
  destruct c as [filename | sources]; cbn [Objects.perform].
  - destruct (extractKbDigits_on_heap filename h) as [made ->]. now exists made.
  - destruct (annotate_on_heap sources h) as [made ->]. now exists made.
Qed.

(** C7. Calls keep no state. The regular expressions, the [Set] and the
    array of a call are made by the call: whatever the heap holds when a call
    begins, and so after any calls made before it in any order,
    [extractKbDigits] returns the value that depends on its argument alone,
    the annotated sources are those that depend on the sources given alone,
    and no regular expression, [Set] or array that was on the heap is
    changed. *)
Theorem calls_have_no_hidden_state :
  (forall (before1 before2 : list Objects.call) (h1 h2 : Objects.heap) (c : Objects.call),
      snd (Objects.perform c (Objects.performAll before1 h1))
      = snd (Objects.perform c (Objects.performAll before2 h2)))
  /\ (forall (h : Objects.heap) (filename : value),
         snd (Objects.extractKbDigits filename h) = Ok (extractKbDigits filename))
  /\ (forall (h : Objects.heap) (sources : list value),
         snd (Objects.annotate sources h) = annotate sources)
  /\ (forall (h : Objects.heap) (c : Objects.call),
         firstn (List.length h) (fst (Objects.perform c h)) = h).
Proof.
  split; [| split; [| split]].
  - intros before1 before2 h1 h2 c.
    destruct (perform_on_heap c (Objects.performAll before1 h1)) as [made1 ->].
    destruct (perform_on_heap c (Objects.performAll before2 h2)) as [made2 ->].
    reflexivity.
  - intros h filename. now destruct (extractKbDigits_on_heap filename h) as [made ->].
  - intros h sources. now destruct (annotate_on_heap sources h) as [made ->].
  - intros h c. destruct (perform_on_heap c h) as [made ->]. cbn [fst].
    rewrite firstn_app, Nat.sub_diag, firstn_all. cbn [firstn]. apply app_nil_r.
Qed.

(** A regular expression with the [g] flag that is kept from one search to
    the next does remember: the heap tells such a state apart. *)
Remark regExpBuiltinExec_global_remembers :
  let kept := [Objects.ORegExp {| Objects.pattern := kbPattern; Objects.ignoreCase := true;
                                  Objects.global := true; Objects.lastIndex := 0 |}] in
  let first := Objects.regExpBuiltinExec 0 "KB123" kept in
  let second := Objects.regExpBuiltinExec 0 "KB123" (fst first) in
  (exists m, snd first = Ok (Some m)) /\ snd second = Ok None.
Proof. cbv zeta. split; [eexists |]; vm_compute; reflexivity. Qed.

(** ** escapeHtml *)

Lemma flatMap_append (f : ascii -> string) (a b : string) :
  Str.flatMap f (a ++ b) = Str.flatMap f a ++ Str.flatMap f b.
Proof.
  induction a as [|c a IH]; simpl; [reflexivity |].
  now rewrite IH, append_assoc.
Qed.

Lemma flatMap_flatMap (f g : ascii -> string) (s : string) :
  Str.flatMap f (Str.flatMap g s) = Str.flatMap (fun c => Str.flatMap f (g c)) s.
Proof.
  induction s as [|c s IH]; simpl; [reflexivity |].
  now rewrite flatMap_append, IH.
Qed.

Lemma flatMap_ext (f g : ascii -> string) (s : string) :
  (forall c, f c = g c) -> Str.flatMap f s = Str.flatMap g s.
Proof.
  intros H. induction s as [|c s IH]; simpl; [reflexivity |].
  now rewrite H, IH.
Qed.

Lemma any_append (p : ascii -> bool) (a b : string) :
  Str.any p (a ++ b) = Str.any p a || Str.any p b.
Proof.
  induction a as [|c a IH]; simpl; [reflexivity |].
  now rewrite IH, orb_assoc.
Qed.

Lemma any_flatMap (p : ascii -> bool) (f : ascii -> string) (s : string) :
  (forall c, Str.any p (f c) = false) -> Str.any p (Str.flatMap f s) = false.
Proof.
  intros H. induction s as [|c s IH]; simpl; [reflexivity |].
  now rewrite any_append, H, IH.
Qed.

Lemma replaceAll_char (p : ascii) (replacement s : string) :
  replaceAll false (RAtom (AChar p)) replacement s
  = Str.flatMap (substChar p replacement) s.
Proof.
  unfold replaceAll. generalize 0 at 1 as i.
  induction s as [|c s IH]; intros i.
  - reflexivity.
  - cbn [replaceGo Str.flatMap]. unfold matchAt. cbn [matchK].
    rewrite atomMatches_char. unfold substChar at 1.
    destruct (Ascii.eqb p c).
    + cbn [m_end].
      replace (S i =? i) with false by (symmetry; apply Nat.eqb_neq; lia).
      replace (S i - i - 1) with 0 by lia.
      now rewrite IH.
    + now rewrite IH.
Qed.

Lemma escapeHtml_entities (s : string) :
  escapeHtml (JString s) = Str.flatMap Spec.entity s.
Proof.
  unfold escapeHtml. rewrite !replaceAll_char, !flatMap_flatMap.
  apply flatMap_ext. intros c.
  destruct c as [[] [] [] [] [] [] [] []]; reflexivity.
Qed.

Lemma entity_no_markup (c : ascii) : Str.any isMarkup (Spec.entity c) = false.
Proof. destruct c as [[] [] [] [] [] [] [] []]; reflexivity. Qed.

(** C10. On a string, [escapeHtml] returns the string with each of [&], [<],
    [>], the double quote and the apostrophe replaced by its entity, every
    character of the input once (the entities written are not escaped
    again), so its output holds no [<], [>], double quote or apostrophe; on
    a value that is not a string it returns the empty string. *)
Theorem escapeHtml_no_markup :
  (forall s,
      escapeHtml (JString s) = Str.flatMap Spec.entity s
      /\ Str.any isMarkup (escapeHtml (JString s)) = false)
  /\ (forall v, (forall s, v <> JString s) -> escapeHtml v = EmptyString).
Proof.
  split.
  - intros s. split; [apply escapeHtml_entities |].
    rewrite escapeHtml_entities. apply any_flatMap, entity_no_markup.
  - intros v H. destruct v; try reflexivity. now elim (H s).
Qed.

Lemma nan_not_string (s : string) : JNumber S754_nan <> JString s.
Proof. discriminate. Defined.

Lemma escapeHtml_no_markup_witness :
  (forall s, JNumber S754_nan <> JString s)
  /\ escapeHtml (JNumber S754_nan) = EmptyString.
Proof.
  split; [exact nan_not_string |].
  exact (proj2 escapeHtml_no_markup (JNumber S754_nan) nan_not_string).
Defined.

(** * Further properties *)

(** ** The id of a name *)

Lemma dropWhile_replicate_zero (n : nat) (s : string) :
  Str.dropWhile Spec.isZero (Str.replicate n "0" ++ s) = Str.dropWhile Spec.isZero s.
Proof. induction n as [|n IH]; simpl; [reflexivity | exact IH]. Qed.

Lemma dropWhile_idem (p : ascii -> bool) (s : string) :
  Str.dropWhile p (Str.dropWhile p s) = Str.dropWhile p s.
Proof.
  induction s as [|c s IH]; simpl; [reflexivity |].
  destruct (p c) eqn:E; [exact IH | simpl; now rewrite E].
Qed.

Lemma dropWhile_all (p : ascii -> bool) (s : string) :
  Str.all p s = true -> Str.dropWhile p s = EmptyString.
Proof.
  induction s as [|c s IH]; simpl; [reflexivity |].
  intros H. apply andb_prop in H as [Hc Hs]. now rewrite Hc, IH.
Qed.

Lemma dropWhile_stripLeadingZeros (run : string) :
  Str.dropWhile Spec.isZero (Spec.stripLeadingZeros run) = Str.dropWhile Spec.isZero run.
Proof.
  unfold Spec.stripLeadingZeros.
  destruct (Str.all Spec.isZero run); [reflexivity | apply dropWhile_idem].
Qed.

Lemma dropWhile_zeroPad9 (s : string) :
  Str.dropWhile Spec.isZero (Spec.zeroPad9 s) = Str.dropWhile Spec.isZero s.
Proof. apply dropWhile_replicate_zero. Qed.

(** The stripped run is made of zeros only, or begins with another digit. *)
Lemma stripLeadingZeros_cases (run : string) :
  Str.all Spec.isZero (Spec.stripLeadingZeros run) = true
  \/ exists c r, Spec.stripLeadingZeros run = String c r /\ Spec.isZero c = false.
Proof.
  unfold Spec.stripLeadingZeros.
  destruct (Str.all Spec.isZero run) eqn:E; [left; exact E |].
  right. induction run as [|c run IH]; simpl in *; [discriminate |].
  destruct (Spec.isZero c) eqn:Ec; simpl in E.
  - apply IH, E.
  - now exists c, run.
Qed.

Lemma zeroPad9_stripLeadingZeros_fixed (run : string) :
  Spec.zeroPad9 (Spec.stripLeadingZeros (Spec.zeroPad9 (Spec.stripLeadingZeros run)))
  = Spec.zeroPad9 (Spec.stripLeadingZeros run).
Proof.
  destruct (stripLeadingZeros_cases run) as [Hz | (c & r & Hr & Hc)].
  - assert (Hall : Str.all Spec.isZero (Spec.zeroPad9 (Spec.stripLeadingZeros run)) = true).
    { unfold Spec.zeroPad9. rewrite all_append, Hz, all_replicate; reflexivity. }
    unfold Spec.stripLeadingZeros at 1. rewrite Hall.
    apply zeroPad9_long. rewrite zeroPad9_length. lia.
  - rewrite Hr.
    assert (Hstrip : Spec.stripLeadingZeros (Spec.zeroPad9 (String c r)) = String c r).
    { unfold Spec.stripLeadingZeros.
      assert (Hall : Str.all Spec.isZero (Spec.zeroPad9 (String c r)) = false).
      { unfold Spec.zeroPad9. rewrite all_append. simpl. rewrite Hc.
        now rewrite andb_false_r. }
      rewrite Hall, dropWhile_zeroPad9. simpl. now rewrite Hc. }
    now rewrite Hstrip.
Qed.

Lemma takeWhile_all_id (p : ascii -> bool) (s : string) :
  Str.all p s = true -> Str.takeWhile p s = s.
Proof.
  induction s as [|c s IH]; simpl; [reflexivity |].
  intros H. apply andb_prop in H as [Hc Hs]. now rewrite Hc, IH.
Qed.

(** X1. An id [extractKbDigits] returned is a fixed point: on [KB], in
    either case and with any of the separators, followed by that id, it
    returns the same id. *)
Theorem extractKbDigits_id_fixed (v : value) (id : string) (k b : ascii) (sep : string) :
  extractKbDigits v = Some id ->
  (k = "K" \/ k = "k")%char ->
  (b = "B" \/ b = "b")%char ->
  (sep = EmptyString \/ sep = "_" \/ sep = "-") ->
  extractKbDigits (JString (String k (String b (sep ++ id)))) = Some id.
Proof.
  intros H Hk Hb Hsep.
  pose proof (extractKbDigits_digits _ _ H) as Hd.
  apply extractKbDigits_Some in H as (name & run & _ & _ & ->).
  rewrite extractKbDigits_search. cbn [Aux.kbSearch Aux.kbRunAt].
  apply isK_iff in Hk. apply isB_iff in Hb. rewrite Hk, Hb. cbn [andb].
  assert (Hlen : 3 <= String.length (Spec.zeroPad9 (Spec.stripLeadingZeros run))).
  { rewrite zeroPad9_length. lia. }
  assert (Hafter : Aux.afterSep (sep ++ Spec.zeroPad9 (Spec.stripLeadingZeros run))
                   = Spec.zeroPad9 (Spec.stripLeadingZeros run)).
  { pose proof (afterSep_occurrence sep _ EmptyString Hsep Hd Hlen) as Ha.
    now rewrite !append_nil_r in Ha. }
  rewrite Hafter, takeWhile_all_id by assumption.
  destruct (3 <=? _) eqn:E; [| apply Nat.leb_gt in E; lia].
  cbn [option_map]. now rewrite zeroPad9_stripLeadingZeros_fixed.
Qed.

Lemma extractKbDigits_id_fixed_witness :
  extractKbDigits (JString "KB_000123456.pdf") = Some "000123456"
  /\ extractKbDigits (JString "kB-000123456") = Some "000123456".
Proof.
  split; [reflexivity |].
  apply (extractKbDigits_id_fixed (JString "KB_000123456.pdf") "000123456"
                                  "k"%char "B"%char "-");
    auto.
Defined.

(** X2. The id differs from the digits of the first match by leading zeros
    only: with the leading zeros taken off, the two are the same. *)
Theorem extractKbDigits_same_number (v : value) (id : string) :
  extractKbDigits v = Some id ->
  exists name run,
    v = JString name /\ Spec.firstKbRun name run
    /\ Str.dropWhile Spec.isZero id = Str.dropWhile Spec.isZero run.
Proof.
  intros H. apply extractKbDigits_Some in H as (name & run & -> & Hrun & ->).
  exists name, run. repeat split; [assumption |].
  now rewrite dropWhile_zeroPad9, dropWhile_stripLeadingZeros.
Qed.

Lemma extractKbDigits_same_number_witness :
  extractKbDigits (JString "KB_000123456.pdf") = Some "000123456"
  /\ exists name run,
       JString "KB_000123456.pdf" = JString name /\ Spec.firstKbRun name run
       /\ Str.dropWhile Spec.isZero "000123456" = Str.dropWhile Spec.isZero run.
Proof.
  split; [reflexivity |].
  apply (extractKbDigits_same_number (JString "KB_000123456.pdf") "000123456").
  reflexivity.
Defined.

(** *** Letter case *)

Lemma atomMatches_folded (a : atom) (x y : ascii) :
  canonicalize x = canonicalize y -> atomMatches true a x = atomMatches true a y.
Proof.
  intros H. unfold atomMatches, sameChar. now rewrite H.
Qed.

Lemma canonicalize_digit (x y : ascii) :
  canonicalize x = canonicalize y -> Str.isDigit x = true -> x = y.
Proof.
  intros H Hd.
  destruct x as [[] [] [] [] [] [] [] []]; try discriminate Hd;
    destruct y as [[] [] [] [] [] [] [] []]; try discriminate H; reflexivity.
Qed.

Lemma sameFolded_cons (x y : ascii) (a b : string) :
  sameFolded (String x a) (String y b) = true ->
  canonicalize x = canonicalize y /\ sameFolded a b = true.
Proof.
  simpl. intros H. apply andb_prop in H as [H1 H2].
  apply N.eqb_eq in H1. auto.
Qed.

Lemma takeWhile_digit_folded (a b : string) :
  sameFolded a b = true ->
  Str.takeWhile Str.isDigit a = Str.takeWhile Str.isDigit b.
Proof.
  revert b. induction a as [|x a IH]; intros [|y b] H; try discriminate H.
  - reflexivity.
  - apply sameFolded_cons in H as [Hc H]. simpl.
    rewrite <- !(atomMatches_digit true), (atomMatches_folded ADigit x y Hc).
    destruct (atomMatches true ADigit y) eqn:E; [| reflexivity].
    rewrite <- (atomMatches_folded ADigit x y Hc), atomMatches_digit in E.
    rewrite (canonicalize_digit x y Hc E), (IH b H). reflexivity.
Qed.

Lemma afterSep_folded (a b : string) :
  sameFolded a b = true -> sameFolded (Aux.afterSep a) (Aux.afterSep b) = true.
Proof.
  destruct a as [|x a], b as [|y b]; intros H; try discriminate H; [reflexivity |].
  pose proof H as H'. apply sameFolded_cons in H' as [Hc Ht].
  cbn [Aux.afterSep]. rewrite <- !atomMatches_sep, (atomMatches_folded _ x y Hc).
  destruct (atomMatches true _ y); assumption.
Qed.

Lemma kbRunAt_folded (a b : string) :
  sameFolded a b = true -> Aux.kbRunAt a = Aux.kbRunAt b.
Proof.
  destruct a as [|x [|x' a]], b as [|y [|y' b]]; intros H; try discriminate H;
    try reflexivity.
  - simpl in H. rewrite andb_false_r in H. discriminate.
  - simpl in H. rewrite andb_false_r in H. discriminate.
  - apply sameFolded_cons in H as [Hc H]. apply sameFolded_cons in H as [Hc' H].
    cbn [Aux.kbRunAt].
    rewrite <- !atomMatches_K, <- !atomMatches_B,
      (atomMatches_folded _ x y Hc), (atomMatches_folded _ x' y' Hc').
    now rewrite (takeWhile_digit_folded _ _ (afterSep_folded _ _ H)).
Qed.

Lemma kbSearch_folded (a b : string) :
  sameFolded a b = true -> Aux.kbSearch a = Aux.kbSearch b.
Proof.
  revert b. induction a as [|x a IH]; intros [|y b] H; try discriminate H.
  - reflexivity.
  - cbn [Aux.kbSearch]. rewrite (kbRunAt_folded _ _ H).
    apply sameFolded_cons in H as [_ H]. now rewrite (IH b H).
Qed.

(** X3. Two names that differ only in the case of their letters get the same
    result. *)
Theorem extractKbDigits_ignores_case (a b : string) :
  sameFolded a b = true ->
  extractKbDigits (JString a) = extractKbDigits (JString b).
Proof.
  intros H. rewrite !extractKbDigits_search. now rewrite (kbSearch_folded _ _ H).
Qed.

Lemma extractKbDigits_ignores_case_witness :
  sameFolded "Scan kb_0042 Final.PDF" "SCAN KB_0042 final.pdf" = true
  /\ extractKbDigits (JString "Scan kb_0042 Final.PDF")
     = extractKbDigits (JString "SCAN KB_0042 final.pdf").
Proof.
  split; [reflexivity |].
  apply extractKbDigits_ignores_case. reflexivity.
Defined.
(** ** Escaped text *)

Lemma unescapeGo_entity (c : ascii) (t : string) :
  unescapeGo 0 (Spec.entity c ++ t) = String c (unescapeGo 0 t).
Proof. destruct c as [[] [] [] [] [] [] [] []]; destruct t; reflexivity. Qed.

Lemma unescapeHtml_flatMap (s : string) :
  unescapeHtml (Str.flatMap Spec.entity s) = s.
Proof.
  unfold unescapeHtml. induction s as [|c s IH]; [reflexivity |].
  cbn [Str.flatMap]. now rewrite unescapeGo_entity, IH.
Qed.

(** X4. Reading the five entities back gives the string that was escaped,
    so [escapeHtml] sends different strings to different texts. *)
Theorem escapeHtml_read_back :
  (forall s, unescapeHtml (escapeHtml (JString s)) = s)
  /\ (forall a b, escapeHtml (JString a) = escapeHtml (JString b) -> a = b).
Proof.
  assert (H : forall s, unescapeHtml (escapeHtml (JString s)) = s).
  { intros s. rewrite escapeHtml_entities. apply unescapeHtml_flatMap. }
  split; [exact H |].
  intros a b E. rewrite <- (H a), <- (H b). now rewrite E.
Qed.

Lemma escapeHtml_read_back_witness :
  escapeHtml (JString "a<b>&amp;") = escapeHtml (JString "a<b>&amp;")
  /\ unescapeHtml (escapeHtml (JString "a<b>&amp;")) = "a<b>&amp;".
Proof.
  split; [reflexivity |].
  exact (proj1 escapeHtml_read_back "a<b>&amp;").
Defined.

Lemma entity_plain (c : ascii) :
  isSpecial c = false -> Spec.entity c = String c EmptyString.
Proof.
  destruct c as [[] [] [] [] [] [] [] []]; intros H; try discriminate H; reflexivity.
Qed.

Lemma entity_length (c : ascii) :
  (if isSpecial c then 4 else 1) <= String.length (Spec.entity c).
Proof.
  destruct c as [[] [] [] [] [] [] [] []]; vm_compute; repeat constructor.
Qed.

Lemma flatMap_entity_length (s : string) :
  String.length s + 3 * countIf isSpecial s <= String.length (Str.flatMap Spec.entity s).
Proof.
  induction s as [|c s IH]; [simpl; lia |].
  cbn [Str.flatMap countIf String.length]. rewrite length_append.
  pose proof (entity_length c) as H. destruct (isSpecial c); lia.
Qed.

Lemma countIf_any (p : ascii -> bool) (s : string) :
  countIf p s = 0 <-> Str.any p s = false.
Proof.
  induction s as [|c s IH]; simpl; [tauto |].
  destruct (p c); simpl; [split; [lia | discriminate] | exact IH].
Qed.

Lemma flatMap_entity_plain (s : string) :
  Str.any isSpecial s = false -> Str.flatMap Spec.entity s = s.
Proof.
  induction s as [|c s IH]; simpl; [reflexivity |].
  intros H. apply orb_false_elim in H as [Hc Hs].
  now rewrite (entity_plain c Hc), IH.
Qed.

(** X5. [escapeHtml] leaves a string as it is exactly when the string has
    none of the five characters; each of them makes the text at least three
    characters longer; and the text of a concatenation is the concatenation
    of the texts. *)
Theorem escapeHtml_unchanged_iff (s : string) :
  (escapeHtml (JString s) = s <-> Str.any isSpecial s = false)
  /\ String.length s + 3 * countIf isSpecial s <= String.length (escapeHtml (JString s))
  /\ (forall t, escapeHtml (JString (s ++ t))
                = escapeHtml (JString s) ++ escapeHtml (JString t)).
Proof.
  rewrite escapeHtml_entities. split; [| split].
  - split.
    + intros H. apply countIf_any.
      pose proof (flatMap_entity_length s) as L. rewrite H in L. lia.
    + apply flatMap_entity_plain.
  - apply flatMap_entity_length.
  - intros t. rewrite !escapeHtml_entities. apply flatMap_append.
Qed.

Lemma escapeHtml_unchanged_iff_witness :
  Str.any isSpecial "KB_000123456.pdf" = false
  /\ escapeHtml (JString "KB_000123456.pdf") = "KB_000123456.pdf".
Proof.
  split; [reflexivity |].
  exact (proj2 (proj1 (escapeHtml_unchanged_iff "KB_000123456.pdf")) eq_refl).
Defined.

(** ** The markup of a name *)

Lemma countIf_append (p : ascii -> bool) (a b : string) :
  countIf p (a ++ b) = countIf p a + countIf p b.
Proof.
  induction a as [|c a IH]; simpl; [reflexivity |]. rewrite IH. lia.
Qed.

Lemma countIf_markup_escapeHtml (v : value) : countIf isMarkup (escapeHtml v) = 0.
Proof.
  apply countIf_any. destruct v; try reflexivity.
  rewrite escapeHtml_entities. apply any_flatMap, entity_no_markup.
Qed.

Lemma isDigit_not_markup (c : ascii) : Str.isDigit c = true -> isMarkup c = false.
Proof.
  destruct c as [[] [] [] [] [] [] [] []]; intros H; try discriminate H; reflexivity.
Qed.

Lemma countIf_markup_digits (s : string) :
  Str.all Str.isDigit s = true -> countIf isMarkup s = 0.
Proof.
  induction s as [|c s IH]; simpl; [reflexivity |].
  intros H. apply andb_prop in H as [Hc Hs].
  now rewrite (isDigit_not_markup c Hc), IH.
Qed.

(** X6. Whatever the name, the markup written for it has a fixed number of
    [<], [>], double quotes and apostrophes: 34 for a name with a KB id, 10
    for any other; a name cannot open or close a tag or an attribute. *)
Theorem renderName_markup_fixed (nm : value) :
  countIf isMarkup (renderName nm)
  = match extractKbDigits nm with
    | Some _ => 34
    | None => 10
    end.
Proof.
  unfold renderName.
  destruct (extractKbDigits nm) as [id|] eqn:E.
  - rewrite (extractKbDigits_truthy _ _ E).
    rewrite (encodeURIComponent_digits id (extractKbDigits_digits _ _ E)).
    unfold kbItemHtml. rewrite !countIf_append.
    rewrite countIf_markup_escapeHtml, (countIf_markup_digits id (extractKbDigits_digits _ _ E)).
    reflexivity.
  - unfold plainItemHtml. rewrite !countIf_append, countIf_markup_escapeHtml.
    reflexivity.
Qed.

(** ** The sources block *)

Lemma keepNew_first (n : value) (names : list value) :
  exists rest, keepNew [] (n :: names) = n :: rest.
Proof. cbn [keepNew setHas existsb]. eexists. reflexivity. Qed.

Lemma sourcesHtml_block (data : value) (items : list value) :
  getProp data "sources" = Ok (JArray items) -> items <> [] ->
  exists out,
    annotate items = Ok out
    /\ 1 <= List.length out <= List.length items
    /\ sourcesHtml data = Ok (sourcesBlock out).
Proof.
  intros Hv Hne.
  destruct (sourcesHtml_annotate data items Hv Hne) as (out & Hout & Hhtml).
  destruct (resolveNames_total items) as [names Hnames].
  rewrite (annotate_keepNew _ _ Hnames) in Hout. injection Hout as <-.
  exists (map annotateName (keepNew [] names)).
  split; [now apply annotate_keepNew |].
  assert (Hlen : 1 <= List.length (map annotateName (keepNew [] names))
                 <= List.length items).
  { rewrite length_map, (Forall2_length Hnames). split; [| apply keepNew_length].
    destruct Hnames as [|s n items names Hs Hrest]; [contradiction |].
    destruct (keepNew_first n names) as [rest ->]. simpl. lia. }
  split; [exact Hlen |].
  rewrite Hhtml.
  destruct (0 <? List.length (map annotateName (keepNew [] names))) eqn:E;
    [reflexivity |].
  apply Nat.ltb_ge in E. lia.
Qed.

Lemma sourcesHtml_notice (data v : value) :
  getProp data "sources" = Ok v ->
  (forall items, v = JArray items -> items = []) ->
  sourcesHtml data = Ok noSources.
Proof.
  intros Hv H. unfold sourcesHtml. rewrite Hv. cbn [rbind].
  destruct v; try reflexivity. now rewrite (H items eq_refl).
Qed.

Lemma sourcesHtml_not_empty (data : value) (html : string) :
  sourcesHtml data = Ok html -> html <> EmptyString.
Proof.
  intros H. destruct (getProp data "sources") as [v | e] eqn:Hv.
  - destruct v as [| | b | x | str | items | fields];
      try (rewrite (sourcesHtml_notice data _ Hv) in H by (intros; discriminate);
           injection H as <-; discriminate).
    destruct items as [|s items].
    + rewrite (sourcesHtml_notice data _ Hv) in H.
      * injection H as <-. discriminate.
      * intros items E. now injection E as <-.
    + destruct (sourcesHtml_block data (s :: items) Hv ltac:(discriminate))
        as (out & _ & _ & Hb).
      rewrite Hb in H. injection H as <-. discriminate.
  - unfold sourcesHtml in H. rewrite Hv in H. discriminate H.
Qed.

(** X7. The markup under an answer is never empty. It is the notice that no
    sources were returned when [data.sources] is missing, is not an array or
    is the empty array, and otherwise the block of sources, with one item at
    least and no more items than records. *)
Theorem sourcesHtml_never_empty (data v : value) :
  getProp data "sources" = Ok v ->
  (exists html, sourcesHtml data = Ok html /\ html <> EmptyString)
  /\ ((forall items, v = JArray items -> items = []) ->
      sourcesHtml data = Ok noSources)
  /\ (forall items,
         v = JArray items -> items <> [] ->
         exists out,
           annotate items = Ok out
           /\ 1 <= List.length out <= List.length items
           /\ sourcesHtml data = Ok (sourcesBlock out)).
Proof.
  intros Hv. split; [| split].
  - destruct (sourcesHtml_total data v "sources" Hv) as [html H].
    exists html. split; [exact H | exact (sourcesHtml_not_empty _ _ H)].
  - apply sourcesHtml_notice, Hv.
  - intros items -> Hne. now apply sourcesHtml_block.
Qed.

Lemma sourcesHtml_never_empty_witness :
  getProp answered "sources" = Ok (JArray sampleSources)
  /\ exists html, sourcesHtml answered = Ok html /\ html <> EmptyString.
Proof.
  split; [reflexivity |].
  exact (proj1 (sourcesHtml_never_empty answered (JArray sampleSources) eq_refl)).
Defined.

(** X8. Sources are told apart by their names, not by their KB ids: two
    records with different string names give two entries, also when the
    names differ only in letter case and so carry the same id and the same
    two links. *)
Theorem annotate_by_name_not_id (s1 s2 : value) (a b : string) :
  resolveName s1 = Ok (JString a) ->
  resolveName s2 = Ok (JString b) ->
  a <> b ->
  annotate [s1; s2] = Ok [annotateName (JString a); annotateName (JString b)]
  /\ (sameFolded a b = true ->
      kbId (annotateName (JString a)) = kbId (annotateName (JString b))
      /\ viewUrl (annotateName (JString a)) = viewUrl (annotateName (JString b))
      /\ downloadUrl (annotateName (JString a)) = downloadUrl (annotateName (JString b))).
Proof.
  intros H1 H2 Hne. split.
  - rewrite (annotate_keepNew [s1; s2] [JString a; JString b]).
    + cbn [keepNew setHas existsb app sameValueZero].
      apply String.eqb_neq in Hne. rewrite String.eqb_sym in Hne. rewrite Hne.
      reflexivity.
    + repeat constructor; assumption.
  - intros Hf.
    assert (E : extractKbDigits (JString a) = extractKbDigits (JString b)).
    { rewrite !extractKbDigits_search. now rewrite (kbSearch_folded _ _ Hf). }
    destruct (extractKbDigits (JString b)) as [id|] eqn:Eb.
    + rewrite (annotateName_Some _ _ E), (annotateName_Some _ _ Eb). repeat split.
    + rewrite (annotateName_None _ E), (annotateName_None _ Eb). repeat split.
Qed.

Lemma annotate_by_name_not_id_witness :
  resolveName (JObject [("source", JString "KB_0042.pdf")]) = Ok (JString "KB_0042.pdf")
  /\ resolveName (JObject [("title", JString "kb_0042.PDF")]) = Ok (JString "kb_0042.PDF")
  /\ "KB_0042.pdf" <> "kb_0042.PDF"
  /\ annotate [JObject [("source", JString "KB_0042.pdf")];
               JObject [("title", JString "kb_0042.PDF")]]
     = Ok [annotateName (JString "KB_0042.pdf"); annotateName (JString "kb_0042.PDF")].
Proof.
  split; [reflexivity | split; [reflexivity | split; [discriminate |]]].
  apply (annotate_by_name_not_id (JObject [("source", JString "KB_0042.pdf")])
                                 (JObject [("title", JString "kb_0042.PDF")])
                                 "KB_0042.pdf" "kb_0042.PDF");
    [reflexivity | reflexivity | discriminate].
Defined.
(** ** A turn, whatever the backend does *)

Lemma rev_empty (s : string) : Str.rev s = EmptyString -> s = EmptyString.
Proof.
  destruct s as [|c s]; [reflexivity |]. simpl.
  destruct (Str.rev s); discriminate.
Qed.

Lemma all_rev (p : ascii -> bool) (s : string) : Str.all p (Str.rev s) = Str.all p s.
Proof.
  induction s as [|c s IH]; [reflexivity |].
  simpl. rewrite all_append, IH. simpl. rewrite andb_true_r. apply andb_comm.
Qed.

Lemma dropWhile_head (p : ascii -> bool) (s : string) :
  Str.all p (Str.dropWhile p s) = true -> Str.dropWhile p s = EmptyString.
Proof.
  induction s as [|c s IH]; simpl; [reflexivity |].
  destruct (p c) eqn:E; [exact IH |]. simpl. rewrite E. discriminate.
Qed.

(** [trim] leaves nothing exactly of a string of white space. *)
Lemma trim_empty_iff (s : string) :
  Builtin.trim s = EmptyString <-> Str.all Builtin.isWhiteSpace s = true.
Proof.
  unfold Builtin.trim. split.
  - intros H. apply rev_empty in H.
    assert (Hall : Str.all Builtin.isWhiteSpace
                           (Str.rev (Str.dropWhile Builtin.isWhiteSpace s)) = true).
    { rewrite <- dropWhile_empty_all, H. reflexivity. }
    rewrite all_rev in Hall. apply dropWhile_head in Hall.
    rewrite <- dropWhile_empty_all, Hall. reflexivity.
  - intros H. now rewrite (dropWhile_all _ _ H).
Qed.

(** A turn with a question that is not blank: the state it leaves, in every
    case. *)
Lemma sendQuestion_turn (resp : response) (st : session) :
  Builtin.trim (questionValue st) <> EmptyString ->
  exists m added,
    sendQuestion resp st = (afterTurn (Builtin.trim (questionValue st)) m added st, Ok tt)
    /\ className m = "msg assistant"
    /\ ((added = [] /\ metaEl m = None)
        \/ exists a data html,
             added = [(Builtin.trim (questionValue st), a)]
             /\ truthy a = true /\ convertsToString a = true /\ bubble m = TValue a
             /\ resp = Resolves data /\ sourcesHtml data = Ok html
             /\ metaEl m = Some html).
Proof.
  intros Hq.
  assert (Hcases : (forall data err, resp = Resolves data -> getProp data "error" = Ok err ->
                                     truthy err = true)
                   \/ exists data err, resp = Resolves data /\ getProp data "error" = Ok err
                                       /\ truthy err = false).
  { destruct resp as [e | data]; [left; discriminate |].
    destruct (getProp data "error") as [err | e] eqn:Herr.
    - destruct (truthy err) eqn:Ht.
      + left. intros data' err' H. injection H as <-. congruence.
      + right. now exists data, err.
    - left. intros data' err' H. injection H as <-. congruence. }
  destruct Hcases as [Hno | (data & err & -> & Herr & Hfalsy)].
  - destruct (sendQuestion_no_answer resp st Hq Hno) as (m & Hrun & Hclass & Hmeta).
    exists m, []. split; [exact Hrun |]. split; [exact Hclass |]. left. now split.
  - destruct (getProp_Ok_any _ _ "error" "answer" Herr) as [v Hv].
    destruct (sourcesHtml_total _ _ _ Herr) as [html Hhtml].
    pose proof (sendQuestion_answer data err v html st Hq Herr Hfalsy Hv Hhtml) as Hrun.
    cbv zeta in Hrun.
    destruct (convertsToString (if truthy v then v else JString defaultAnswer)) eqn:Hshown.
    + exists (answerMessage (if truthy v then v else JString defaultAnswer) html),
             [(Builtin.trim (questionValue st), if truthy v then v else JString defaultAnswer)].
      split; [exact Hrun |]. split; [reflexivity |]. right.
      exists (if truthy v then v else JString defaultAnswer), data, html.
      repeat split; try assumption.
      * destruct (truthy v) eqn:Hv'; [exact Hv' | reflexivity].
      * unfold answerMessage. cbn [metaEl].
        pose proof (sourcesHtml_not_empty _ _ Hhtml) as Hne.
        destruct html; [contradiction | reflexivity].
    + exists (failureMessage noPrimitive), [].
      split; [exact Hrun |]. split; [reflexivity |]. left. now split.
Qed.

Lemma sendQuestion_blank (resp : response) (st : session) :
  Builtin.trim (questionValue st) = EmptyString ->
  sendQuestion resp st = (st, Ok tt).
Proof.
  intros H. unfold sendQuestion, bind, gets. rewrite H. reflexivity.
Qed.

(** X9. [sendQuestion] does nothing at all (no message, no request, no change
    of a control) exactly when the question is made of white space only. *)
Theorem sendQuestion_blank_iff (resp : response) (st : session) :
  sendQuestion resp st = (st, Ok tt)
  <-> Str.all Builtin.isWhiteSpace (questionValue st) = true.
Proof.
  split.
  - intros H. apply trim_empty_iff.
    destruct (string_dec (Builtin.trim (questionValue st)) EmptyString) as [E | E];
      [exact E |].
    destruct (sendQuestion_turn resp st E) as (m & added & Hrun & _).
    rewrite Hrun in H. injection H as H.
    apply (f_equal (fun s => List.length (chat s))) in H. cbn [chat afterTurn] in H.
    rewrite length_app in H. simpl in H. lia.
  - intros H. apply sendQuestion_blank. now apply trim_empty_iff.
Qed.

Lemma sendQuestion_blank_iff_witness :
  Str.all Builtin.isWhiteSpace (questionValue (withQuestionValue "   " askedSession)) = true
  /\ sendQuestion (Resolves answered) (withQuestionValue "   " askedSession)
     = (withQuestionValue "   " askedSession, Ok tt).
Proof.
  split; [reflexivity |].
  apply (proj2 (sendQuestion_blank_iff (Resolves answered)
                                       (withQuestionValue "   " askedSession))).
  reflexivity.
Defined.

(** X10. A turn with a question that is not blank completes normally
    whatever the backend does, also when what it answers cannot be shown,
    and leaves the input empty, enabled and focused and the Send button
    enabled; it posts one request, with the trimmed question and the history
    as it was before the turn, and adds two messages, the question and one
    message of the assistant. *)
Theorem sendQuestion_completes (resp : response) (st : session) :
  Str.all Builtin.isWhiteSpace (questionValue st) = false ->
  let q := Builtin.trim (questionValue st) in
  let st' := fst (sendQuestion resp st) in
  snd (sendQuestion resp st) = Ok tt
  /\ q <> EmptyString
  /\ questionValue st' = EmptyString
  /\ questionDisabled st' = false
  /\ sendDisabled st' = false
  /\ questionFocused st' = true
  /\ requests st' = (requests st ++ [(q, chat_history st)])%list
  /\ exists m,
       chat st' = (chat st ++ [userMessage q; m])%list
       /\ className m = "msg assistant".
Proof.
  intros Hws q st'. subst q st'.
  assert (Hq : Builtin.trim (questionValue st) <> EmptyString).
  { intros E. apply trim_empty_iff in E. congruence. }
  destruct (sendQuestion_turn resp st Hq) as (m & added & -> & Hm & _).
  cbn [fst snd afterTurn chat requests questionValue questionDisabled sendDisabled
       questionFocused].
  repeat split; try assumption. now exists m.
Qed.

Lemma sendQuestion_completes_witness :
  Str.all Builtin.isWhiteSpace (questionValue askedSession) = false
  /\ snd (sendQuestion (Resolves unshownAnswer) askedSession) = Ok tt
  /\ questionDisabled (fst (sendQuestion (Resolves unshownAnswer) askedSession)) = false.
Proof.
  split; [reflexivity |].
  destruct (sendQuestion_completes (Resolves unshownAnswer) askedSession eq_refl)
    as (H1 & _ & _ & H2 & _).
  split; assumption.
Defined.

(** X11. A turn records what it shows. Either [chat_history] is left as it
    was and the message of the assistant has no sources under it, or the
    pair added is the question shown and the answer shown, the answer is
    truthy and has a string form, and the message carries the markup of
    [data.sources]. *)
Theorem sendQuestion_shows_what_it_records (resp : response) (st : session) :
  Str.all Builtin.isWhiteSpace (questionValue st) = false ->
  let q := Builtin.trim (questionValue st) in
  let st' := fst (sendQuestion resp st) in
  exists m,
    chat st' = (chat st ++ [userMessage q; m])%list
    /\ ((chat_history st' = chat_history st /\ metaEl m = None)
        \/ exists a data html,
             chat_history st' = (chat_history st ++ [(q, a)])%list
             /\ truthy a = true /\ convertsToString a = true /\ bubble m = TValue a
             /\ resp = Resolves data /\ sourcesHtml data = Ok html
             /\ metaEl m = Some html).
Proof.
  intros Hws q st'. subst q st'.
  assert (Hq : Builtin.trim (questionValue st) <> EmptyString).
  { intros E. apply trim_empty_iff in E. congruence. }
  destruct (sendQuestion_turn resp st Hq) as (m & added & -> & _ & Hadded).
  cbn [fst afterTurn chat chat_history]. exists m. split; [reflexivity |].
  destruct Hadded as [[-> Hm] | (a & data & html & -> & Hrest)].
  - left. now rewrite app_nil_r.
  - right. now exists a, data, html.
Qed.

Lemma sendQuestion_shows_what_it_records_witness :
  Str.all Builtin.isWhiteSpace (questionValue askedSession) = false
  /\ exists m,
       chat (fst (sendQuestion (Resolves answered) askedSession))
       = [userMessage "How do I export a sequence?"; m]
       /\ ((chat_history (fst (sendQuestion (Resolves answered) askedSession)) = []
            /\ metaEl m = None)
           \/ exists a data html,
                chat_history (fst (sendQuestion (Resolves answered) askedSession))
                = [("How do I export a sequence?", a)]
                /\ truthy a = true /\ convertsToString a = true /\ bubble m = TValue a
                /\ Resolves answered = Resolves data /\ sourcesHtml data = Ok html
                /\ metaEl m = Some html).
Proof.
  split; [reflexivity |].
  exact (sendQuestion_shows_what_it_records (Resolves answered) askedSession eq_refl).
Defined.
(** ** Reindex *)

Lemma page_ext (a b : page) :
  pageSession a = pageSession b -> reindexBtn a = reindexBtn b ->
  reindexPosts a = reindexPosts b -> a = b.
Proof. destruct a, b; simpl; intros; subst; reflexivity. Qed.

Ltac page_fields :=
  apply pair_ext; [| reflexivity]; cbn beta iota; cbn [fst];
  apply page_ext;
  cbn [pageSession reindexBtn reindexPosts withSession withReindexBtn withReindexPost
       reindexShown setDisabled setLabel btnDisabled btnLabel];
  reflexivity.

Section Reindex.
Variable stringify : value -> nat -> string.

Lemma reindexClick_turn (resp : response) (pg : page) :
  exists m,
    reindexClick stringify resp pg = (reindexShown m pg, Ok tt)
    /\ className m = "msg assistant"
    /\ metaEl m = None
    /\ (bubble m = TLit "Reindex completed successfully."
        <-> exists data, resp = Resolves data
                         /\ getProp data "status" = Ok (JString "ok")).
Proof.
  unfold reindexClick, Handler.bind, Handler.modify, Handler.tryCatchFinally,
    Handler.lift, onSession, pushMessage, modify.
  cbn beta iota.
  destruct resp as [e | data]; cbn [awaited].
  - eexists. split; [page_fields |]. cbn [className metaEl bubble].
    repeat split; try discriminate.
    intros (data & H & _). discriminate H.
  - destruct (getProp data "status") as [status | e] eqn:Hs.
    + destruct (strictEqualsString status "ok") eqn:Hok.
      * eexists. split; [page_fields |]. cbn [className metaEl bubble].
        repeat split. intros _. exists data. split; [reflexivity |].
        destruct status; try discriminate Hok. simpl in Hok.
        apply String.eqb_eq in Hok. now subst.
      * eexists. split; [page_fields |]. cbn [className metaEl bubble].
        repeat split; try discriminate.
        intros (data' & H & Hs'). injection H as <-.
        rewrite Hs in Hs'. injection Hs' as ->. discriminate Hok.
    + eexists. split; [page_fields |]. cbn [className metaEl bubble].
      repeat split; try discriminate.
      intros (data' & H & Hs'). injection H as <-. rewrite Hs in Hs'. discriminate.
Qed.

(** X12. A click on Reindex completes normally whatever the backend does:
    the button is enabled again with its label, one request was posted, one
    message of the assistant with nothing under it was added, and
    [chat_history], the requests and the controls of the question are left
    as they were. The message says the reindexing completed exactly when the
    answer has [status] equal to the string [ok]. *)
Theorem reindexClick_outcome (resp : response) (pg : page) :
  let pg' := fst (reindexClick stringify resp pg) in
  snd (reindexClick stringify resp pg) = Ok tt
  /\ reindexBtn pg' = {| btnDisabled := false; btnLabel := "Reindex" |}
  /\ reindexPosts pg' = S (reindexPosts pg)
  /\ chat_history (pageSession pg') = chat_history (pageSession pg)
  /\ requests (pageSession pg') = requests (pageSession pg)
  /\ questionValue (pageSession pg') = questionValue (pageSession pg)
  /\ questionDisabled (pageSession pg') = questionDisabled (pageSession pg)
  /\ sendDisabled (pageSession pg') = sendDisabled (pageSession pg)
  /\ exists m,
       chat (pageSession pg') = (chat (pageSession pg) ++ [m])%list
       /\ className m = "msg assistant"
       /\ metaEl m = None
       /\ (bubble m = TLit "Reindex completed successfully."
           <-> exists data, resp = Resolves data
                            /\ getProp data "status" = Ok (JString "ok")).
Proof.
  intros pg'. subst pg'.
  destruct (reindexClick_turn resp pg) as (m & -> & Hm).
  cbn [fst snd reindexShown pageSession reindexBtn reindexPosts withChat chat_history
       requests questionValue questionDisabled sendDisabled chat].
  repeat split. exists m. split; [reflexivity | exact Hm].
Qed.

(** One event on the chat. *)
Lemma pageStep_effect (ev : pageEvent) (pg : page) :
  let pg' := pageStep stringify pg ev in
  exists more posted added,
    chat_history (pageSession pg') = (chat_history (pageSession pg) ++ more)%list
    /\ Forall goodPair more
    /\ List.length more <= (if callsSend ev then 1 else 0)
    /\ requests (pageSession pg') = (requests (pageSession pg) ++ posted)%list
    /\ Forall (fun r => snd r = chat_history (pageSession pg)) posted
    /\ chat (pageSession pg') = (chat (pageSession pg) ++ added)%list
    /\ reindexPosts pg' = reindexPosts pg + (if callsReindex ev then 1 else 0)
    /\ (idle pg -> idle pg').
Proof.
  intros pg'. subst pg'.
  assert (Hsend : forall typed resp,
             let pg' := sendTyped typed resp pg in
             exists more posted added,
               chat_history (pageSession pg') = (chat_history (pageSession pg) ++ more)%list
               /\ Forall goodPair more
               /\ List.length more <= 1
               /\ requests (pageSession pg') = (requests (pageSession pg) ++ posted)%list
               /\ Forall (fun r => snd r = chat_history (pageSession pg)) posted
               /\ chat (pageSession pg') = (chat (pageSession pg) ++ added)%list
               /\ reindexPosts pg' = reindexPosts pg + 0
               /\ (idle pg -> idle pg')).
  { intros typed resp pg'. subst pg'. unfold sendTyped, onSession.
    cbn [withSession pageSession].
    destruct (string_dec (Builtin.trim typed) EmptyString) as [E | E].
    - rewrite sendQuestion_blank by exact E.
      exists [], [], []. cbn [fst withSession pageSession reindexPosts reindexBtn].
      cbn [withQuestionValue chat_history requests chat]. rewrite !app_nil_r.
      repeat split; auto; unfold idle in *; cbn in *; tauto.
    - destruct (sendQuestion_turn resp (withQuestionValue typed (pageSession pg)) E)
        as (m & added & -> & _ & Hadded).
      cbn [fst withSession pageSession reindexPosts reindexBtn afterTurn].
      cbn [withQuestionValue chat_history requests chat questionValue].
      exists added. eexists. eexists.
      repeat split; try reflexivity; try lia;
        try (unfold idle in *; cbn in *; tauto).
      + destruct Hadded as [[-> _] | (a & ? & ? & -> & Ha & Hshown & _)];
          constructor; [| constructor].
        repeat split; assumption.
      + destruct Hadded as [[-> _] | (a & ? & ? & -> & _)]; simpl; lia.
      + constructor; [reflexivity | constructor]. }
  destruct ev as [typed resp | key typed resp | resp]; cbn [pageStep callsSend callsReindex].
  - apply Hsend.
  - destruct (String.eqb key "Enter"); [apply Hsend |].
    exists [], [], []. cbn [withSession pageSession reindexPosts reindexBtn].
    cbn [withQuestionValue chat_history requests chat]. rewrite !app_nil_r.
    repeat split; auto; unfold idle in *; cbn in *; tauto.
  - destruct (reindexClick_turn resp pg) as (m & -> & _).
    exists [], [], [m].
    cbn [fst reindexShown pageSession reindexBtn reindexPosts withChat chat_history
         requests chat].
    rewrite !app_nil_r. repeat split; auto; try lia; unfold idle in *; cbn in *; tauto.
Qed.

(** X13. Over any sequence of clicks and keys on the chat: [chat_history]
    only grows, by pairs of a question that is not empty and a truthy
    answer that has a string form, at most one for each call of
    [sendQuestion]; every request posted carried a beginning of the final
    history; the chat only grows; one request to reindex is posted for each
    click on Reindex; and controls that were free are free again. *)
Theorem runPage_history (evs : list pageEvent) (pg : page) :
  let pg' := runPage stringify evs pg in
  (exists more,
      chat_history (pageSession pg') = (chat_history (pageSession pg) ++ more)%list
      /\ Forall goodPair more
      /\ List.length more <= List.length (filter callsSend evs))
  /\ (exists posted,
         requests (pageSession pg') = (requests (pageSession pg) ++ posted)%list
         /\ Forall (fun r => exists rest,
                        chat_history (pageSession pg') = (snd r ++ rest)%list) posted)
  /\ (exists added, chat (pageSession pg') = (chat (pageSession pg) ++ added)%list)
  /\ reindexPosts pg' = reindexPosts pg + List.length (filter callsReindex evs)
  /\ (idle pg -> idle pg').
Proof.
  unfold runPage. revert pg. induction evs as [|ev evs IH]; intros pg.
  - cbn [fold_left filter List.length].
    repeat split; try (exists []; rewrite app_nil_r; repeat split; auto);
      auto; unfold idle in *; tauto.
  - cbn [fold_left].
    destruct (pageStep_effect ev pg)
      as (more1 & posted1 & added1 & Hh1 & Hg1 & Hl1 & Hr1 & Hp1 & Hc1 & Hn1 & Hi1).
    destruct (IH (pageStep stringify pg ev))
      as ((more2 & Hh2 & Hg2 & Hl2) & (posted2 & Hr2 & Hp2) & (added2 & Hc2) & Hn2 & Hi2).
    cbv zeta in *.
    split; [| split; [| split; [| split]]].
    + exists (more1 ++ more2)%list. rewrite Hh2, Hh1, <- app_assoc.
      split; [reflexivity |]. split; [now apply Forall_app |].
      rewrite length_app. cbn [filter]. destruct (callsSend ev); simpl; lia.
    + exists (posted1 ++ posted2)%list. rewrite Hr2, Hr1, <- app_assoc.
      split; [reflexivity |]. apply Forall_app. split; [| exact Hp2].
      eapply Forall_impl; [| exact Hp1]. intros r Hr.
      exists (more1 ++ more2)%list. rewrite Hh2, Hh1, <- app_assoc. now rewrite Hr.
    + exists (added1 ++ added2)%list. now rewrite Hc2, Hc1, <- app_assoc.
    + rewrite Hn2, Hn1. cbn [filter]. destruct (callsReindex ev); simpl; lia.
    + auto.
Qed.

End Reindex.

Lemma samplePage_idle : idle samplePage.
Proof. repeat split. Defined.

Lemma runPage_history_witness :
  idle samplePage /\ idle (runPage sampleStringify pageEvents samplePage).
Proof.
  split; [exact samplePage_idle |].
  exact (proj2 (proj2 (proj2 (proj2 (runPage_history sampleStringify pageEvents
                                                     samplePage))))
               samplePage_idle).
Defined.
(** ** The file chips *)

Lemma panel_ext (a b : panel) :
  selectedFiles a = selectedFiles b -> realFileInputValue a = realFileInputValue b ->
  fileChips a = fileChips b -> uploadPop a = uploadPop b -> uploadNow a = uploadNow b ->
  uploadResult a = uploadResult b -> uploads a = uploads b -> alerts a = alerts b ->
  a = b.
Proof. destruct a, b; simpl; intros; subst; reflexivity. Qed.

Ltac panel_fields :=
  apply panel_ext;
  cbn [selectedFiles realFileInputValue fileChips uploadPop uploadNow uploadResult
       uploads alerts withSelected withInputValue withChips withPop withUploadNow
       withResult withUpload withAlert setDisabled setLabel setShown setAriaHidden
       setResultDisplay setResultText btnDisabled btnLabel popShown popAriaHidden
       resultDisplay resultText chipsDisplay chipsChildren];
  try reflexivity.

Lemma renderChips_fold (files : list file) (q : panel) :
  fold_left
    (fun q f => withChips (fun v => {| chipsDisplay := chipsDisplay v;
                                       chipsChildren := (chipsChildren v ++ [chipOf f])%list |}) q)
    files q
  = withChips (fun v => {| chipsDisplay := chipsDisplay v;
                           chipsChildren := (chipsChildren v ++ map chipOf files)%list |}) q.
Proof.
  revert q. induction files as [|f files IH]; intros q; cbn [fold_left map].
  - panel_fields. rewrite app_nil_r. now destruct (fileChips q).
  - rewrite IH. panel_fields. now rewrite <- app_assoc.
Qed.

Lemma renderChips_chipsOf (p : panel) :
  renderChips p = withChips (fun _ => chipsOf (selectedFiles p)) p.
Proof.
  unfold renderChips, chipsOf.
  cbn [selectedFiles withChips].
  destruct (List.length (selectedFiles p) =? 0) eqn:E.
  - panel_fields. apply Nat.eqb_eq in E.
    destruct (selectedFiles p); [reflexivity | discriminate E].
  - rewrite renderChips_fold. panel_fields.
Qed.

Lemma length_substring (n : nat) (s : string) :
  String.length (substring 0 n s) = Nat.min n (String.length s).
Proof.
  revert n. induction s as [|c s IH]; intros [|n]; simpl; try reflexivity.
  now rewrite IH.
Qed.

Lemma substring_take_twice (n : nat) (s t : string) :
  n <= String.length s -> substring 0 n (substring 0 n s ++ t) = substring 0 n s.
Proof.
  intros H. rewrite <- (substring_prefix (substring 0 n s) t) at 2.
  now rewrite length_substring, Nat.min_l.
Qed.

(** X14. [renderChips] shows the selection and nothing else: one chip for
    each file, in order, whatever chips were there before (so rendering
    twice changes nothing), and [display] is [none] exactly when no file is
    selected. A chip has the full name as title; its text is never longer
    than 21 characters nor than the name, begins as the name does, and is
    the name when that has 20 characters at most. *)
Theorem renderChips_chips (p : panel) :
  fileChips (renderChips p) = chipsOf (selectedFiles p)
  /\ renderChips (renderChips p) = renderChips p
  /\ selectedFiles (renderChips p) = selectedFiles p
  /\ List.length (chipsChildren (fileChips (renderChips p))) = List.length (selectedFiles p)
  /\ (chipsDisplay (fileChips (renderChips p)) = "none" <-> selectedFiles p = [])
  /\ (forall f,
         chipTitle (chipOf f) = fileName f
         /\ String.length (chipText (chipOf f)) <= 21
         /\ String.length (chipText (chipOf f)) <= String.length (fileName f)
         /\ substring 0 18 (chipText (chipOf f)) = substring 0 18 (fileName f)
         /\ (String.length (fileName f) <= 20 -> chipText (chipOf f) = fileName f)).
Proof.
  rewrite !renderChips_chipsOf. cbn [fileChips selectedFiles withChips].
  split; [reflexivity |]. split; [panel_fields |]. split; [reflexivity |].
  split; [apply length_map |]. split.
  - unfold chipsOf; cbn [chipsDisplay].
    destruct (selectedFiles p); simpl; split; intros H; try reflexivity; discriminate H.
  - intros f. unfold chipOf; cbn [chipTitle chipText].
    split; [reflexivity |].
    destruct (20 <? String.length (fileName f)) eqn:E.
    + apply Nat.ltb_lt in E.
      assert (L : String.length (substring 0 18 (fileName f) ++ "...") = 21).
      { rewrite length_append, length_substring, Nat.min_l by lia. reflexivity. }
      rewrite L. split; [lia |]. split; [lia |]. split.
      * apply substring_take_twice. lia.
      * intros H. lia.
    + apply Nat.ltb_ge in E. split; [lia |]. split; [lia |].
      split; reflexivity.
Qed.

Lemma notesFile_short : String.length (fileName notesFile) <= 20.
Proof. simpl. lia. Defined.

Lemma renderChips_chips_witness :
  String.length (fileName notesFile) <= 20
  /\ chipText (chipOf notesFile) = fileName notesFile.
Proof.
  split; [exact notesFile_short |].
  destruct (renderChips_chips samplePanel) as (_ & _ & _ & _ & _ & H).
  destruct (H notesFile) as (_ & _ & _ & _ & Hshort).
  exact (Hshort notesFile_short).
Defined.
(** ** The upload *)

Section Upload.
Variable stringify : value -> nat -> string.
Variable errorString : exn -> string.

Lemma uploadNowClick_none (fetched : result httpResponse) (p : panel) :
  selectedFiles p = [] ->
  uploadNowClick stringify errorString fetched p
  = (withAlert "Choose files first." p, Ok tt).
Proof.
  intros H. unfold uploadNowClick, Handler.bind, Handler.gets. rewrite H. reflexivity.
Qed.

Lemma uploadNowClick_turn (fetched : result httpResponse) (p : panel) :
  selectedFiles p <> [] ->
  uploadNowClick stringify errorString fetched p
  = (uploaded stringify errorString fetched p, Ok tt).
Proof.
  intros H. unfold uploadNowClick, Handler.bind, Handler.gets.
  destruct (selectedFiles p) as [|f files] eqn:Hsel; [contradiction |].
  cbn [List.length Nat.eqb].
  unfold Handler.tryCatchFinally, Handler.modify, Handler.lift, Handler.bind,
    Handler.gets, uploaded, uploadAccepted, uploadReport.
  cbn beta iota.
  destruct fetched as [[isOk [data | e]] | e]; cbn [ok json negb];
    try destruct isOk; cbn beta iota;
    (apply pair_ext; [| reflexivity]); cbn [fst];
    try rewrite renderChips_chipsOf;
    panel_fields; try (now rewrite Hsel); try (now destruct (uploadNow p));
    try (now destruct (uploadResult p)).
Qed.

(** X15. A click on Upload with files selected completes normally whatever
    the backend does: the button is enabled again with its label, one form
    was posted with exactly the selected files, no alert was raised, and the
    result is displayed with the report of the outcome. *)
Theorem uploadNowClick_restores (fetched : result httpResponse) (p : panel) :
  selectedFiles p <> [] ->
  let p' := fst (uploadNowClick stringify errorString fetched p) in
  snd (uploadNowClick stringify errorString fetched p) = Ok tt
  /\ uploadNow p' = {| btnDisabled := false; btnLabel := "Upload & Index" |}
  /\ uploads p' = (uploads p ++ [selectedFiles p])%list
  /\ alerts p' = alerts p
  /\ uploadResult p'
     = {| resultDisplay := "block";
          resultText := uploadReport stringify errorString fetched |}.
Proof.
  intros H p'. subst p'. rewrite (uploadNowClick_turn fetched p H).
  cbn [fst snd uploaded uploadNow uploads alerts uploadResult]. repeat split.
Qed.

(** X16. The selection survives a failed upload. When the backend took the
    upload, the selection, the file input and the chips are emptied and the
    popover is hidden ([aria-hidden] is not touched); in every other case
    (request failed, body unreadable, status not ok) the selection, the file
    input, the chips and the popover are left as they were. *)
Theorem uploadNowClick_selection (fetched : result httpResponse) (p : panel) :
  selectedFiles p <> [] ->
  let p' := fst (uploadNowClick stringify errorString fetched p) in
  (uploadAccepted fetched = true ->
   selectedFiles p' = [] /\ realFileInputValue p' = EmptyString
   /\ fileChips p' = chipsOf []
   /\ popShown (uploadPop p') = false
   /\ popAriaHidden (uploadPop p') = popAriaHidden (uploadPop p))
  /\ (uploadAccepted fetched = false ->
      selectedFiles p' = selectedFiles p
      /\ realFileInputValue p' = realFileInputValue p
      /\ fileChips p' = fileChips p
      /\ uploadPop p' = uploadPop p).
Proof.
  intros H p'. subst p'. rewrite (uploadNowClick_turn fetched p H).
  cbn [fst uploaded selectedFiles realFileInputValue fileChips uploadPop].
  split; intros ->; repeat split.
Qed.

(** One event on the panel. *)
Lemma panelStep_effect (ev : panelEvent) (p : panel) :
  let p' := panelStep stringify errorString p ev in
  (chipsChildren (fileChips p) = map chipOf (selectedFiles p) ->
   chipsChildren (fileChips p') = map chipOf (selectedFiles p'))
  /\ ((popShown (uploadPop p) = true -> popAriaHidden (uploadPop p) = "false") ->
      popShown (uploadPop p') = true -> popAriaHidden (uploadPop p') = "false")
  /\ (btnDisabled (uploadNow p) = false -> btnDisabled (uploadNow p') = false)
  /\ exists posted shown,
       uploads p' = (uploads p ++ posted)%list
       /\ alerts p' = (alerts p ++ shown)%list
       /\ Forall (fun files => files <> []) posted
       /\ Forall (fun text => text = "Choose files first.") shown
       /\ List.length posted + List.length shown = (if isUploadClick ev then 1 else 0).
Proof.
  intros p'. subst p'.
  assert (Hquiet : forall q : panel,
             uploads q = uploads p -> alerts q = alerts p ->
             exists posted shown : list _,
               uploads q = (uploads p ++ posted)%list
               /\ alerts q = (alerts p ++ shown)%list
               /\ Forall (fun files : list file => files <> []) posted
               /\ Forall (fun text => text = "Choose files first.") shown
               /\ List.length posted + List.length shown = 0).
  { intros q Hu Ha. exists [], []. rewrite !app_nil_r. repeat split; auto. }
  assert (Hattach : forall q : panel,
             popShown (uploadPop (attachClick q)) = true ->
             popAriaHidden (uploadPop (attachClick q)) = "false").
  { intros q. unfold attachClick.
    cbn [uploadPop withPop setShown setAriaHidden popShown popAriaHidden].
    now intros ->. }
  destruct ev as [| attachInPop key | inPop inAttach | files | | fetched];
    cbn [panelStep isUploadClick].
  - split; [auto |]. split; [intros _; apply Hattach |]. split; [auto |].
    now apply Hquiet.
  - unfold attachKeydown, documentClick.
    destruct (String.eqb key "Enter" || String.eqb key " ");
      cbn [negb andb]; rewrite ?andb_false_r.
    + split; [auto |]. split; [intros _; apply Hattach |]. split; [auto |].
      now apply Hquiet.
    + split; [auto |]. split; [auto |]. split; [auto |]. now apply Hquiet.
  - unfold documentClick. destruct (negb inPop && negb inAttach).
    + split; [auto |]. split; [| split; [auto | now apply Hquiet]].
      cbn [uploadPop withPop setShown popShown]. discriminate.
    + split; [auto |]. split; [auto |]. split; [auto |]. now apply Hquiet.
  - unfold filesChanged. rewrite renderChips_chipsOf.
    split; [reflexivity |]. split; [auto |]. split; [auto |]. now apply Hquiet.
  - unfold clearFilesClick. rewrite renderChips_chipsOf.
    split; [reflexivity |]. split; [auto |]. split; [auto |]. now apply Hquiet.
  - assert (Hcase : selectedFiles p = [] \/ selectedFiles p <> []).
    { destruct (selectedFiles p); [now left | right; discriminate]. }
    destruct Hcase as [Hsel | Hne].
    + rewrite (uploadNowClick_none fetched p Hsel). cbn [fst].
      split; [auto |]. split; [auto |]. split; [auto |].
      exists [], ["Choose files first."]. rewrite app_nil_r.
      repeat split; auto.
    + rewrite (uploadNowClick_turn fetched p Hne). cbn [fst].
      unfold uploaded.
      cbn [fileChips selectedFiles uploadPop uploadNow uploads alerts btnDisabled].
      split; [| split; [| split]].
      * destruct (uploadAccepted fetched); [reflexivity | auto].
      * destruct (uploadAccepted fetched); [| auto].
        cbn [setShown popShown]. discriminate.
      * reflexivity.
      * exists [selectedFiles p], []. rewrite app_nil_r.
        repeat split; auto.
Qed.

(** X17. The chips stay in step with the selection: when the chips are
    those of the selected files, they still are after any sequence of
    events on the panel. *)
Theorem runPanel_chips_in_step (evs : list panelEvent) (p : panel) :
  chipsChildren (fileChips p) = map chipOf (selectedFiles p) ->
  chipsChildren (fileChips (runPanel stringify errorString evs p))
  = map chipOf (selectedFiles (runPanel stringify errorString evs p)).
Proof.
  unfold runPanel. revert p. induction evs as [|ev evs IH]; intros p H; [exact H |].
  cbn [fold_left]. apply IH. now apply (panelStep_effect ev p).
Qed.

(** X18. A popover that is shown is never announced as hidden: when a shown
    popover has [aria-hidden] false, that still holds after any sequence of
    events. The converse is not kept: a click outside both the popover and
    the attach button hides the popover and leaves [aria-hidden] as it was;
    a click inside either changes nothing. *)
Theorem runPanel_shown_announced :
  (forall (evs : list panelEvent) (p : panel),
      (popShown (uploadPop p) = true -> popAriaHidden (uploadPop p) = "false") ->
      popShown (uploadPop (runPanel stringify errorString evs p)) = true ->
      popAriaHidden (uploadPop (runPanel stringify errorString evs p)) = "false")
  /\ (forall p,
         popShown (uploadPop (documentClick false false p)) = false
         /\ popAriaHidden (uploadPop (documentClick false false p))
            = popAriaHidden (uploadPop p))
  /\ (forall inPop inAttach p,
         inPop || inAttach = true -> documentClick inPop inAttach p = p).
Proof.
  split; [| split].
  - unfold runPanel. intros evs. induction evs as [|ev evs IH]; intros p H; [exact H |].
    cbn [fold_left]. apply IH. now apply (panelStep_effect ev p).
  - intros p. split; reflexivity.
  - intros inPop inAttach p H. unfold documentClick.
    destruct inPop, inAttach; try discriminate H; reflexivity.
Qed.

(** The attach button toggles the popover and keeps [aria-hidden] in step:
    after a click the popover is shown exactly when it was hidden, and
    [aria-hidden] says so; two clicks give back what was shown. Enter and
    Space on the button do what one click does, and any other key does
    nothing. *)
Lemma attachClick_toggles (p : panel) :
  popShown (uploadPop (attachClick p)) = negb (popShown (uploadPop p))
  /\ popAriaHidden (uploadPop (attachClick p))
     = (if popShown (uploadPop p) then "true" else "false")
  /\ popShown (uploadPop (attachClick (attachClick p))) = popShown (uploadPop p)
  /\ (forall attachInPop key,
         key = "Enter" \/ key = " " ->
         attachKeydown attachInPop key p = attachClick p)
  /\ (forall attachInPop key,
         key <> "Enter" -> key <> " " ->
         attachKeydown attachInPop key p = p).
Proof.
  unfold attachClick.
  cbn [uploadPop withPop setShown setAriaHidden popShown popAriaHidden].
  rewrite negb_involutive.
  split; [reflexivity |]. split; [now destruct (popShown (uploadPop p)) |].
  split; [reflexivity |]. split.
  - intros attachInPop key [-> | ->]; unfold attachKeydown, documentClick;
      cbn [String.eqb Ascii.eqb Bool.eqb orb negb andb];
      rewrite ?andb_false_r; reflexivity.
  - intros attachInPop key H1 H2. unfold attachKeydown.
    apply String.eqb_neq in H1, H2. now rewrite H1, H2.
Qed.

(** X19. Clicks on Upload are all accounted for: over any sequence of events
    each click either posted one form or raised the alert to choose files
    first, no form was posted without a file, and an Upload button that was
    enabled is enabled again. *)
Theorem runPanel_uploads (evs : list panelEvent) (p : panel) :
  let p' := runPanel stringify errorString evs p in
  (exists posted shown,
      uploads p' = (uploads p ++ posted)%list
      /\ alerts p' = (alerts p ++ shown)%list
      /\ Forall (fun files => files <> []) posted
      /\ Forall (fun text => text = "Choose files first.") shown
      /\ List.length posted + List.length shown = List.length (filter isUploadClick evs))
  /\ (btnDisabled (uploadNow p) = false -> btnDisabled (uploadNow p') = false).
Proof.
  unfold runPanel. revert p. induction evs as [|ev evs IH]; intros p.
  - cbn [fold_left filter List.length]. split; [| auto].
    exists [], []. rewrite !app_nil_r. repeat split; auto.
  - cbn [fold_left].
    destruct (panelStep_effect ev p)
      as (_ & _ & Hb1 & posted1 & shown1 & Hu1 & Ha1 & Hp1 & Hs1 & Hl1).
    destruct (IH (panelStep stringify errorString p ev))
      as ((posted2 & shown2 & Hu2 & Ha2 & Hp2 & Hs2 & Hl2) & Hb2).
    cbv zeta in *. split; [| auto].
    exists (posted1 ++ posted2)%list, (shown1 ++ shown2)%list.
    rewrite Hu2, Hu1, Ha2, Ha1, <- !app_assoc.
    repeat split; try (now apply Forall_app).
    rewrite !length_app. cbn [filter]. destruct (isUploadClick ev); simpl; lia.
Qed.

End Upload.

Lemma samplePanel_selected : selectedFiles samplePanel <> [].
Proof. discriminate. Defined.

Lemma uploadNowClick_restores_witness :
  selectedFiles samplePanel <> []
  /\ snd (uploadNowClick sampleStringify sampleErrorString refused samplePanel) = Ok tt
  /\ uploads (fst (uploadNowClick sampleStringify sampleErrorString refused samplePanel))
     = [[reportFile]].
Proof.
  split; [exact samplePanel_selected |].
  destruct (uploadNowClick_restores sampleStringify sampleErrorString refused samplePanel
                                    samplePanel_selected) as (H1 & _ & H2 & _).
  split; assumption.
Defined.

Lemma uploadNowClick_selection_witness :
  selectedFiles samplePanel <> []
  /\ uploadAccepted refused = false
  /\ selectedFiles (fst (uploadNowClick sampleStringify sampleErrorString refused samplePanel))
     = [reportFile].
Proof.
  split; [exact samplePanel_selected | split; [reflexivity |]].
  exact (proj1 (proj2 (uploadNowClick_selection sampleStringify sampleErrorString
                                                refused samplePanel samplePanel_selected)
                      eq_refl)).
Defined.

Lemma runPanel_chips_in_step_witness :
  chipsChildren (fileChips samplePanel) = map chipOf (selectedFiles samplePanel)
  /\ chipsChildren (fileChips (runPanel sampleStringify sampleErrorString
                                        panelEvents samplePanel))
     = map chipOf (selectedFiles (runPanel sampleStringify sampleErrorString
                                           panelEvents samplePanel)).
Proof.
  split; [reflexivity |].
  apply (runPanel_chips_in_step sampleStringify sampleErrorString panelEvents samplePanel).
  reflexivity.
Defined.

Lemma samplePanel_announced :
  popShown (uploadPop samplePanel) = true ->
  popAriaHidden (uploadPop samplePanel) = "false".
Proof. reflexivity. Defined.

Lemma runPanel_shown_announced_witness :
  (popShown (uploadPop samplePanel) = true ->
   popAriaHidden (uploadPop samplePanel) = "false")
  /\ (popShown (uploadPop (runPanel sampleStringify sampleErrorString
                                     panelEvents samplePanel)) = true ->
      popAriaHidden (uploadPop (runPanel sampleStringify sampleErrorString
                                         panelEvents samplePanel)) = "false").
Proof.
  split; [exact samplePanel_announced |].
  exact (proj1 (runPanel_shown_announced sampleStringify sampleErrorString)
               panelEvents samplePanel samplePanel_announced).
Defined.

Lemma samplePanel_enabled : btnDisabled (uploadNow samplePanel) = false.
Proof. reflexivity. Defined.

Lemma runPanel_uploads_witness :
  btnDisabled (uploadNow samplePanel) = false
  /\ btnDisabled (uploadNow (runPanel sampleStringify sampleErrorString
                                      panelEvents samplePanel)) = false.
Proof.
  split; [exact samplePanel_enabled |].
  exact (proj2 (runPanel_uploads sampleStringify sampleErrorString panelEvents samplePanel)
               samplePanel_enabled).
Defined.

Lemma attachClick_toggles_witness :
  (" " = "Enter" \/ " " = " ")
  /\ attachKeydown true " " samplePanel = attachClick samplePanel.
Proof.
  split; [now right |].
  exact (proj1 (proj2 (proj2 (proj2 (attachClick_toggles samplePanel))))
               true " " (or_intror eq_refl)).
Defined.
